(** * nixpkgs-update-pypi-releases: version resolution and update pipeline

    A shallow embedding of [main.py].  The program is glue around three
    libraries: Python's [re], [packaging.version] and
    [packaging.specifiers].  The parts of those libraries the program
    executes are embedded first (modules [Re], [Packaging] and
    [Specifiers], the latter two after release 24.1 of [packaging]); the
    program's own functions follow under their source names.

    Text is modelled by [string]; a character is one of the 256 values of
    [ascii], read as the code points U+0000 to U+00FF. *)

From Stdlib Require Import List Bool Arith NArith Lia Ascii String.
From Stdlib Require Import DecimalString DecimalN DecimalPos.
Set Warnings "-register-all".
Import ListNotations.
Open Scope string_scope.

(** * Regular expressions: the fragment of [re] used by the program *)

Module Re.

(** Group name to matched text, most recent binding first. *)
Definition captures := list (string * string).

Fixpoint group (name : string) (c : captures) : option string :=
  match c with
  | [] => None
  | (n, v) :: c' => if String.eqb n name then Some v else group name c'
  end.

Inductive regex :=
| Eps
| Chr (p : ascii -> bool)
| Lit (l : string)
| Cat (r1 r2 : regex)
| Alt (r1 r2 : regex)
| Star (r : regex)
| Group (name : string) (r : regex)
| Dollar.

(** [r?] and [r+], both greedy. *)
Definition Opt (r : regex) : regex := Alt r Eps.
Definition Plus (r : regex) : regex := Cat r (Star r).

Fixpoint strip_prefix (l s : string) : option string :=
  match l with
  | EmptyString => Some s
  | String a l' =>
      match s with
      | String b s' => if Ascii.eqb a b then strip_prefix l' s' else None
      | EmptyString => None
      end
  end.

(** The part of [s] consumed when the rest is [s']. *)
Definition taken (s s' : string) : string :=
  substring 0 (String.length s - String.length s') s.

Section Matcher.

Context {R : Type}.

(** Backtracking matcher in continuation-passing style: the continuation
    is the rest of the pattern, [None] is failure and makes the caller try
    its next alternative.  Group bindings made on a path that fails are
    dropped with it. *)
Fixpoint run (r : regex) (s : string) (c : captures)
    (k : string -> captures -> option R) {struct r} : option R :=
  match r with
  | Eps => k s c
  | Chr p =>
      match s with
      | String a s' => if p a then k s' c else None
      | EmptyString => None
      end
  | Lit l =>
      match strip_prefix l s with
      | Some s' => k s' c
      | None => None
      end
  | Cat r1 r2 => run r1 s c (fun s' c' => run r2 s' c' k)
  | Alt r1 r2 =>
      match run r1 s c k with
      | Some x => Some x
      | None => run r2 s c k
      end
  | Star r' =>
      (fix loop (n : nat) (s : string) (c : captures) {struct n} : option R :=
         match n with
         | O => k s c
         | S n' =>
             match run r' s c
                     (fun s' c' =>
                        if Nat.ltb (String.length s') (String.length s)
                        then loop n' s' c' else None)
             with
             | Some x => Some x
             | None => k s c
             end
         end) (String.length s) s c
  | Group name r' => run r' s c (fun s' c' => k s' ((name, taken s s') :: c'))
  | Dollar =>
      match s with
      | EmptyString => k s c
      | String a EmptyString => if Ascii.eqb a "010" then k s c else None
      | _ => None
      end
  end.

End Matcher.

(** [pattern.match(s)]: a match anchored at the start of [s]; the result
    is the unconsumed rest and the groups. *)
Definition re_match (r : regex) (s : string) : option (string * captures) :=
  run r s [] (fun s' c' => Some (s', c')).

(** [pattern.finditer(s)]: leftmost matches, scanning resumes where the
    previous match ended.  [skip] counts the characters of the previous
    match still to step over.  (After an empty match the scan moves
    one character on; no pattern of the program matches the empty
    string.) *)
Fixpoint scan (r : regex) (s : string) (skip : nat) {struct s}
    : list captures :=
  match skip with
  | S k =>
      match s with
      | String _ s' => scan r s' k
      | EmptyString => []
      end
  | O =>
      match re_match r s with
      | Some (rest, c) =>
          c :: match s with
               | String _ s' => scan r s' (pred (String.length s - String.length rest))
               | EmptyString => []
               end
      | None =>
          match s with
          | String _ s' => scan r s' 0
          | EmptyString => []
          end
      end
  end.

(** [pattern.findall(s)] for a pattern with exactly one group, named
    ["1"] here: the list of that group's texts. *)
Definition findall (r : regex) (s : string) : list string :=
  map (fun c => match group "1" c with Some v => v | None => "" end)
      (scan r s 0).

(** Character classes.  [\s] on [str] patterns is Unicode white space. *)
Definition is_space (a : ascii) : bool :=
  let n := nat_of_ascii a in
  (Nat.leb 9 n && Nat.leb n 13) || (Nat.leb 28 n && Nat.leb n 32)
  || Nat.eqb n 133 || Nat.eqb n 160.

Definition is_digit (a : ascii) : bool :=
  let n := nat_of_ascii a in Nat.leb 48 n && Nat.leb n 57.

(** [.] without DOTALL. *)
Definition not_newline (a : ascii) : bool := negb (Ascii.eqb a "010").

(** A one-character class given by its members, and literal text under
    IGNORECASE. *)
Definition one_of (members : string) (a : ascii) : bool :=
  existsb (Ascii.eqb a) (list_ascii_of_string members).

Definition lower_ascii (a : ascii) : ascii :=
  let n := nat_of_ascii a in
  if Nat.leb 65 n && Nat.leb n 90 then ascii_of_nat (n + 32) else a.

Fixpoint lit_ci (l : string) : regex :=
  match l with
  | EmptyString => Eps
  | String x l' => Cat (Chr (fun a => Ascii.eqb (lower_ascii a) x)) (lit_ci l')
  end.

Fixpoint alts (rs : list regex) : regex :=
  match rs with
  | [] => Chr (fun _ => false)
  | [r] => r
  | r :: rs' => Alt r (alts rs')
  end.

End Re.

Import Re.

(** * Python built-ins used on strings and sequences *)

Module Py.

(** [str.split(sep)] for a one-character separator, and [re.split] on a
    one-character class: the pieces between separators, empty ones kept. *)
Fixpoint split_on (p : ascii -> bool) (s : string) : list string :=
  match s with
  | EmptyString => [EmptyString]
  | String a s' =>
      if p a then EmptyString :: split_on p s'
      else match split_on p s' with
           | x :: xs => String a x :: xs
           | [] => [String a EmptyString]
           end
  end.

Definition split (sep : ascii) : string -> list string :=
  split_on (Ascii.eqb sep).

(** [sep.join(parts)]. *)
Definition join (sep : string) (parts : list string) : string :=
  String.concat sep parts.

(** [str(n)] and [int(s)] on non-negative integers in decimal.  Integers
    are unbounded, as in Python; the interpreter's optional limit on the
    length of a decimal conversion (4300 digits by default from 3.11 on)
    is not part of the embedding. *)
Definition str (n : N) : string := NilZero.string_of_uint (N.to_uint n).

Definition int (s : string) : option N :=
  option_map N.of_uint (NilZero.uint_of_string s).

Fixpoint string_map (f : ascii -> ascii) (s : string) : string :=
  match s with
  | EmptyString => EmptyString
  | String a s' => String (f a) (string_map f s')
  end.

(** [str.lower], on text made of ASCII letters, digits and punctuation. *)
Definition lower : string -> string := string_map lower_ascii.

Fixpoint string_forallb (p : ascii -> bool) (s : string) : bool :=
  match s with
  | EmptyString => true
  | String a s' => p a && string_forallb p s'
  end.

(** [str.isdigit], on ASCII text. *)
Definition isdigit (s : string) : bool :=
  match s with
  | EmptyString => false
  | _ => string_forallb is_digit s
  end.

(** [itertools.dropwhile]. *)
Fixpoint dropwhile {A} (p : A -> bool) (l : list A) : list A :=
  match l with
  | [] => []
  | x :: l' => if p x then dropwhile p l' else l
  end.

(** [mapM] for [option]: a comprehension whose element expression can
    raise. *)
Fixpoint traverse {A B} (f : A -> option B) (l : list A) : option (list B) :=
  match l with
  | [] => Some []
  | x :: l' =>
      match f x, traverse f l' with
      | Some y, Some ys => Some (y :: ys)
      | _, _ => None
      end
  end.

End Py.

(** * Comparison of Python values

    Tuples compare lexicographically, a proper prefix being smaller;
    [Infinity] and [NegativeInfinity] of [packaging._structures] compare
    above and below everything else. *)

Module Order.

Class Cmp (A : Type) := cmp : A -> A -> comparison.

Class CmpLaws (A : Type) `{Cmp A} := {
  cmp_eq : forall x y : A, cmp x y = Eq <-> x = y;
  cmp_antisym : forall x y : A, cmp y x = CompOpp (cmp x y);
  cmp_trans : forall x y z : A, cmp x y = Lt -> cmp y z = Lt -> cmp x z = Lt
}.

Section Operators.
Context {A : Type} `{Cmp A}.
Definition ltb (x y : A) : bool :=
  match cmp x y with Lt => true | _ => false end.
Definition leb (x y : A) : bool :=
  match cmp x y with Gt => false | _ => true end.
Definition gtb (x y : A) : bool :=
  match cmp x y with Gt => true | _ => false end.
Definition eqb (x y : A) : bool :=
  match cmp x y with Eq => true | _ => false end.
End Operators.

(** First difference decides. *)
Definition lex (c : comparison) (d : comparison) : comparison :=
  match c with Eq => d | _ => c end.

Inductive bounded (A : Type) : Type :=
| NegativeInfinity
| Fin (a : A)
| Infinity.
Arguments NegativeInfinity {A}.
Arguments Fin {A} a.
Arguments Infinity {A}.

#[global] Instance N_Cmp : Cmp N := N.compare.
#[global] Instance string_Cmp : Cmp string := String.compare.

#[global] Instance pair_Cmp {A B} `{Cmp A} `{Cmp B} : Cmp (A * B) :=
  fun p q => lex (cmp (fst p) (fst q)) (cmp (snd p) (snd q)).

Fixpoint list_cmp {A} `{Cmp A} (l l' : list A) : comparison :=
  match l, l' with
  | [], [] => Eq
  | [], _ :: _ => Lt
  | _ :: _, [] => Gt
  | x :: t, y :: t' => lex (cmp x y) (list_cmp t t')
  end.

#[global] Instance list_Cmp {A} `{Cmp A} : Cmp (list A) := list_cmp.

#[global] Instance bounded_Cmp {A} `{Cmp A} : Cmp (bounded A) :=
  fun x y =>
    match x, y with
    | NegativeInfinity, NegativeInfinity => Eq
    | NegativeInfinity, _ => Lt
    | _, NegativeInfinity => Gt
    | Infinity, Infinity => Eq
    | Infinity, _ => Gt
    | _, Infinity => Lt
    | Fin a, Fin b => cmp a b
    end.

End Order.

Import Order.

(** * [packaging.version] *)

Module Packaging.

Definition digits : regex := Plus (Chr is_digit).
Definition separator : regex := Chr (one_of "-_.").
Definition alnum (a : ascii) : bool :=
  let n := nat_of_ascii (lower_ascii a) in
  (Nat.leb 97 n && Nat.leb n 122) || is_digit a.

(** [VERSION_PATTERN], compiled with VERBOSE and IGNORECASE, piece by
    piece in the order of the pattern text. *)
Definition epoch_re : regex :=
  Opt (Cat (Group "epoch" digits) (Lit "!")).

Definition release_re : regex :=
  Group "release" (Cat digits (Star (Cat (Lit ".") digits))).

Definition pre_re : regex :=
  Opt (Group "pre"
         (Cat (Opt separator)
         (Cat (Group "pre_l"
                (alts (map lit_ci
                   ["alpha"; "a"; "beta"; "b"; "preview"; "pre"; "c"; "rc"])))
         (Cat (Opt separator)
              (Opt (Group "pre_n" digits)))))).

Definition post_re : regex :=
  Opt (Group "post"
         (Alt (Cat (Lit "-") (Group "post_n1" digits))
              (Cat (Opt separator)
              (Cat (Group "post_l" (alts (map lit_ci ["post"; "rev"; "r"])))
              (Cat (Opt separator)
                   (Opt (Group "post_n2" digits))))))).

Definition dev_re : regex :=
  Opt (Group "dev"
         (Cat (Opt separator)
         (Cat (Group "dev_l" (lit_ci "dev"))
         (Cat (Opt separator)
              (Opt (Group "dev_n" digits)))))).

Definition local_re : regex :=
  Opt (Cat (Lit "+")
         (Group "local"
            (Cat (Plus (Chr alnum))
                 (Star (Cat separator (Plus (Chr alnum))))))).

(** What follows the release segment, up to the end of the text. *)
Definition suffix_re : regex :=
  Cat pre_re (Cat post_re (Cat dev_re (Cat local_re
    (Cat (Star (Chr is_space)) Dollar)))).

(** [Version._regex]: the pattern between [^\s*] and [\s*$].  [search]
    with a leading [^] and no MULTILINE is a match at the start. *)
Definition _regex : regex :=
  Cat (Star (Chr is_space))
  (Cat (Opt (lit_ci "v"))
  (Cat epoch_re
  (Cat release_re suffix_re))).

(** The named tuple [_Version]. *)
Record _Version := Build_Version {
  epoch : N;
  release : list N;
  dev : option (string * N);
  pre : option (string * N);
  post : option (string * N);
  local : option (list (N + string))
}.

(** A non-empty string is true, [None] and the empty string are false. *)
Definition truthy (s : option string) : bool :=
  match s with
  | Some (String _ _) => true
  | _ => false
  end.

Definition _parse_letter_version (letter number : option string)
    : option (option (string * N)) :=
  if truthy letter then
    let number := match number with None => "0" | Some n => n end in
    let letter := Py.lower (match letter with Some l => l | None => "" end) in
    let letter :=
      if String.eqb letter "alpha" then "a"
      else if String.eqb letter "beta" then "b"
      else if existsb (String.eqb letter) ["c"; "pre"; "preview"] then "rc"
      else if existsb (String.eqb letter) ["rev"; "r"] then "post"
      else letter in
    option_map (fun n => Some (letter, n)) (Py.int number)
  else if truthy number then
    option_map (fun n => Some ("post", n))
      (Py.int (match number with Some n => n | None => "" end))
  else Some None.

Definition _parse_local_version (local : option string)
    : option (option (list (N + string))) :=
  match local with
  | Some l =>
      option_map Some
        (Py.traverse
           (fun part =>
              if negb (Py.isdigit part) then Some (inr (Py.lower part))
              else option_map inl (Py.int part))
           (Py.split_on (one_of "._-") l))
  | None => Some None
  end.

(** [a or b] on optional strings. *)
Definition or_else (a b : option string) : option string :=
  if truthy a then a else b.

(** [Version.__init__]: [None] stands for [InvalidVersion] (and for the
    [ValueError] of an [int] call, which the pattern rules out). *)
Definition Version (version : string) : option _Version :=
  match re_match _regex version with
  | None => None
  | Some (_, m) =>
      match (if truthy (group "epoch" m)
             then Py.int (match group "epoch" m with Some e => e | None => "" end)
             else Some 0%N),
            Py.traverse Py.int
              (Py.split "."
                 (match group "release" m with Some r => r | None => "" end)),
            _parse_letter_version (group "pre_l" m) (group "pre_n" m),
            _parse_letter_version (group "post_l" m)
              (or_else (group "post_n1" m) (group "post_n2" m)),
            _parse_letter_version (group "dev_l" m) (group "dev_n" m),
            _parse_local_version (group "local" m)
      with
      | Some e, Some r, Some p, Some po, Some d, Some l =>
          Some (Build_Version e r d p po l)
      | _, _, _, _, _, _ => None
      end
  end.

Definition CmpKey : Type :=
  N * (list N *
       (bounded (string * N) *
        (bounded (string * N) *
         (bounded (string * N) * bounded (list (bounded N * string)))))).

Definition _cmpkey (epoch : N) (release : list N)
    (pre post dev : option (string * N))
    (local : option (list (N + string))) : CmpKey :=
  let _release := rev (Py.dropwhile (N.eqb 0) (rev release)) in
  let _pre :=
    match pre, post, dev with
    | None, None, Some _ => NegativeInfinity
    | None, _, _ => Infinity
    | Some p, _, _ => Fin p
    end in
  let _post := match post with None => NegativeInfinity | Some p => Fin p end in
  let _dev := match dev with None => Infinity | Some d => Fin d end in
  let _local :=
    match local with
    | None => NegativeInfinity
    | Some l =>
        Fin (map (fun i => match i with
                           | inl n => (Fin n, "")
                           | inr s => (NegativeInfinity, s)
                           end) l)
    end in
  (epoch, (_release, (_pre, (_post, (_dev, _local))))).

Definition _key (v : _Version) : CmpKey :=
  _cmpkey (epoch v) (release v) (pre v) (post v) (dev v) (local v).

#[global] Instance Version_Cmp : Cmp _Version :=
  fun a b => cmp (_key a) (_key b).

Definition is_prerelease (v : _Version) : bool :=
  match dev v, pre v with
  | None, None => false
  | _, _ => true
  end.

Definition base_version (v : _Version) : string :=
  (if N.eqb (epoch v) 0 then "" else Py.str (epoch v) ++ "!")
  ++ Py.join "." (map Py.str (release v)).

Definition local_str (l : list (N + string)) : string :=
  Py.join "." (map (fun x => match x with inl n => Py.str n | inr s => s end) l).

(** [Version.__str__]. *)
Definition __str__ (v : _Version) : string :=
  base_version v
  ++ match pre v with Some (l, n) => l ++ Py.str n | None => "" end
  ++ match post v with Some (_, n) => ".post" ++ Py.str n | None => "" end
  ++ match dev v with Some (_, n) => ".dev" ++ Py.str n | None => "" end
  ++ match local v with Some l => "+" ++ local_str l | None => "" end.

End Packaging.

(** * [packaging.specifiers], as far as the program uses it

    The items filtered are the program's own [Version] objects, on which
    [_coerce_version] is the identity; [coerce] projects an item to the
    library's view of it.  A [None] result stands for the
    [InvalidVersion] a specifier's version text could raise. *)

Module Specifiers.

Import Packaging.

Section Filter.

Context {V : Type} (coerce : V -> _Version).

(** [SpecifierSet.filter] of a set without specifiers. *)
Definition filter_unconstrained (prereleases : option bool)
    (iterable : list V) : list V :=
  let '(filtered, found_prereleases) :=
    fold_left
      (fun acc item =>
         let '(filtered, found) := acc in
         if is_prerelease (coerce item)
            && negb (match prereleases with Some b => b | None => false end)
         then match filtered with
              | [] => (filtered, (found ++ [item])%list)
              | _ => (filtered, found)
              end
         else ((filtered ++ [item])%list, found))
      iterable ([], []) in
  match filtered, found_prereleases, prereleases with
  | [], _ :: _, None => found_prereleases
  | _, _, _ => filtered
  end.

(** [Specifier._compare_less_than]. *)
Definition _compare_less_than (prospective : _Version) (spec_str : string)
    : option bool :=
  match Version spec_str with
  | None => None
  | Some spec =>
      if negb (ltb prospective spec) then Some false
      else if negb (is_prerelease spec) && is_prerelease prospective then
        match Version (base_version prospective),
              Version (base_version spec) with
        | Some p, Some s => Some (negb (eqb p s))
        | _, _ => None
        end
      else Some true
  end.

(** [Specifier.prereleases] of a [<] specifier made without the
    [prereleases] argument. *)
Definition less_than_prereleases : bool := false.

(** [Specifier.contains] for the operator [<]. *)
Definition contains (spec_str : string) (item : _Version)
    (prereleases : option bool) : option bool :=
  let prereleases :=
    match prereleases with Some b => b | None => less_than_prereleases end in
  if is_prerelease item && negb prereleases then Some false
  else _compare_less_than item spec_str.

(** [Specifier.filter] for the operator [<]. *)
Definition Specifier_filter (spec_str : string) (iterable : list V)
    (prereleases : option bool) : option (list V) :=
  let kw := match prereleases with Some b => b | None => true end in
  let step (acc : option (list V * list V)) (version : V) :=
    match acc with
    | None => None
    | Some (yielded, found) =>
        match contains spec_str (coerce version) (Some kw) with
        | None => None
        | Some false => Some (yielded, found)
        | Some true =>
            if is_prerelease (coerce version)
               && negb ((match prereleases with Some b => b | None => false end)
                        || less_than_prereleases)
            then Some (yielded, (found ++ [version])%list)
            else Some ((yielded ++ [version])%list, found)
        end
    end in
  match fold_left step iterable (Some ([], [])) with
  | None => None
  | Some ([], found) => Some found
  | Some (yielded, _) => Some yielded
  end.

(** [SpecifierSet("<" + spec_str).filter(iterable)]: the set holds the one
    specifier, its [prereleases] property is that of the specifier. *)
Definition filter_less_than (spec_str : string) (iterable : list V)
    : option (list V) :=
  Specifier_filter spec_str iterable (Some less_than_prereleases).

End Filter.

End Specifiers.

(** * Exceptions and results *)

Inductive exn_class :=
| ValueError
| InvalidVersion        (* packaging; derives from ValueError *)
| JSONDecodeError       (* derives from ValueError *)
| UnicodeDecodeError    (* derives from ValueError *)
| KeyError
| TypeError
| AttributeError
| OSError
| ConnectionError       (* requests; derives from OSError *)
| CalledProcessError.

Record exn := Exn { exn_cls : exn_class; exn_msg : string }.

(** What [except ValueError] catches. *)
Definition isinstance_ValueError (e : exn) : bool :=
  match exn_cls e with
  | ValueError | InvalidVersion | JSONDecodeError | UnicodeDecodeError => true
  | _ => false
  end.

Inductive result (A : Type) : Type :=
| Ok (a : A)
| Raise (e : exn).
Arguments Ok {A} a.
Arguments Raise {A} e.

Definition rbind {A B} (r : result A) (f : A -> result B) : result B :=
  match r with
  | Ok a => f a
  | Raise e => Raise e
  end.

Declare Scope result_scope.
Delimit Scope result_scope with result.
Notation "x <- r ;; k" := (rbind r (fun x => k))
  (at level 61, r at next level, right associativity) : result_scope.

(** [sorted] and [max] on a list. *)
Module Builtins.

Section Sorting.
Context {A : Type} `{Cmp A}.

Fixpoint insert (x : A) (l : list A) : list A :=
  match l with
  | [] => [x]
  | y :: l' => if ltb x y then x :: l else y :: insert x l'
  end.

(** A stable sort that uses only [<], as [sorted] does. *)
Definition sorted (l : list A) : list A :=
  fold_left (fun acc x => insert x acc) l [].

(** [max] keeps the first of the largest items and raises
    [ValueError] on an empty argument. *)
Definition max (l : list A) : result A :=
  match l with
  | [] => Raise (Exn ValueError "max() arg is an empty sequence")
  | x :: l' => Ok (fold_left (fun m y => if gtb y m then y else m) l' x)
  end.
End Sorting.

End Builtins.

(** * The program *)

Definition PRERELEASES : bool := false.

(** ** class [Version] *)

Module Version.

Record t := Build {
  _version : Packaging._Version;
  raw_version : string
}.

Definition __init__ (version : string) : result t :=
  match Packaging.Version version with
  | Some v => Ok (Build v version)
  | None => Raise (Exn InvalidVersion ("Invalid version: '" ++ version ++ "'"))
  end.

Definition __len__ (self : t) : nat :=
  List.length (Packaging.release (_version self)).

(** [self[start:stop]], the only form of [__getitem__] the program uses. *)
Definition __getitem__ (self : t) (start stop : nat) : list N :=
  firstn (stop - start) (skipn start (Packaging.release (_version self))).

#[global] Instance t_Cmp : Cmp t := fun a b => cmp (_version a) (_version b).

End Version.

Definition SEMVER : list (string * nat) :=
  [("major", 0); ("minor", 1); ("patch", 2)].

Fixpoint dict_get {A} (d : list (string * A)) (key : string) : result A :=
  match d with
  | [] => Raise (Exn KeyError key)
  | (k, v) :: d' => if String.eqb k key then Ok v else dict_get d' key
  end.

(** [ceiling[-1] += 1] on a non-empty list. *)
Fixpoint incr_last (l : list N) : list N :=
  match l with
  | [] => []
  | [x] => [(x + 1)%N]
  | x :: l' => x :: incr_last l'
  end.

Definition _parse_versions (versions : list string) : list Version.t :=
  flat_map (fun v => match Version.__init__ v with
                     | Ok x => [x]
                     | Raise _ => []
                     end) versions.

Definition lift_invalid {A} (o : option A) : result A :=
  match o with
  | Some a => Ok a
  | None => Raise (Exn InvalidVersion "Invalid version")
  end.

Open Scope result_scope.

Definition _determine_latest_version (current_version target : string)
    (versions : list string) : result string :=
  current_version <- Version.__init__ current_version ;;
  let versions := _parse_versions versions in
  index <- dict_get SEMVER target ;;
  let ceiling := Version.__getitem__ current_version 0 index in
  ceiling <- match ceiling with
             | [] => Ok None
             | _ =>
                 c <- Version.__init__
                        (Py.join "." (map Py.str (incr_last ceiling))) ;;
                 Ok (Some c)
             end ;;
  let versions :=
    Specifiers.filter_unconstrained Version._version (Some PRERELEASES)
      versions in
  versions <- match ceiling with
              | None => Ok versions
              | Some c =>
                  lift_invalid
                    (Specifiers.filter_less_than Version._version
                       (Packaging.__str__ (Version._version c)) versions)
              end ;;
  v <- Builtins.max (Builtins.sorted versions) ;;
  Ok (Version.raw_version v).

Close Scope result_scope.

(** ** Attribute extraction *)

Definition dquote : string := String (ascii_of_nat 34) EmptyString.

(** [format] splices the attribute name into the pattern text.  The
    embedding takes the name literally, which is what [re.compile] makes
    of a name free of regular-expression metacharacters ([plain_name]);
    the program passes only [pname] and [version]. *)
Definition metachar : ascii -> bool := one_of ".^$*+?{}[]\|()".

Definition plain_name (attribute : string) : bool :=
  Py.string_forallb (fun a => negb (metachar a)) attribute.

(** The pattern: the name, [\s+], an equals sign, [\s+], a double quote,
    a group holding a greedy run of any characters but newline, a double
    quote and a semicolon. *)
Definition attribute_regex (attribute : string) : regex :=
  Cat (Lit attribute)
   (Cat (Plus (Chr is_space))
    (Cat (Lit "=")
     (Cat (Plus (Chr is_space))
      (Cat (Lit dquote)
       (Cat (Group "1" (Star (Chr not_newline)))
        (Lit (dquote ++ ";"))))))).

Definition _get_values (attribute text : string) : list string :=
  findall (attribute_regex attribute) text.

Definition _get_unique_value (attribute text : string) : result string :=
  let values := _get_values attribute text in
  let n := List.length values in
  if Nat.ltb 1 n then
    Raise (Exn ValueError ("found too many values for " ++ attribute))
  else if Nat.eqb n 1 then
    Ok (hd "" values)
  else
    Raise (Exn ValueError ("no value found for " ++ attribute)).

(** ** The world outside the program

    The file system, the registry, and the shell are collaborators: the
    program reads them and they can raise.  What the program does to the
    outside (log records, report lines, requests, commands) is kept as a
    trace of events. *)

Inductive json :=
| JNull
| JBool (b : bool)
| JNumber (n : N)
| JString (s : string)
| JArray (items : list json)
| JObject (members : list (string * json)).

Record response := Response {
  status_code : nat;
  response_json : result json       (* [r.json()] *)
}.

Record world := World {
  isdir : string -> bool;
  isfile : string -> bool;
  read_text : string -> result string;        (* [open(path).read()] *)
  requests_get : string -> result response;
  check_output : string -> result string      (* shell command to its output *)
}.

Inductive event :=
| LogInfo (msg : string)
| LogWarning (msg : string)
| Print (line : string)
| HttpGet (url : string)
| Exec (cmd : string).

Definition M (A : Type) : Type := world -> result A * list event.

Definition ret {A} (a : A) : M A := fun _ => (Ok a, []).
Definition raise {A} (e : exn) : M A := fun _ => (Raise e, []).
Definition lift {A} (r : result A) : M A := fun _ => (r, []).
Definition emit (ev : event) : M unit := fun _ => (Ok tt, [ev]).
Definition ask {A} (f : world -> result A) : M A := fun w => (f w, []).

Definition bind {A B} (m : M A) (f : A -> M B) : M B :=
  fun w =>
    match m w with
    | (Ok a, t) => let (r, t') := f a w in (r, (t ++ t')%list)
    | (Raise e, t) => (Raise e, t)
    end.

(** [try: body  except ValueError as e: handler]. *)
Definition try_except_ValueError {A} (body : M A) (handler : exn -> M A)
    : M A :=
  fun w =>
    match body w with
    | (Raise e, t) =>
        if isinstance_ValueError e
        then let (r, t') := handler e w in (r, (t ++ t')%list)
        else (Raise e, t)
    | ok => ok
    end.

Declare Scope M_scope.
Delimit Scope M_scope with M.
Notation "x <- m ;; k" := (bind m (fun x => k))
  (at level 61, m at next level, right associativity) : M_scope.
Notation "m ;; k" := (bind m (fun _ => k))
  (at level 61, right associativity) : M_scope.
Open Scope M_scope.

Definition INDEX : string := "https://pypi.io/pypi".
Definition PYPI_PACKAGE_URL : string := "https://pypi.org/project".

Definition _fetch_page (url : string) : M json :=
  emit (HttpGet url) ;;
  r <- ask (fun w => requests_get w url) ;;
  if Nat.eqb (status_code r) 200 then lift (response_json r)
  else raise (Exn ValueError ("request for " ++ url ++ " failed")).

(** Subscripting and [.keys()] on a decoded JSON value. *)
Definition json_getitem (j : json) (key : string) : result json :=
  match j with
  | JObject members => dict_get members key
  | _ => Raise (Exn TypeError "object is not subscriptable by str")
  end.

Definition json_keys (j : json) : result (list string) :=
  match j with
  | JObject members => Ok (map fst members)
  | _ => Raise (Exn AttributeError "object has no attribute 'keys'")
  end.

Definition _check_pypi (package current_version target : string) : M string :=
  let json_url := INDEX ++ "/" ++ package ++ "/json" in
  json <- _fetch_page json_url ;;
  releases <- lift (json_getitem json "releases") ;;
  versions <- lift (json_keys releases) ;;
  version <- lift (_determine_latest_version current_version target versions) ;;
  match json_getitem releases version with
  | Ok _ => ret version
  | Raise e =>
      match exn_cls e with
      | KeyError =>
          raise (Exn KeyError
                   ("Could not find version " ++ version ++ " for " ++ package))
      | _ => raise e
      end
  end.

(** [str.rstrip()] and [str.endswith]. *)
Definition rev_string (s : string) : string :=
  string_of_list_ascii (rev (list_ascii_of_string s)).

Definition rstrip (s : string) : string :=
  string_of_list_ascii
    (rev (Py.dropwhile is_space (rev (list_ascii_of_string s)))).

Definition endswith (s suffix : string) : bool :=
  String.prefix (rev_string suffix) (rev_string s).

(** [os.path.join(path, name)] for a relative [name]. *)
Definition path_join (path name : string) : string :=
  if String.eqb path "" || endswith path "/" then path ++ name
  else path ++ "/" ++ name.

(** The result is [Some false] for [return False] and [None] when the
    function falls off its end after printing. *)
Definition _print_new_version (path target drv_name_path : string)
    : M (option bool) :=
  text <- ask (fun w => read_text w path) ;;
  pname <- lift (_get_unique_value "pname" text) ;;
  version <- lift (_get_unique_value "version" text) ;;
  new_version <- _check_pypi pname version target ;;
  let package_url := PYPI_PACKAGE_URL ++ "/" ++ pname ++ "/" in
  if String.eqb new_version version then
    emit (LogInfo ("Path " ++ path ++ ": already at latest version for: "
                   ++ pname ++ ".")) ;;
    ret (Some false)
  else
    new <- lift (Version.__init__ new_version) ;;
    old <- lift (Version.__init__ version) ;;
    if leb new old then
      raise (Exn ValueError ("downgrade for " ++ pname ++ "."))
    else
      let cmd := "cat -- " ++ drv_name_path ++ " | grep " ++ pname ++ "-"
                 ++ version ++ " | grep -v python2 | head -1" in
      emit (Exec cmd) ;;
      drv_name_bytes <- ask (fun w => check_output w cmd) ;;
      let drv_name := rstrip drv_name_bytes in
      let drv_name := Py.join "-" (removelast (Py.split "-" drv_name)) in
      if Nat.eqb (String.length drv_name) 0 then ret (Some false)
      else
        emit (Print (drv_name ++ " " ++ version ++ " " ++ new_version ++ " "
                     ++ package_url)) ;;
        ret None.

Definition _update (path target drv_name_path : string) : M bool :=
  fun w =>
    let path := if isdir w path then path_join path "default.nix" else path in
    (if negb (isfile w path) then
       emit (LogInfo ("Path " ++ path ++ ": does not exist.")) ;;
       ret false
     else if negb (endswith path ".nix") then
       emit (LogInfo ("Path " ++ path ++ ": does not end with `.nix`.")) ;;
       ret false
     else
       try_except_ValueError
         (_print_new_version path target drv_name_path ;; ret true)
         (fun e =>
            emit (LogWarning ("Path " ++ path ++ ": " ++ exn_msg e)) ;;
            ret false)) w.

(** [list(p.map(f, packages))]: the results in input order; the first
    exception, in input order, is re-raised when its result is reached,
    and the results after it are lost.  The tasks share nothing but the
    read-only world, so the embedding runs them one after the other and
    keeps their events in input order.  Of the tasks behind a raising one
    the pool lets those already started finish and cancels the others;
    the embedding records none of their events. *)
Fixpoint pool_map {A B} (f : A -> M B) (l : list A) : M (list B) :=
  match l with
  | [] => ret []
  | x :: l' =>
      y <- f x ;;
      ys <- pool_map f l' ;;
      ret (y :: ys)
  end.

(** [main] from the point where [packages] is known (line 268 on):
    the batch and its summary.  Returning [Ok] is exit status 0, an
    exception that reaches the top is a traceback and a non-zero status. *)
Definition main (packages : list string) (target drv_name_path : string)
    : M unit :=
  emit (LogInfo "Updating packages...") ;;
  results <- pool_map (fun pkg => _update pkg target drv_name_path) packages ;;
  emit (LogInfo "Finished updating packages.") ;;
  let count :=
    fold_left Nat.add (map Nat.b2n (filter (fun b : bool => b) results)) 0 in
  emit (LogInfo ("Checked " ++ Py.str (N.of_nat (List.length results))
                 ++ " packages, " ++ Py.str (N.of_nat count) ++ " updated")) ;;
  emit (LogInfo
          "########## END OF NIXPKGS_UPDATE_PYPI_RELEASES ##########").

Close Scope M_scope.

(** * Notions used by the statements *)

(** The loop of [Star] with fuel [n]. *)
Definition star_loop {R : Type} (r : regex)
    (k : string -> captures -> option R)
    : nat -> string -> captures -> option R :=
  fix loop (n : nat) (s : string) (c : captures) {struct n} :=
    match n with
    | O => k s c
    | S n' =>
        match run r s c
                (fun s' c' =>
                   if Nat.ltb (String.length s') (String.length s)
                   then loop n' s' c' else None)
        with
        | Some x => Some x
        | None => k s c
        end
    end.

(** [s'] is what is left of [s] after some prefix. *)
Definition is_suffix (s' s : string) : Prop := exists pre, s = pre ++ s'.

(** The first character decides for a class. *)
Definition starts_outside (p : ascii -> bool) (s : string) : Prop :=
  match s with
  | EmptyString => True
  | String a _ => p a = false
  end.

(** [".".join] of non-empty pieces: the first piece, then each further
    piece behind a dot. *)
Fixpoint dots (l : list string) : string :=
  match l with
  | [] => ""
  | d :: l' => "." ++ d ++ dots l'
  end.

Definition digit_string (d : string) : Prop :=
  Py.string_forallb is_digit d = true /\ d <> "".

Definition dotted (a : ascii) : bool := is_digit a || Ascii.eqb a ".".

Definition release_only (l : list N) : Packaging._Version :=
  Packaging.Build_Version 0 l None None None None.

Definition final (v : Version.t) : bool :=
  negb (Packaging.is_prerelease (Version._version v)).

Definition known (versions : list string) (v : Version.t) : Prop :=
  In (Version.raw_version v) versions
  /\ Version.__init__ (Version.raw_version v) = Ok v.

(** Spec side: zero padding to a common length, then lexicographic. *)
Definition pad (n : nat) (l : list N) : list N :=
  (l ++ repeat 0%N (n - List.length l))%list.

Definition padded_cmp (a b : list N) : comparison :=
  let n := Nat.max (List.length a) (List.length b) in
  cmp (pad n a) (pad n b).

(** The same comparison by recursion. *)
Fixpoint zeros_cmp (b : list N) : comparison :=
  match b with
  | [] => Eq
  | y :: b' => lex (cmp 0%N y) (zeros_cmp b')
  end.

Fixpoint pcmp (a b : list N) : comparison :=
  match a with
  | [] => zeros_cmp b
  | x :: a' =>
      match b with
      | [] => lex (cmp x 0%N) (pcmp a' [])
      | y :: b' => lex (cmp x y) (pcmp a' b')
      end
  end.

(** [_release] of [_cmpkey]. *)
Definition strip (l : list N) : list N :=
  rev (Py.dropwhile (N.eqb 0) (rev l)).

(** What the resolver may return under a ceiling (or none). *)
Definition eligible (ceiling : option Packaging._Version) (v : Version.t)
    : Prop :=
  final v = true
  /\ match ceiling with
     | None => True
     | Some c => ltb (Version._version v) c = true
     end.

Definition eligibleb (ceiling : option Packaging._Version) (v : Version.t)
    : bool :=
  final v && match ceiling with
             | None => true
             | Some c => ltb (Version._version v) c
             end.

(** Strictly below the ceiling, whatever kind of release. *)
Definition below (c : Packaging._Version) (v : Version.t) : Prop :=
  ltb (Version._version v) c = true.

(** [r] is the text of a known version that has [P] and that no known
    version with [P] exceeds. *)
Definition is_maximum (P : Version.t -> Prop) (versions : list string)
    (r : string) : Prop :=
  exists v, known versions v /\ Version.raw_version v = r /\ P v
            /\ forall w, known versions w -> P w -> leb w v = true.

(** The ceiling of the resolver: the release prefix with its last
    element raised, as a version. *)
Definition ceiling_of (cv : Version.t) (index : nat) : Packaging._Version :=
  release_only
    (incr_last (firstn index (Packaging.release (Version._version cv)))).

Definition candidates (cv : Version.t) (index : nat)
    (versions : list string) : list Version.t :=
  filter
    (eligibleb
       (match firstn index (Packaging.release (Version._version cv)) with
        | [] => None
        | _ => Some (ceiling_of cv index)
        end))
    (_parse_versions versions).

Definition parses (s : string) : bool :=
  match Packaging.Version s with Some _ => true | None => false end.

Definition major_of (v : Version.t) : N :=
  hd 0%N (Packaging.release (Version._version v)).

(** The part of the comparison key behind the release: the keys of the
    pre, post, dev and local segments. *)
Definition segments_key (v : Packaging._Version)
    : bounded (string * N)
      * (bounded (string * N)
         * (bounded (string * N) * bounded (list (bounded N * string)))) :=
  snd (snd (Packaging._key v)).

(** A declaration as it stands in a Nix expression: name, blank, equals
    sign, blank, quoted value, semicolon. *)
Definition declaration (attribute value : string) : string :=
  attribute ++ " = " ++ dquote ++ value ++ dquote ++ ";".

Definition newline : string := String (ascii_of_nat 10) EmptyString.

(** White space: a non-empty run of [\s] characters. *)
Definition blank (ws : string) : Prop :=
  ws <> "" /\ Py.string_forallb is_space ws = true.

(** A registry answer listing [versions], each without files. *)
Definition registry_reply (versions : list string) : response :=
  Response 200
    (Ok (JObject
           [("releases", JObject (map (fun v => (v, JArray [])) versions))])).

(** A Nix expression declaring [pname] and [version], one per line. *)
Definition expression (pname version : string) : string :=
  declaration "pname" pname ++ newline
  ++ declaration "version" version ++ newline.

(** A world holding one expression file at [path]. *)
Definition one_file_world (path text : string) (reply : result response)
    (inventory : string) : world :=
  {| isdir := fun _ => false;
     isfile := fun p => String.eqb p path;
     read_text := fun _ => Ok text;
     requests_get := fun _ => reply;
     check_output := fun _ => Ok inventory |}.

(** Two packages; the registry cannot be reached for the first. *)
Definition unreachable_world : world :=
  {| isdir := fun _ => false;
     isfile := fun _ => true;
     read_text := fun p =>
       if String.eqb p "/pkgs/foo.nix" then Ok (expression "foo" "1.0.0")
       else Ok (expression "bar" "1.0.0");
     requests_get := fun url =>
       if String.eqb url "https://pypi.io/pypi/foo/json"
       then Raise (Exn ConnectionError "Max retries exceeded")
       else Ok (registry_reply ["1.0.0"; "1.1.0"]);
     check_output := fun _ => Ok ("bar-1.0.0" ++ newline) |}.

(** The collaborators raise nothing but [ValueError]s, and a successful
    registry answer is an object with a [releases] object. *)
Definition only_value_errors (w : world) : Prop :=
  (forall p e, read_text w p = Raise e -> isinstance_ValueError e = true)
  /\ (forall u e, requests_get w u = Raise e -> isinstance_ValueError e = true)
  /\ (forall u r e, requests_get w u = Ok r -> response_json r = Raise e ->
                    isinstance_ValueError e = true)
  /\ (forall u r j, requests_get w u = Ok r -> status_code r = 200 ->
                    response_json r = Ok j ->
                    exists members rel,
                      j = JObject members
                      /\ dict_get members "releases" = Ok (JObject rel))
  /\ (forall c e, check_output w c = Raise e -> isinstance_ValueError e = true).

(** A computation that, in world [w], raises nothing but [ValueError]s. *)
Definition safe {A} (m : M A) (w : world) : Prop :=
  forall e t, m w = (Raise e, t) -> isinstance_ValueError e = true.

Definition inventory_command (drv_name_path pname version : string) : string :=
  "cat -- " ++ drv_name_path ++ " | grep " ++ pname ++ "-" ++ version
  ++ " | grep -v python2 | head -1".

(** * Further functions and notions *)

(** The upper bound the resolver works with: none for an empty release
    prefix, else the prefix with its last element raised. *)
Definition ceiling_for (cv : Version.t) (index : nat)
    : option Packaging._Version :=
  match firstn index (Packaging.release (Version._version cv)) with
  | [] => None
  | _ => Some (ceiling_of cv index)
  end.

(** The version of [r] is at most that of [r'] in the version ordering. *)
Definition version_le (r r' : string) : Prop :=
  exists v v', Version.__init__ r = Ok v /\ Version.__init__ r' = Ok v'
               /\ leb v v' = true.

(** The versions of [r] and [r'] are equal in the version ordering. *)
Definition version_eq (r r' : string) : Prop :=
  exists v v', Version.__init__ r = Ok v /\ Version.__init__ r' = Ok v'
               /\ cmp v v' = Eq.

(** The request [_check_pypi] makes for a package. *)
Definition json_url (package : string) : string :=
  INDEX ++ "/" ++ package ++ "/json".

(** The number of report lines in a trace. *)
Definition is_report (ev : event) : bool :=
  match ev with Print _ => true | _ => false end.

Definition reports (t : list event) : nat := List.length (filter is_report t).

(** The number of [True]s among the results. *)
Definition updated (results : list bool) : nat :=
  List.length (filter (fun b : bool => b) results).

(** The file [_update] works on: [default.nix] inside a directory. *)
Definition expression_path (w : world) (path : string) : string :=
  if isdir w path then path_join path "default.nix" else path.

(** A character that is neither white space nor a dash. *)
Definition version_char (a : ascii) : bool :=
  negb (is_space a) && negb (Ascii.eqb "-" a).

(** The project page printed for a package. *)
Definition package_url (pname : string) : string :=
  PYPI_PACKAGE_URL ++ "/" ++ pname ++ "/".

(** A line of a Nix expression that declares the attribute: white space,
    then a run of characters that are none (a longer name of which the
    attribute is the end, often empty), then the declaration. *)
Record line := Line {
  line_indent : string;
  line_qualifier : string;
  line_value : string
}.

Definition no_space (a : ascii) : bool := negb (is_space a).

Definition line_text (attribute : string) (l : line) : string :=
  line_indent l ++ line_qualifier l
  ++ declaration attribute (line_value l) ++ newline.

Fixpoint lines_text (attribute : string) (ls : list line) : string :=
  match ls with
  | [] => ""
  | l :: ls' => line_text attribute l ++ lines_text attribute ls'
  end.

Definition well_formed (l : line) : Prop :=
  Py.string_forallb is_space (line_indent l) = true
  /\ Py.string_forallb no_space (line_qualifier l) = true
  /\ Py.string_forallb not_newline (line_value l) = true.

(** A name as the program passes it: not empty, no white space. *)
Definition attribute_name (attribute : string) : Prop :=
  attribute <> "" /\ Py.string_forallb no_space attribute = true.

(** [pattern.findall(s)] for a pattern with exactly two groups, named
    ["1"] and ["2"] here: the list of the pairs of their texts. *)
Definition findall2 (r : regex) (s : string) : list (string * string) :=
  map (fun c => (match group "1" c with Some v => v | None => "" end,
                 match group "2" c with Some v => v | None => "" end))
      (scan r s 0).

(** The pattern of [_get_line_and_value]: that of [_get_values] inside a
    group of its own. *)
Definition line_regex (attribute : string) : regex :=
  Group "1"
   (Cat (Lit attribute)
    (Cat (Plus (Chr is_space))
     (Cat (Lit "=")
      (Cat (Plus (Chr is_space))
       (Cat (Lit dquote)
        (Cat (Group "2" (Star (Chr not_newline)))
         (Lit (dquote ++ ";")))))))).

Definition _get_line_and_value (attribute text : string)
    : result (string * string) :=
  let value := findall2 (line_regex attribute) text in
  let n := List.length value in
  if Nat.ltb 1 n then
    Raise (Exn ValueError ("found too many values for " ++ attribute))
  else if Nat.eqb n 1 then
    Ok (hd ("", "") value)
  else
    Raise (Exn ValueError ("no value found for " ++ attribute)).

(** A pattern with its groups renamed, and the same for what was
    captured. *)
Fixpoint rename (f : string -> string) (r : regex) : regex :=
  match r with
  | Eps => Eps
  | Chr p => Chr p
  | Lit l => Lit l
  | Cat r1 r2 => Cat (rename f r1) (rename f r2)
  | Alt r1 r2 => Alt (rename f r1) (rename f r2)
  | Star r' => Star (rename f r')
  | Group name r' => Group (f name) (rename f r')
  | Dollar => Dollar
  end.

Definition rename_captures (f : string -> string) (c : captures) : captures :=
  map (fun nv => (f (fst nv), snd nv)) c.

Definition second_group (name : string) : string :=
  if String.eqb name "1" then "2" else name.

(** ** The package list

    [posixpath] as its pure-Python definitions have it; paths are texts
    without NUL. *)

Module Posixpath.

Definition isabs (s : string) : bool := String.prefix "/" s.

(** [sep * n]. *)
Fixpoint times (n : nat) (s : string) : string :=
  match n with
  | O => ""
  | S n' => s ++ times n' s
  end.

(** POSIX allows one or two initial slashes, and treats three or more as
    a single one. *)
Definition initial_slashes (path : string) : nat :=
  if String.prefix "/" path then
    if String.prefix "//" path && negb (String.prefix "///" path) then 2
    else 1
  else 0.

Definition is_empty {A} (l : list A) : bool :=
  match l with [] => true | _ => false end.

(** One round of the loop over the components. *)
Definition normpath_step (slashes : nat) (new_comps : list string)
    (comp : string) : list string :=
  if String.eqb comp "" || String.eqb comp "." then new_comps
  else if negb (String.eqb comp "..")
          || (Nat.eqb slashes 0 && is_empty new_comps)
          || (negb (is_empty new_comps)
              && String.eqb (last new_comps "") "..")
       then (new_comps ++ [comp])%list
       else removelast new_comps.

Definition normpath (path : string) : string :=
  if String.eqb path "" then "."
  else
    let slashes := initial_slashes path in
    let comps := fold_left (normpath_step slashes) (Py.split "/" path) [] in
    let path := times slashes "/" ++ Py.join "/" comps in
    if String.eqb path "" then "." else path.

(** [abspath], with the working directory as [os.getcwd] gives it. *)
Definition abspath (cwd path : string) : string :=
  normpath (if isabs path then path else path_join cwd path).

End Posixpath.

(** [str.split()] without separator: the pieces between white space,
    the empty ones left out. *)
Definition split_whitespace (s : string) : list string :=
  filter (fun x => negb (String.eqb x "")) (Py.split_on is_space s).

(** Where the process was started: whether standard input is a terminal,
    what can be read from it, and the working directory. *)
Record terminal := Terminal {
  isatty : bool;
  stdin_read : string;
  getcwd : string
}.

(** [None] stands for the [AssertionError] of an empty list. *)
Definition create_package_list (t : terminal) (initial_packages : list string)
    : option (list string) * list event :=
  let packages := initial_packages in
  let '(packages, log) :=
    if negb (isatty t) then
      ((packages ++ split_whitespace (stdin_read t))%list,
       [LogInfo "Creating pypi package list";
        LogInfo "Reading package paths from stdin"])
    else (packages, [LogInfo "Creating pypi package list"]) in
  if Nat.ltb 0 (List.length packages) then
    (Some (map (Posixpath.abspath (getcwd t)) packages), log)
  else (None, log).

(** A component as [normpath] leaves it: not empty, not a dot, not two
    dots, no slash. *)
Definition plain_component (c : string) : Prop :=
  c <> "" /\ c <> "." /\ c <> ".."
  /\ Py.string_forallb (fun a => negb (Ascii.eqb "/" a)) c = true.

(** An absolute path in normal form: one or two slashes, then plain
    components with one slash between them. *)
Definition normal_absolute (path : string) : Prop :=
  exists slashes comps,
    (slashes = 1 \/ slashes = 2)
    /\ Forall plain_component comps
    /\ path = Posixpath.times slashes "/" ++ Py.join "/" comps.

(** A component without slash. *)
Definition sep_free (c : string) : Prop :=
  Py.string_forallb (fun a => negb (Ascii.eqb "/" a)) c = true.

(** The words read from standard input, none when it is a terminal. *)
Definition stdin_words (t : terminal) : list string :=
  if isatty t then [] else split_whitespace (stdin_read t).

(** * Properties *)

(** * Laws of the comparison *)

Module OrderFacts.

Lemma lex_eq (c d : comparison) : lex c d = Eq <-> c = Eq /\ d = Eq.
Proof. destruct c; simpl; intuition congruence. Qed.

Lemma lex_opp (c d : comparison) :
  CompOpp (lex c d) = lex (CompOpp c) (CompOpp d).
Proof. destruct c; reflexivity. Qed.

Lemma lex_lt (c d : comparison) :
  lex c d = Lt <-> c = Lt \/ (c = Eq /\ d = Lt).
Proof. destruct c; simpl; intuition congruence. Qed.

Section Derived.
Context {A : Type} `{CmpLaws A}.

Lemma cmp_refl (x : A) : cmp x x = Eq.
Proof. now apply cmp_eq. Qed.

Lemma cmp_gt_lt (x y : A) : cmp x y = Gt <-> cmp y x = Lt.
Proof.
  rewrite (cmp_antisym x y). destruct (cmp x y); simpl; intuition congruence.
Qed.

Lemma leb_refl (x : A) : leb x x = true.
Proof. unfold leb. now rewrite cmp_refl. Qed.

Lemma leb_trans (x y z : A) :
  leb x y = true -> leb y z = true -> leb x z = true.
Proof.
  unfold leb. intros Hxy Hyz.
  destruct (cmp x y) eqn:Exy; try discriminate.
  - apply cmp_eq in Exy. now subst.
  - destruct (cmp y z) eqn:Eyz; try discriminate.
    + apply cmp_eq in Eyz. subst. now rewrite Exy.
    + now rewrite (cmp_trans x y z Exy Eyz).
Qed.

Lemma leb_total (x y : A) : leb x y = true \/ leb y x = true.
Proof.
  unfold leb. rewrite (cmp_antisym x y).
  destruct (cmp x y); simpl; auto.
Qed.

Lemma gtb_false_leb (x y : A) : gtb x y = false <-> leb x y = true.
Proof. unfold gtb, leb. destruct (cmp x y); intuition congruence. Qed.

Lemma gtb_true_leb (x y : A) : gtb x y = true -> leb y x = true.
Proof.
  unfold gtb, leb. rewrite (cmp_antisym x y).
  destruct (cmp x y); simpl; congruence.
Qed.

Lemma ltb_leb (x y : A) : ltb x y = true -> leb x y = true.
Proof. unfold ltb, leb. destruct (cmp x y); congruence. Qed.

Lemma ltb_leb_trans (x y z : A) :
  leb x y = true -> ltb y z = true -> ltb x z = true.
Proof.
  unfold leb, ltb. intros Hxy Hyz.
  destruct (cmp y z) eqn:Eyz; try discriminate.
  destruct (cmp x y) eqn:Exy; try discriminate.
  - apply cmp_eq in Exy. subst. now rewrite Eyz.
  - now rewrite (cmp_trans x y z Exy Eyz).
Qed.
End Derived.

#[global] Instance N_CmpLaws : CmpLaws N.
Proof.
  split; unfold cmp, N_Cmp.
  - apply N.compare_eq_iff.
  - intros x y. apply N.compare_antisym.
  - intros x y z. rewrite !N.compare_lt_iff. lia.
Qed.

Lemma ascii_compare_refl (a : ascii) : Ascii.compare a a = Eq.
Proof. unfold Ascii.compare. apply N.compare_refl. Qed.

Lemma string_compare_refl (s : string) : String.compare s s = Eq.
Proof. induction s; simpl; [reflexivity|]. now rewrite ascii_compare_refl. Qed.

Lemma string_compare_trans (x y z : string) :
  String.compare x y = Lt -> String.compare y z = Lt -> String.compare x z = Lt.
Proof.
  revert y z. induction x as [|a x IH]; intros [|b y] [|c z]; simpl;
    try congruence.
  unfold Ascii.compare.
  destruct (N.compare (N_of_ascii a) (N_of_ascii b)) eqn:Eab; try discriminate;
  destruct (N.compare (N_of_ascii b) (N_of_ascii c)) eqn:Ebc; try discriminate;
  intros Hxy Hyz.
  - apply N.compare_eq_iff in Eab, Ebc. rewrite Eab, Ebc, N.compare_refl.
    eauto.
  - apply N.compare_eq_iff in Eab. now rewrite Eab, Ebc.
  - apply N.compare_eq_iff in Ebc. now rewrite <- Ebc, Eab.
  - rewrite N.compare_lt_iff in Eab, Ebc.
    assert (E : N.compare (N_of_ascii a) (N_of_ascii c) = Lt)
      by (apply N.compare_lt_iff; lia).
    now rewrite E.
Qed.

#[global] Instance string_CmpLaws : CmpLaws string.
Proof.
  split; unfold cmp, string_Cmp.
  - intros x y. split.
    + apply String.compare_eq_iff.
    + intros ->. apply string_compare_refl.
  - intros x y. apply String.compare_antisym.
  - apply string_compare_trans.
Qed.

#[global] Instance pair_CmpLaws {A B} `{CmpLaws A} `{CmpLaws B} : CmpLaws (A * B).
Proof.
  split; unfold cmp, pair_Cmp.
  - intros [a b] [a' b']; simpl. rewrite lex_eq, !cmp_eq.
    split; [intros [-> ->]; reflexivity | intros [= -> ->]; auto].
  - intros [a b] [a' b']; simpl.
    rewrite lex_opp. now rewrite (cmp_antisym a a'), (cmp_antisym b b').
  - intros [a b] [a' b'] [a'' b'']; simpl. rewrite !lex_lt.
    intros [L1|[E1 L1]] [L2|[E2 L2]].
    + left. eapply cmp_trans; eauto.
    + apply cmp_eq in E2. subst. now left.
    + apply cmp_eq in E1. subst. now left.
    + apply cmp_eq in E1, E2. subst. right. split; [apply cmp_refl|].
      eapply cmp_trans; eauto.
Qed.

#[global] Instance list_CmpLaws {A} `{CmpLaws A} : CmpLaws (list A).
Proof.
  split; unfold cmp, list_Cmp.
  - induction x as [|a x IH]; intros [|b y]; simpl;
      try (split; congruence).
    rewrite lex_eq, cmp_eq, IH.
    split; [intros [-> ->]; reflexivity | intros [= -> ->]; auto].
  - induction x as [|a x IH]; intros [|b y]; simpl; try reflexivity.
    now rewrite lex_opp, (cmp_antisym a b), IH.
  - induction x as [|a x IH]; intros [|b y] [|c z]; simpl; try congruence.
    rewrite !lex_lt.
    intros [L1|[E1 L1]] [L2|[E2 L2]].
    + left. eapply cmp_trans; eauto.
    + apply cmp_eq in E2. subst. now left.
    + apply cmp_eq in E1. subst. now left.
    + apply cmp_eq in E1, E2. subst. right. split; [apply cmp_refl|].
      eapply IH; eauto.
Qed.

#[global] Instance bounded_CmpLaws {A} `{CmpLaws A} : CmpLaws (bounded A).
Proof.
  split; unfold cmp, bounded_Cmp.
  - intros [|a|] [|b|]; try (split; congruence).
    fold (cmp a b). rewrite cmp_eq. split; congruence.
  - intros [|a|] [|b|]; try reflexivity. apply cmp_antisym.
  - intros [|a|] [|b|] [|c|]; try congruence. apply cmp_trans.
Qed.

#[global] Instance CmpKey_CmpLaws : CmpLaws Packaging.CmpKey.
Proof. unfold Packaging.CmpKey. typeclasses eauto. Qed.

End OrderFacts.
Import OrderFacts.

Module ReFacts.

Section Run.
Context {R : Type}.
Implicit Types (k : string -> captures -> option R).

(** The matcher depends on its continuation pointwise. *)
Lemma run_ext (r : regex) : forall s c k k',
  (forall s' c', k s' c' = k' s' c') -> run r s c k = run r s c k'.
Proof.
  induction r as [|p|l|r1 IH1 r2 IH2|r1 IH1 r2 IH2|r IH|name r IH|];
    intros s c k k' E; simpl.
  - apply E.
  - destruct s as [|a s']; [reflexivity|]. destruct (p a); auto.
  - destruct (strip_prefix l s); auto.
  - apply IH1. intros. now apply IH2.
  - rewrite (IH1 s c k k' E), (IH2 s c k k' E). reflexivity.
  - generalize (String.length s) as n. intros n. revert s c.
    induction n as [|n IHn]; intros s c; [apply E|].
    rewrite (IH s c _ (fun s' c' =>
              if Nat.ltb (String.length s') (String.length s)
              then (fix loop (n : nat) (s : string) (c : captures) {struct n} :=
                      match n with
                      | O => k' s c
                      | S n' =>
                          match run r s c
                                  (fun s' c' =>
                                     if Nat.ltb (String.length s') (String.length s)
                                     then loop n' s' c' else None)
                          with
                          | Some x => Some x
                          | None => k' s c
                          end
                      end) n s' c'
              else None)).
    + now rewrite E.
    + intros s' c'. destruct (Nat.ltb _ _); [apply IHn | reflexivity].
  - apply IH. intros. apply E.
  - destruct s as [|a [|b s']]; try rewrite E; reflexivity.
Qed.

(** A pattern followed by nothing that can succeed fails. *)
Lemma run_fail (r : regex) : forall s c, run r s c (fun _ _ => @None R) = None.
Proof.
  induction r as [|p|l|r1 IH1 r2 IH2|r1 IH1 r2 IH2|r IH|name r IH|];
    intros s c; simpl; auto.
  - destruct s as [|a s']; [reflexivity|]. now destruct (p a).
  - now destruct (strip_prefix l s).
  - rewrite (run_ext r1 s c _ (fun _ _ => None)); auto.
  - now rewrite IH1, IH2.
  - generalize (String.length s) as n. intros n. revert s c.
    induction n as [|n IHn]; intros s c; [reflexivity|].
    rewrite (run_ext r s c _ (fun _ _ => None)).
    + now rewrite IH.
    + intros s' c'. destruct (Nat.ltb _ _); [apply IHn | reflexivity].
  - destruct s as [|a [|b s']]; try reflexivity. now destruct (Ascii.eqb a "010").
Qed.

Lemma run_star_loop r s c k :
  run (Star r) s c k = star_loop r k (String.length s) s c.
Proof. reflexivity. Qed.

(** More fuel than characters changes nothing. *)
Lemma star_loop_fuel r k : forall n m s c,
  String.length s <= n -> String.length s <= m ->
  star_loop r k n s c = star_loop r k m s c.
Proof.
  induction n as [|n IH]; intros m s c Hn Hm.
  - destruct m as [|m]; [reflexivity|]. simpl.
    rewrite (run_ext r s c _ (fun _ _ => None)).
    + now rewrite run_fail.
    + intros s' c'. destruct (Nat.ltb_spec (String.length s') (String.length s));
        [lia | reflexivity].
  - destruct m as [|m].
    + simpl. rewrite (run_ext r s c _ (fun _ _ => None)).
      * now rewrite run_fail.
      * intros s' c'.
        destruct (Nat.ltb_spec (String.length s') (String.length s));
          [lia | reflexivity].
    + simpl. rewrite (run_ext r s c _
        (fun s' c' => if Nat.ltb (String.length s') (String.length s)
                      then star_loop r k m s' c' else None)); [reflexivity|].
      intros s' c'.
      destruct (Nat.ltb_spec (String.length s') (String.length s));
        [apply IH; lia | reflexivity].
Qed.

(** [r*] is one greedy round of [r] that makes progress, then [r*] again;
    else nothing. *)
Lemma run_star r s c k :
  run (Star r) s c k =
  match run r s c (fun s' c' =>
          if Nat.ltb (String.length s') (String.length s)
          then run (Star r) s' c' k else None) with
  | Some x => Some x
  | None => k s c
  end.
Proof.
  rewrite run_star_loop.
  rewrite (star_loop_fuel r k _ (S (String.length s)) s c) by lia.
  cbn [star_loop].
  rewrite (run_ext r s c _
      (fun s' c' => if Nat.ltb (String.length s') (String.length s)
                    then run (Star r) s' c' k else None)); [reflexivity|].
  intros s' c'.
  destruct (Nat.ltb_spec (String.length s') (String.length s));
    [|reflexivity].
  rewrite run_star_loop. apply star_loop_fuel; lia.
Qed.

End Run.
End ReFacts.
Import ReFacts.

Module StringFacts.

Lemma append_nil_r (s : string) : s ++ "" = s.
Proof. induction s; simpl; congruence. Qed.

Lemma append_assoc (a b c : string) : (a ++ b) ++ c = a ++ (b ++ c).
Proof. induction a; simpl; congruence. Qed.

Lemma length_append (a b : string) :
  String.length (a ++ b) = String.length a + String.length b.
Proof. induction a; simpl; congruence. Qed.

Lemma substring_all (s : string) : substring 0 (String.length s) s = s.
Proof. induction s; simpl; congruence. Qed.

Lemma substring_prefix (a b : string) :
  substring 0 (String.length a) (a ++ b) = a.
Proof.
  induction a; simpl.
  - now destruct b.
  - congruence.
Qed.

Lemma taken_append (a b : string) : taken (a ++ b) b = a.
Proof.
  unfold taken. rewrite length_append.
  replace (String.length a + String.length b - String.length b)
    with (String.length a) by lia.
  apply substring_prefix.
Qed.

Lemma taken_all (s : string) : taken s "" = s.
Proof.
  rewrite <- (append_nil_r s) at 1. apply taken_append.
Qed.

Lemma forallb_append p (a b : string) :
  Py.string_forallb p (a ++ b) = Py.string_forallb p a && Py.string_forallb p b.
Proof. induction a; simpl; [reflexivity|]. now rewrite IHa, andb_assoc. Qed.

End StringFacts.
Import StringFacts.

Module ReFacts2.

Lemma is_suffix_refl s : is_suffix s s.
Proof. now exists "". Qed.

Lemma is_suffix_trans a b c : is_suffix a b -> is_suffix b c -> is_suffix a c.
Proof.
  intros [p ->] [q ->]. exists (q ++ p). now rewrite append_assoc.
Qed.

Lemma is_suffix_tail a s s' : is_suffix s' s -> is_suffix s' (String a s).
Proof. intros [p ->]. now exists (String a p). Qed.

Lemma is_suffix_length s' s : is_suffix s' s -> String.length s' <= String.length s.
Proof. intros [p ->]. rewrite length_append. lia. Qed.

Lemma strip_prefix_spec l : forall s s',
  strip_prefix l s = Some s' <-> s = l ++ s'.
Proof.
  induction l as [|a l IH]; intros s s'; simpl.
  - split; congruence.
  - destruct s as [|b s]; [split; congruence|].
    destruct (Ascii.eqb_spec a b) as [->|N].
    + rewrite IH. split; congruence.
    + split; congruence.
Qed.

Section Run.
Context {R : Type}.
Implicit Types (k : string -> captures -> option R).

(** A match hands a suffix of the text to the continuation. *)
Lemma run_some (r : regex) : forall s c k x,
  run r s c k = Some x ->
  exists s' c', is_suffix s' s /\ k s' c' = Some x.
Proof.
  induction r as [|p|l|r1 IH1 r2 IH2|r1 IH1 r2 IH2|r IH|name r IH|];
    intros s c k x.
  - simpl. intros E. exists s, c. split; [apply is_suffix_refl | exact E].
  - simpl. destruct s as [|a s']; [discriminate|].
    destruct (p a); [|discriminate]. intros E.
    exists s', c. split; [|exact E]. apply is_suffix_tail, is_suffix_refl.
  - simpl. destruct (strip_prefix l s) as [s'|] eqn:E; [|discriminate].
    apply strip_prefix_spec in E. intros Ek.
    exists s', c. split; [now exists l | exact Ek].
  - simpl. intros E. apply IH1 in E. destruct E as (s1 & c1 & S1 & E).
    apply IH2 in E. destruct E as (s2 & c2 & S2 & E).
    exists s2, c2. split; [eapply is_suffix_trans; eauto | exact E].
  - simpl. destruct (run r1 s c k) eqn:E1.
    + intros [= ->]. now apply IH1 in E1.
    + apply IH2.
  - remember (String.length s) as n eqn:En.
    assert (Hn : String.length s <= n) by lia. clear En.
    revert s c Hn. induction n as [|n IHn]; intros s c Hn; rewrite run_star.
    + destruct (run r s c _) eqn:E.
      * intros [= ->]. apply IH in E. destruct E as (s1 & c1 & S1 & E).
        apply is_suffix_length in S1.
        destruct (Nat.ltb_spec (String.length s1) (String.length s));
          [lia | discriminate].
      * intros E'. exists s, c. split; [apply is_suffix_refl | exact E'].
    + destruct (run r s c _) eqn:E.
      * intros [= ->]. apply IH in E. destruct E as (s1 & c1 & S1 & E).
        destruct (Nat.ltb_spec (String.length s1) (String.length s));
          [|discriminate].
        apply IHn in E; [|lia]. destruct E as (s2 & c2 & S2 & E).
        exists s2, c2. split; [eapply is_suffix_trans; eauto | exact E].
      * intros E'. exists s, c. split; [apply is_suffix_refl | exact E'].
  - simpl. intros E. apply IH in E. destruct E as (s1 & c1 & S1 & E).
    now exists s1, ((name, taken s s1) :: c1).
  - simpl. intros E. exists s, c. split; [apply is_suffix_refl|].
    destruct s as [|a [|b s']]; try discriminate; auto.
    destruct (Ascii.eqb a "010"); [auto | discriminate].
Qed.

Lemma run_none (r : regex) s c k :
  (forall s' c', is_suffix s' s -> k s' c' = None) -> run r s c k = None.
Proof.
  intros H. destruct (run r s c k) eqn:E; [|reflexivity].
  apply run_some in E. destruct E as (s' & c' & S & E).
  rewrite H in E by assumption. discriminate.
Qed.

Lemma run_chr_cons p a s c k :
  run (Chr p) (String a s) c k = if p a then k s c else None.
Proof. reflexivity. Qed.

Lemma run_cat r1 r2 s c k :
  run (Cat r1 r2) s c k = run r1 s c (fun s' c' => run r2 s' c' k).
Proof. reflexivity. Qed.

Lemma run_alt r1 r2 s c k :
  run (Alt r1 r2) s c k =
  match run r1 s c k with Some x => Some x | None => run r2 s c k end.
Proof. reflexivity. Qed.

Lemma run_eps s c k : run Eps s c k = k s c.
Proof. reflexivity. Qed.

Lemma run_group name r s c k :
  run (Group name r) s c k =
  run r s c (fun s' c' => k s' ((name, taken s s') :: c')).
Proof. reflexivity. Qed.

Lemma run_lit l s c k :
  run (Lit l) s c k =
  match strip_prefix l s with Some s' => k s' c | None => None end.
Proof. reflexivity. Qed.

Lemma run_chr_outside p s c k :
  starts_outside p s -> run (Chr p) s c k = None.
Proof. destruct s; simpl; [reflexivity|]. now intros ->. Qed.

Lemma run_star_chr_outside p s c k :
  starts_outside p s -> run (Star (Chr p)) s c k = k s c.
Proof. intros H. rewrite run_star. now rewrite run_chr_outside. Qed.

(** A greedy run of a class takes all of [ds] when what follows is
    outside the class and the rest of the pattern accepts there. *)
Lemma run_star_chr_greedy p ds : forall rest c k x,
  Py.string_forallb p ds = true -> starts_outside p rest ->
  k rest c = Some x ->
  run (Star (Chr p)) (ds ++ rest) c k = Some x.
Proof.
  induction ds as [|a ds IH]; intros rest c k x Hp Ho Hk.
  - change ("" ++ rest) with rest. now rewrite run_star_chr_outside.
  - simpl in Hp. apply andb_true_iff in Hp. destruct Hp as [Ha Hds].
    change (String a ds ++ rest) with (String a (ds ++ rest)).
    rewrite run_star, run_chr_cons, Ha.
    change (String.length (String a (ds ++ rest)))
      with (S (String.length (ds ++ rest))).
    destruct (Nat.ltb_spec (String.length (ds ++ rest))
                (S (String.length (ds ++ rest)))); [|lia].
    now rewrite (IH rest c k x Hds Ho Hk).
Qed.

Lemma run_plus_chr_greedy p a ds rest c k x :
  p a = true -> Py.string_forallb p ds = true -> starts_outside p rest ->
  k rest c = Some x ->
  run (Plus (Chr p)) (String a ds ++ rest) c k = Some x.
Proof.
  intros Ha Hds Ho Hk. unfold Plus.
  change (String a ds ++ rest) with (String a (ds ++ rest)).
  rewrite run_cat, run_chr_cons, Ha. now apply run_star_chr_greedy.
Qed.

End Run.
End ReFacts2.
Import ReFacts2.

Module DecimalFacts.

Lemma uint_digits (d : Decimal.uint) :
  Py.string_forallb is_digit (NilEmpty.string_of_uint d) = true.
Proof. induction d; simpl; auto. Qed.

Lemma to_uint_nonnil (n : N) : N.to_uint n <> Decimal.Nil.
Proof.
  destruct n; simpl; [discriminate|]. apply DecimalPos.Unsigned.to_uint_nonnil.
Qed.

Lemma str_digits (n : N) : Py.string_forallb is_digit (Py.str n) = true.
Proof.
  unfold Py.str, NilZero.string_of_uint.
  destruct (N.to_uint n); try reflexivity; apply uint_digits.
Qed.

Lemma str_cons (n : N) : exists a ds, Py.str n = String a ds.
Proof.
  unfold Py.str, NilZero.string_of_uint.
  destruct (N.to_uint n); simpl; eauto.
Qed.

Lemma int_str (n : N) : Py.int (Py.str n) = Some n.
Proof.
  unfold Py.int, Py.str.
  rewrite NilZero.usu by apply to_uint_nonnil.
  simpl. now rewrite DecimalN.Unsigned.of_to.
Qed.

Lemma traverse_int_str (l : list N) :
  Py.traverse Py.int (map Py.str l) = Some l.
Proof.
  induction l as [|n l IH]; simpl; [reflexivity|].
  now rewrite int_str, IH.
Qed.

Lemma digit_not_space a : is_digit a = true -> is_space a = false.
Proof.
  destruct a as [[|] [|] [|] [|] [|] [|] [|] [|]]; vm_compute; congruence.
Qed.

Lemma forallb_impl (p q : ascii -> bool) s :
  (forall a, p a = true -> q a = true) ->
  Py.string_forallb p s = true -> Py.string_forallb q s = true.
Proof.
  intros H. induction s as [|a s IH]; simpl; [reflexivity|].
  rewrite !andb_true_iff. intros [Ha Hs]. auto.
Qed.

End DecimalFacts.
Import DecimalFacts.

Module VersionFacts.
Import Packaging.

Lemma join_dots d l : Py.join "." (d :: l) = d ++ dots l.
Proof.
  revert d. induction l as [|e l IH]; intros d.
  - simpl. now rewrite append_nil_r.
  - change (Py.join "." (d :: e :: l)) with (d ++ "." ++ Py.join "." (e :: l)).
    now rewrite IH.
Qed.

Lemma dots_outside l : starts_outside is_digit (dots l).
Proof. destruct l; simpl; auto. Qed.

Lemma split_on_cons p s : exists x xs, Py.split_on p s = x :: xs.
Proof.
  induction s as [|a s (x & xs & IH)]; simpl; eauto.
  destruct (p a); eauto. rewrite IH. eauto.
Qed.

Lemma split_digits d : forall rest,
  Py.string_forallb is_digit d = true ->
  Py.split "." (d ++ rest) =
  match Py.split "." rest with
  | x :: xs => (d ++ x) :: xs
  | [] => [d]
  end.
Proof.
  induction d as [|a d IH]; intros rest Hd.
  - simpl. unfold Py.split.
    now destruct (split_on_cons (Ascii.eqb ".") rest) as (x & xs & ->).
  - simpl in Hd. apply andb_true_iff in Hd. destruct Hd as [Ha Hd].
    unfold Py.split in *.
    change (String a d ++ rest) with (String a (d ++ rest)).
    cbn [Py.split_on].
    destruct (Ascii.eqb "." a) eqn:E;
      [apply Ascii.eqb_eq in E; subst; vm_compute in Ha; discriminate|].
    rewrite (IH rest Hd).
    now destruct (split_on_cons (Ascii.eqb ".") rest) as (x & xs & ->).
Qed.

Lemma split_dots : forall l d,
  Forall digit_string (d :: l) ->
  Py.split "." (d ++ dots l) = d :: l.
Proof.
  induction l as [|e l IH]; intros d H;
    inversion H as [|? ? [Hd _] Hl]; subst; rewrite split_digits by assumption.
  - change (Py.split "." (dots [])) with [""]. cbv iota.
    now rewrite append_nil_r.
  - change (Py.split "." (dots (e :: l)))
      with ("" :: Py.split "." (e ++ dots l)).
    rewrite (IH e Hl). cbv iota. now rewrite append_nil_r.
Qed.

Section Run.
Context {R : Type}.
Implicit Types (k : string -> captures -> option R).

Lemma run_digits d rest c k x :
  digit_string d -> starts_outside is_digit rest -> k rest c = Some x ->
  run digits (d ++ rest) c k = Some x.
Proof.
  intros [Hd Hne] Ho Hk. destruct d as [|a d]; [congruence|].
  simpl in Hd. apply andb_true_iff in Hd. destruct Hd.
  now apply run_plus_chr_greedy.
Qed.

Lemma run_star_dots : forall l c k x,
  Forall digit_string l -> k "" c = Some x ->
  run (Star (Cat (Lit ".") digits)) (dots l) c k = Some x.
Proof.
  induction l as [|d l IH]; intros c k x Hl Hk; rewrite run_star.
  - change (dots []) with "". rewrite run_cat, run_lit. simpl. exact Hk.
  - inversion Hl as [|? ? Hd Hl']; subst.
    change (dots (d :: l)) with (String "." (d ++ dots l)).
    rewrite run_cat, run_lit.
    change (strip_prefix "." (String "." (d ++ dots l)))
      with (Some (d ++ dots l)).
    cbv beta iota.
    rewrite (run_digits d (dots l) c _ x); auto using dots_outside.
    change (String.length (String "." (d ++ dots l)))
      with (S (String.length (d ++ dots l))).
    rewrite length_append.
    destruct (Nat.ltb_spec (String.length (dots l))
                (S (String.length d + String.length (dots l)))); [|lia].
    now apply IH.
Qed.

Lemma run_release_body d l c k x :
  Forall digit_string (d :: l) -> k "" c = Some x ->
  run (Cat digits (Star (Cat (Lit ".") digits))) (d ++ dots l) c k = Some x.
Proof.
  intros H Hk. inversion H; subst. rewrite run_cat.
  apply run_digits; auto using dots_outside. now apply run_star_dots.
Qed.

Lemma run_suffix_empty c k : run suffix_re "" c k = k "" c.
Proof. reflexivity. Qed.

End Run.

Lemma dots_dotted l :
  Forall digit_string l -> Py.string_forallb dotted (dots l) = true.
Proof.
  induction 1 as [|d l [Hd _] _ IH]; [reflexivity|].
  change (dots (d :: l)) with (String "." (d ++ dots l)). simpl.
  rewrite forallb_append, IH, andb_true_r.
  eapply forallb_impl; [|exact Hd]. intros a Ha. unfold dotted. now rewrite Ha.
Qed.

Lemma suffix_forallb p s' s :
  is_suffix s' s -> Py.string_forallb p s = true ->
  Py.string_forallb p s' = true.
Proof.
  intros [q ->]. rewrite forallb_append, andb_true_iff. tauto.
Qed.

Lemma digit_head a : is_digit a = true ->
  is_space a = false /\ Ascii.eqb (lower_ascii a) "v" = false
  /\ Ascii.eqb "!" a = false.
Proof.
  destruct a as [[|] [|] [|] [|] [|] [|] [|] [|]]; vm_compute;
    intuition congruence.
Qed.

Lemma dotted_not_bang a : dotted a = true -> Ascii.eqb "!" a = false.
Proof.
  destruct a as [[|] [|] [|] [|] [|] [|] [|] [|]]; vm_compute;
    intuition congruence.
Qed.

(** The pattern on a dotted run of decimal numbers: the release group is
    the whole text, no other group takes part. *)
Lemma re_match_dotted d l :
  Forall digit_string (d :: l) ->
  re_match _regex (d ++ dots l) = Some ("", [("release", d ++ dots l)]).
Proof.
  intros H. unfold re_match, _regex.
  assert (Hall : Py.string_forallb dotted (d ++ dots l) = true).
  { inversion H as [|? ? [Hd _] Hl]; subst.
    rewrite forallb_append, dots_dotted, andb_true_r by assumption.
    eapply forallb_impl; [|exact Hd]. intros a Ha. unfold dotted. now rewrite Ha. }
  destruct d as [|a d]; [inversion H as [|? ? [_ N] _]; congruence|].
  assert (Ha : is_digit a = true).
  { inversion H as [|? ? [Hd _] _]; subst. simpl in Hd.
    now apply andb_true_iff in Hd. }
  destruct (digit_head a Ha) as (Hsp & Hv & _).
  change (String a d ++ dots l) with (String a (d ++ dots l)) in *.
  rewrite run_cat, run_star_chr_outside by exact Hsp.
  rewrite run_cat. unfold Opt at 1. rewrite run_alt.
  change (lit_ci "v") with (Cat (Chr (fun a => Ascii.eqb (lower_ascii a) "v")) Eps).
  rewrite run_cat, run_chr_cons, Hv, run_eps.
  rewrite run_cat. unfold epoch_re, Opt. rewrite run_alt.
  rewrite run_cat.
  rewrite (run_none (Group "epoch" digits)).
  2:{ intros s' c' Hs. rewrite run_lit.
      apply (suffix_forallb dotted) in Hs; [|exact Hall].
      destruct s' as [|b s']; [reflexivity|].
      simpl in Hs. apply andb_true_iff in Hs. destruct Hs as [Hb _].
      cbn [strip_prefix]. now rewrite (dotted_not_bang b Hb). }
  rewrite run_eps, run_cat. unfold release_re. rewrite run_group.
  change (String a (d ++ dots l)) with (String a d ++ dots l).
  erewrite run_release_body; [reflexivity | exact H |].
  rewrite run_suffix_empty. now rewrite taken_all.
Qed.

(** [Version] of a dotted run of decimal numbers is that release and
    nothing else. *)
Lemma Version_release_only (l : list N) :
  l <> [] ->
  Version (Py.join "." (map Py.str l)) =
  Some (Build_Version 0 l None None None None).
Proof.
  destruct l as [|n l]; [congruence|]. intros _.
  assert (H : Forall digit_string (map Py.str (n :: l))).
  { apply Forall_forall. intros d Hd. apply in_map_iff in Hd.
    destruct Hd as (m & <- & _). split; [apply str_digits|].
    destruct (str_cons m) as (a & ds & ->). discriminate. }
  change (map Py.str (n :: l)) with (Py.str n :: map Py.str l) in *.
  rewrite join_dots. unfold Version.
  rewrite re_match_dotted by exact H.
  cbn [group String.eqb Ascii.eqb Bool.eqb truthy].
  simpl group.
  rewrite split_dots by exact H.
  change (Py.str n :: map Py.str l) with (map Py.str (n :: l)).
  rewrite traverse_int_str. reflexivity.
Qed.

Lemma str_release_only (l : list N) :
  __str__ (Build_Version 0 l None None None None)
  = Py.join "." (map Py.str l).
Proof.
  unfold __str__, base_version. simpl. now rewrite !append_nil_r.
Qed.

End VersionFacts.
Import VersionFacts.

Module BuiltinsFacts.
Import Builtins.

Section Sorting.
Context {A : Type} `{Cmp A}.

Lemma In_insert (x y : A) l : In x (insert y l) <-> x = y \/ In x l.
Proof.
  induction l as [|z l IH]; simpl; [intuition|].
  destruct (ltb y z); simpl; [intuition|]. rewrite IH. intuition.
Qed.

Lemma In_fold_insert (x : A) l : forall acc,
  In x (fold_left (fun acc x => insert x acc) l acc) <-> In x l \/ In x acc.
Proof.
  induction l as [|y l IH]; intros acc; simpl; [intuition|].
  rewrite IH, In_insert. intuition.
Qed.

Lemma In_sorted (x : A) l : In x (sorted l) <-> In x l.
Proof. unfold sorted. rewrite In_fold_insert. simpl. intuition. Qed.

Hypothesis le_refl : forall x : A, leb x x = true.
Hypothesis le_trans : forall x y z : A,
  leb x y = true -> leb y z = true -> leb x z = true.
Hypothesis gt_le : forall x y : A, gtb x y = true -> leb y x = true.
Hypothesis ngt_le : forall x y : A, gtb x y = false -> leb x y = true.

Lemma fold_max l : forall x : A,
  let m := fold_left (fun m y => if gtb y m then y else m) l x in
  (m = x \/ In m l) /\ leb x m = true /\ forall y, In y l -> leb y m = true.
Proof.
  induction l as [|y l IH]; intros x; simpl.
  - split; [auto | split; [auto | intros y []]].
  - destruct (IH (if gtb y x then y else x)) as (Hin & Hle & Hall).
    assert (Hx : leb x (if gtb y x then y else x) = true)
      by (destruct (gtb y x) eqn:E; auto).
    assert (Hy : leb y (if gtb y x then y else x) = true)
      by (destruct (gtb y x) eqn:E; auto).
    split; [|split].
    + destruct Hin as [->|Hin]; [|auto].
      destruct (gtb y x); auto.
    + eauto.
    + intros z [<-|Hz]; eauto.
Qed.

Lemma max_ok l m :
  max l = Ok m -> In m l /\ forall y, In y l -> leb y m = true.
Proof.
  destruct l as [|x l]; simpl; [discriminate|]. intros [= <-].
  destruct (fold_max l x) as (Hin & Hle & Hall).
  split; [destruct Hin as [E|Hin]; [left; now symmetry | now right]|].
  intros y [<-|Hy]; auto.
Qed.

Lemma max_raise l e : max l = Raise e -> l = [] /\ exn_cls e = ValueError.
Proof. destruct l; simpl; [intros [= <-]; auto | discriminate]. Qed.

Lemma max_sorted_ok l m :
  max (sorted l) = Ok m -> In m l /\ forall y, In y l -> leb y m = true.
Proof.
  intros E. apply max_ok in E. destruct E as [Hin Hall].
  split; [now apply In_sorted|]. intros y Hy. now apply Hall, In_sorted.
Qed.

Lemma max_sorted_raise l e :
  max (sorted l) = Raise e -> l = [] /\ exn_cls e = ValueError.
Proof.
  intros E. apply max_raise in E. destruct E as [E Hc]. split; [|exact Hc].
  destruct l as [|x l]; [reflexivity|].
  assert (Hx : In x (sorted (x :: l))) by (apply In_sorted; now left).
  rewrite E in Hx. destruct Hx.
Qed.

End Sorting.
End BuiltinsFacts.
Import BuiltinsFacts.

Module SpecifiersFacts.
Import Packaging Specifiers.

Section Filter.
Context {V : Type} (coerce : V -> _Version).

Lemma filter_app_one (p : V -> bool) l x :
  filter p (l ++ [x]) = (filter p l ++ (if p x then [x] else []))%list.
Proof. rewrite filter_app. simpl. now destruct (p x). Qed.

(** With prereleases refused, the set without specifiers keeps exactly
    the final releases. *)
Lemma filter_unconstrained_false l :
  filter_unconstrained coerce (Some false) l
  = filter (fun x => negb (is_prerelease (coerce x))) l.
Proof.
  unfold filter_unconstrained.
  set (step := fun (acc : list V * list V) item => _).
  assert (G : forall l f fp, exists fp',
             fold_left step l (f, fp)
             = ((f ++ filter (fun x => negb (is_prerelease (coerce x))) l)%list,
                fp')).
  { clear l. induction l as [|x l IH]; intros f fp; simpl.
    - exists fp. now rewrite app_nil_r.
    - destruct (is_prerelease (coerce x)); simpl.
      + destruct f; apply IH.
      + destruct (IH (f ++ [x])%list fp) as [fp' ->]. exists fp'.
        now rewrite <- app_assoc. }
  destruct (G l [] []) as [fp' ->]. simpl.
  now destruct (filter _ l), fp'.
Qed.

(** A [<] specifier whose version text parses keeps the final releases
    below that version. *)
Lemma filter_less_than_spec spec_str spec l :
  Version spec_str = Some spec ->
  filter_less_than coerce spec_str l
  = Some (filter (fun x => negb (is_prerelease (coerce x))
                           && ltb (coerce x) spec) l).
Proof.
  intros Hs. unfold filter_less_than, Specifier_filter.
  set (step := fun (acc : option (list V * list V)) version => _).
  assert (G : forall l y,
             fold_left step l (Some (y, []))
             = Some ((y ++ filter (fun x => negb (is_prerelease (coerce x))
                                            && ltb (coerce x) spec) l)%list,
                     [])).
  { clear l. induction l as [|x l IH]; intros y; simpl.
    - now rewrite app_nil_r.
    - unfold contains, _compare_less_than.
      rewrite Hs. unfold less_than_prereleases.
      destruct (is_prerelease (coerce x)) eqn:Ep; simpl.
      + apply IH.
      + destruct (ltb (coerce x) spec); simpl.
        * rewrite andb_false_r. rewrite IH. now rewrite <- app_assoc.
        * apply IH. }
  rewrite G. simpl. now destruct (filter _ l).
Qed.

End Filter.
End SpecifiersFacts.
Import SpecifiersFacts.

Module ReleaseFacts.

Lemma dropwhile_app_zero l :
  Py.dropwhile (N.eqb 0) l = [] -> Py.dropwhile (N.eqb 0) (l ++ [0%N]) = [].
Proof.
  induction l as [|x l IH]; [reflexivity|].
  cbn [Py.dropwhile app]. destruct (N.eqb 0 x); [exact IH | discriminate].
Qed.

Lemma dropwhile_app_keep l y :
  N.eqb 0 y = false -> Py.dropwhile (N.eqb 0) l = [] ->
  Py.dropwhile (N.eqb 0) (l ++ [y]) = [y].
Proof.
  intros Hy. induction l as [|x l IH]; cbn [Py.dropwhile app].
  - now rewrite Hy.
  - destruct (N.eqb 0 x); [exact IH | discriminate].
Qed.

Lemma dropwhile_app_nonnil l t :
  Py.dropwhile (N.eqb 0) l <> [] ->
  Py.dropwhile (N.eqb 0) (l ++ t) = (Py.dropwhile (N.eqb 0) l ++ t)%list.
Proof.
  induction l as [|x l IH]; cbn [Py.dropwhile app]; [congruence|].
  destruct (N.eqb 0 x); [apply IH | reflexivity].
Qed.

(** Trailing zeros go, from the front: *)
Lemma strip_cons x l :
  strip (x :: l) =
  match strip l with
  | [] => if N.eqb 0 x then [] else [x]
  | _ => x :: strip l
  end.
Proof.
  unfold strip. simpl rev.
  destruct (Py.dropwhile (N.eqb 0) (rev l)) as [|z t] eqn:E.
  - cbn [rev]. destruct (N.eqb 0 x) eqn:Ex.
    + apply N.eqb_eq in Ex. subst x. now rewrite dropwhile_app_zero.
    + now rewrite dropwhile_app_keep.
  - rewrite dropwhile_app_nonnil by (rewrite E; discriminate).
    rewrite E, rev_app_distr. simpl.
    destruct (rev t ++ [z])%list eqn:E2; [|reflexivity].
    now destruct (rev t).
Qed.

Lemma cmp_zero_l (y : N) : cmp 0%N y = if N.eqb 0 y then Eq else Lt.
Proof. unfold cmp, N_Cmp. now destruct y. Qed.

Lemma cmp_zero_r (x : N) : cmp x 0%N = if N.eqb 0 x then Eq else Gt.
Proof. unfold cmp, N_Cmp. now destruct x. Qed.

Lemma strip_nil_l b : cmp [] (strip b) = zeros_cmp b.
Proof.
  induction b as [|y b IH]; [reflexivity|].
  rewrite strip_cons. simpl zeros_cmp. rewrite cmp_zero_l, <- IH.
  destruct (strip b); destruct (N.eqb 0 y); reflexivity.
Qed.

Lemma strip_nil_r a : cmp (strip a) [] = pcmp a [].
Proof.
  induction a as [|x a IH]; [reflexivity|].
  rewrite strip_cons. simpl pcmp. rewrite cmp_zero_r, <- IH.
  destruct (strip a); destruct (N.eqb 0 x); reflexivity.
Qed.

(** Comparing with trailing zeros removed is comparing with zeros
    padded. *)
Lemma strip_pcmp : forall a b, cmp (strip a) (strip b) = pcmp a b.
Proof.
  induction a as [|x a IH]; intros b.
  - apply strip_nil_l.
  - destruct b as [|y b]; [apply strip_nil_r|].
    simpl pcmp. rewrite <- IH. rewrite !strip_cons.
    destruct (strip a) as [|a1 ta], (strip b) as [|b1 tb];
      destruct x as [|p], y as [|q]; cbn; try reflexivity;
      try (destruct (Pos.compare p q); reflexivity).
Qed.

Lemma pad_nil n : pad n [] = repeat 0%N n.
Proof. unfold pad. simpl. now rewrite Nat.sub_0_r. Qed.

Lemma pad_cons n x l : pad (S n) (x :: l) = x :: pad n l.
Proof. reflexivity. Qed.

Lemma pad_pcmp : forall n a b,
  List.length a <= n -> List.length b <= n ->
  cmp (pad n a) (pad n b) = pcmp a b.
Proof.
  induction n as [|n IH]; intros a b Ha Hb.
  - destruct a, b; simpl in *; try lia. reflexivity.
  - destruct a as [|x a], b as [|y b]; simpl in Ha, Hb.
    + rewrite pad_nil. simpl repeat. rewrite <- pad_nil.
      change (cmp (0%N :: pad n []) (0%N :: pad n []))
        with (lex (cmp 0%N 0%N) (cmp (pad n []) (pad n []))).
      rewrite IH by (simpl; lia). reflexivity.
    + rewrite pad_nil, pad_cons. simpl repeat. rewrite <- pad_nil.
      change (cmp (0%N :: pad n []) (y :: pad n b))
        with (lex (cmp 0%N y) (cmp (pad n []) (pad n b))).
      rewrite IH by (simpl; lia). reflexivity.
    + rewrite pad_nil, pad_cons. simpl repeat. rewrite <- pad_nil.
      change (cmp (x :: pad n a) (0%N :: pad n []))
        with (lex (cmp x 0%N) (cmp (pad n a) (pad n []))).
      rewrite IH by (simpl; lia). reflexivity.
    + rewrite !pad_cons.
      change (cmp (x :: pad n a) (y :: pad n b))
        with (lex (cmp x y) (cmp (pad n a) (pad n b))).
      rewrite IH by lia. reflexivity.
Qed.

Lemma padded_pcmp a b : padded_cmp a b = pcmp a b.
Proof. unfold padded_cmp. apply pad_pcmp; lia. Qed.

Lemma strip_padded a b : cmp (strip a) (strip b) = padded_cmp a b.
Proof. now rewrite padded_pcmp, strip_pcmp. Qed.

(** A release is below its own prefix with the last element raised. *)
Lemma pcmp_incr_last : forall index rel,
  index <> 0 -> rel <> [] ->
  pcmp rel (incr_last (firstn index rel)) = Lt.
Proof.
  induction index as [|i IH]; intros rel Hi Hrel; [congruence|].
  destruct rel as [|x rel]; [congruence|].
  simpl firstn.
  destruct (firstn i rel) as [|y t] eqn:E.
  - simpl. unfold cmp at 1, N_Cmp.
    assert (L : N.compare x (x + 1) = Lt) by (apply N.compare_lt_iff; lia).
    now rewrite L.
  - change (incr_last (x :: y :: t)) with (x :: incr_last (y :: t)).
    cbn [pcmp]. rewrite cmp_refl. cbn [lex]. rewrite <- E.
    apply IH.
    + intros ->. discriminate.
    + intros ->. now destruct i.
Qed.

End ReleaseFacts.
Import ReleaseFacts.

Module ResolverFacts.

Lemma version_leb_refl (x : Version.t) : leb x x = true.
Proof. apply (leb_refl (A := Packaging.CmpKey)). Qed.

Lemma version_leb_trans (x y z : Version.t) :
  leb x y = true -> leb y z = true -> leb x z = true.
Proof. apply (leb_trans (A := Packaging.CmpKey)). Qed.

Lemma version_gt_le (x y : Version.t) : gtb x y = true -> leb y x = true.
Proof. apply (gtb_true_leb (A := Packaging.CmpKey)). Qed.

Lemma version_ngt_le (x y : Version.t) : gtb x y = false -> leb x y = true.
Proof. apply (gtb_false_leb (A := Packaging.CmpKey)). Qed.

Lemma init_raw s v : Version.__init__ s = Ok v -> Version.raw_version v = s.
Proof.
  unfold Version.__init__. destruct (Packaging.Version s); [|discriminate].
  now intros [= <-].
Qed.

Lemma In_parse_versions v versions :
  In v (_parse_versions versions) <-> known versions v.
Proof.
  unfold _parse_versions, known. rewrite in_flat_map. split.
  - intros (s & Hs & Hv). destruct (Version.__init__ s) as [x|] eqn:E;
      [|destruct Hv]. destruct Hv as [<-|[]].
    rewrite (init_raw s x E). auto.
  - intros [Hin Hv]. exists (Version.raw_version v). split; [exact Hin|].
    rewrite Hv. now left.
Qed.

Lemma incr_last_nonnil l : l <> [] -> incr_last l <> [].
Proof. destruct l as [|x [|y l]]; simpl; congruence. Qed.

Lemma filter_filter {A} (p q : A -> bool) l :
  filter q (filter p l) = filter (fun x => p x && q x) l.
Proof.
  induction l as [|x l IH]; simpl; [reflexivity|].
  destruct (p x); simpl; [destruct (q x)|]; now rewrite IH.
Qed.

(** The resolver is: parse, keep the eligible, take the largest. *)
Lemma resolve_unfold current target versions cv index :
  Version.__init__ current = Ok cv ->
  dict_get SEMVER target = Ok index ->
  _determine_latest_version current target versions
  = rbind (Builtins.max (Builtins.sorted (candidates cv index versions)))
      (fun v => Ok (Version.raw_version v)).
Proof.
  intros Hc Hi. unfold _determine_latest_version, candidates.
  rewrite Hc. cbn [rbind]. rewrite Hi. cbn [rbind].
  unfold Version.__getitem__. rewrite Nat.sub_0_r. cbn [skipn].
  rewrite filter_unconstrained_false.
  destruct (firstn index (Packaging.release (Version._version cv)))
    as [|x t] eqn:E.
  - cbn [rbind]. unfold eligibleb, final.
    erewrite filter_ext; [reflexivity|]. intros a. cbn beta.
    now rewrite andb_true_r.
  - assert (Hp : Packaging.Version
                   (Py.join "." (map Py.str (incr_last (x :: t))))
                 = Some (release_only (incr_last (x :: t))))
      by (apply Version_release_only, incr_last_nonnil; discriminate).
    unfold Version.__init__ at 1. rewrite Hp. cbn [rbind Version._version].
    unfold release_only at 1. rewrite str_release_only.
    rewrite (filter_less_than_spec _ _ _ _ Hp). cbn [lift_invalid rbind].
    rewrite filter_filter. unfold ceiling_of. rewrite E.
    erewrite filter_ext; [reflexivity|]. intros a. unfold eligibleb, final.
    cbn beta. destruct (Packaging.is_prerelease (Version._version a));
      reflexivity.
Qed.

Lemma candidates_spec cv index versions v ceiling :
  ceiling = match firstn index (Packaging.release (Version._version cv)) with
            | [] => None
            | _ => Some (ceiling_of cv index)
            end ->
  In v (candidates cv index versions)
  <-> known versions v /\ eligible ceiling v.
Proof.
  intros ->. unfold candidates. rewrite filter_In, In_parse_versions.
  unfold eligibleb, eligible. rewrite andb_true_iff.
  destruct (firstn index _); intuition.
Qed.

(** What the largest candidate is, and when there is none. *)
Lemma resolve_spec current target versions cv index ceiling :
  Version.__init__ current = Ok cv ->
  dict_get SEMVER target = Ok index ->
  ceiling = match firstn index (Packaging.release (Version._version cv)) with
            | [] => None
            | _ => Some (ceiling_of cv index)
            end ->
  match _determine_latest_version current target versions with
  | Ok r => is_maximum (eligible ceiling) versions r
  | Raise e =>
      exn_cls e = ValueError
      /\ forall w, known versions w -> ~ eligible ceiling w
  end.
Proof.
  intros Hc Hi Hceil. rewrite (resolve_unfold _ _ _ _ _ Hc Hi).
  destruct (Builtins.max _) as [m|e] eqn:E; cbn [rbind].
  - apply (max_sorted_ok version_leb_refl version_leb_trans
             version_gt_le version_ngt_le) in E.
    destruct E as [Hin Hall].
    apply (candidates_spec _ _ _ _ _ Hceil) in Hin. destruct Hin as [Hk He].
    exists m. split; [tauto|]. split; [reflexivity|]. split; [tauto|].
    intros w Hw Pw. apply Hall.
    apply (candidates_spec _ _ _ _ _ Hceil). tauto.
  - apply max_sorted_raise in E. destruct E as [E Hcls]. split; [exact Hcls|].
    intros w Hw Pw.
    assert (In w (candidates cv index versions))
      by (apply (candidates_spec _ _ _ _ _ Hceil); tauto).
    rewrite E in H. destruct H.
Qed.

Lemma traverse_length {A B} (f : A -> option B) l : forall l',
  Py.traverse f l = Some l' -> List.length l' = List.length l.
Proof.
  induction l as [|x l IH]; intros l'; simpl.
  - now intros [= <-].
  - destruct (f x); [|discriminate].
    destruct (Py.traverse f l) as [ys|]; [|discriminate].
    intros [= <-]. simpl. f_equal. now apply IH.
Qed.

(** A parsed version has at least one release component. *)
Lemma release_nonnil s v :
  Packaging.Version s = Some v -> Packaging.release v <> [].
Proof.
  unfold Packaging.Version.
  destruct (re_match Packaging._regex s) as [[rest m]|]; [|discriminate].
  destruct (if Packaging.truthy _ then _ else _); [|discriminate].
  destruct (Py.traverse Py.int _) as [r|] eqn:E; [|discriminate].
  destruct (Packaging._parse_letter_version (group "pre_l" m) _);
    [|discriminate].
  destruct (Packaging._parse_letter_version (group "post_l" m) _);
    [|discriminate].
  destruct (Packaging._parse_letter_version (group "dev_l" m) _);
    [|discriminate].
  destruct (Packaging._parse_local_version _); [|discriminate].
  intros [= <-]. cbn [Packaging.release].
  apply traverse_length in E. unfold Py.split in E.
  destruct (split_on_cons (Ascii.eqb ".")
              match group "release" m with Some r0 => r0 | None => "" end)
    as (x & xs & Hx).
  rewrite Hx in E. destruct r; [discriminate | discriminate].
Qed.

Lemma firstn_nonnil {A} n (l : list A) :
  n <> 0 -> l <> [] -> firstn n l <> [].
Proof. destruct n, l; simpl; congruence. Qed.

Lemma parse_filter_parses versions :
  _parse_versions (filter parses versions) = _parse_versions versions.
Proof.
  unfold _parse_versions, parses, Version.__init__.
  induction versions as [|s l IH]; [reflexivity|]. cbn [filter flat_map].
  destruct (Packaging.Version s) eqn:E; cbn [flat_map]; rewrite ?E, IH;
    reflexivity.
Qed.

End ResolverFacts.
Import ResolverFacts.

Module ResolverFacts2.

Lemma lex_eq_r c : lex c Eq = c.
Proof. now destruct c. Qed.

Lemma cmp_pair {A B} `{Cmp A} `{Cmp B} (a a' : A) (b b' : B) :
  cmp (a, b) (a', b') = lex (cmp a a') (cmp b b').
Proof. reflexivity. Qed.

Lemma cmp_version (va vb : Packaging._Version) :
  cmp va vb = cmp (Packaging._key va) (Packaging._key vb).
Proof. reflexivity. Qed.

Lemma key_unfold (v : Packaging._Version) :
  Packaging._key v
  = (Packaging.epoch v,
     (strip (Packaging.release v),
      snd (snd (Packaging._key v)))).
Proof. reflexivity. Qed.

(** Where the two keys differ in the release only, the release decides. *)
Lemma cmp_same_segments (va vb : Packaging._Version) :
  Packaging.epoch va = Packaging.epoch vb ->
  Packaging.pre va = Packaging.pre vb ->
  Packaging.post va = Packaging.post vb ->
  Packaging.dev va = Packaging.dev vb ->
  Packaging.local va = Packaging.local vb ->
  cmp va vb = padded_cmp (Packaging.release va) (Packaging.release vb).
Proof.
  intros He Hp Hpo Hd Hl. rewrite <- strip_padded.
  rewrite cmp_version, (key_unfold va), (key_unfold vb).
  unfold Packaging.CmpKey. rewrite !cmp_pair.
  replace (snd (snd (Packaging._key va))) with (snd (snd (Packaging._key vb)))
    by (unfold Packaging._key, Packaging._cmpkey; cbn [snd];
        now rewrite Hp, Hpo, Hd, Hl).
  rewrite He, !cmp_refl. cbn [lex]. apply lex_eq_r.
Qed.

(** A version is below its own ceiling exactly when it has no epoch. *)
Lemma ltb_ceiling (v : Packaging._Version) index :
  index <> 0 -> Packaging.release v <> [] ->
  ltb v (release_only (incr_last (firstn index (Packaging.release v))))
  = N.eqb (Packaging.epoch v) 0.
Proof.
  intros Hi Hr. unfold ltb.
  rewrite cmp_version, (key_unfold v), (key_unfold (release_only _)).
  unfold Packaging.CmpKey. rewrite !cmp_pair.
  cbn [release_only Packaging.epoch Packaging.release].
  rewrite strip_pcmp, pcmp_incr_last by assumption.
  unfold cmp at 1, N_Cmp.
  destruct (Packaging.epoch v) as [|p]; reflexivity.
Qed.

Lemma init_version s v :
  Version.__init__ s = Ok v -> Packaging.Version s = Some (Version._version v).
Proof.
  unfold Version.__init__. destruct (Packaging.Version s); [|discriminate].
  now intros [= <-].
Qed.

Lemma init_parses s v : Version.__init__ s = Ok v -> parses s = true.
Proof. intros H. unfold parses. now rewrite (init_version s v H). Qed.

Lemma parse_one s v : Version.__init__ s = Ok v -> _parse_versions [s] = [v].
Proof. intros H. unfold _parse_versions. cbn [flat_map]. now rewrite H. Qed.

Lemma is_maximum_ext (P Q : Version.t -> Prop) versions r :
  (forall v, P v <-> Q v) ->
  is_maximum P versions r -> is_maximum Q versions r.
Proof.
  intros E (v & Hk & Hr & Hp & Hmax). exists v.
  split; [exact Hk|]. split; [exact Hr|]. split; [now apply E|].
  intros w Hw Qw. apply Hmax; [exact Hw | now apply E].
Qed.

Lemma resolve_raise_init current target versions e :
  Version.__init__ current = Raise e ->
  _determine_latest_version current target versions = Raise e.
Proof. intros H. unfold _determine_latest_version. now rewrite H. Qed.

Lemma resolve_raise_target current target versions cv e :
  Version.__init__ current = Ok cv ->
  dict_get SEMVER target = Raise e ->
  _determine_latest_version current target versions = Raise e.
Proof.
  intros H Ht. unfold _determine_latest_version. rewrite H. cbn [rbind].
  now rewrite Ht.
Qed.

(** Whatever is returned is the text of a known version that parses. *)
Lemma resolve_known current target versions r :
  _determine_latest_version current target versions = Ok r ->
  exists v, known versions v /\ Version.raw_version v = r.
Proof.
  destruct (Version.__init__ current) as [cv|e] eqn:Hc;
    [|now rewrite (resolve_raise_init _ _ _ _ Hc)].
  destruct (dict_get SEMVER target) as [index|e] eqn:Ht;
    [|now rewrite (resolve_raise_target _ _ _ _ _ Hc Ht)].
  pose proof (resolve_spec current target versions cv index _ Hc Ht eq_refl)
    as H.
  intros E. rewrite E in H. destruct H as (v & Hk & Hr & _). eauto.
Qed.

End ResolverFacts2.
Import ResolverFacts2.

(** C1 (as amended): with target minor or patch and a current release of
    at least that many components, the ceiling is the release prefix of
    length 1 or 2 with its last element raised by one, and the resolver
    returns the largest known version that parses, is not a pre-release
    and lies strictly below the ceiling (the ceiling itself is excluded);
    when there is no such version it raises.  The two examples of the
    specification evaluate as stated. *)
Theorem C1_resolve_below_ceiling :
  (forall current target versions cv index,
     Version.__init__ current = Ok cv ->
     (target = "minor" /\ index = 1) \/ (target = "patch" /\ index = 2) ->
     index <= Version.__len__ cv ->
     List.length (firstn index (Packaging.release (Version._version cv)))
       = index
     /\ match _determine_latest_version current target versions with
        | Ok r => is_maximum (eligible (Some (ceiling_of cv index))) versions r
        | Raise e =>
            exn_cls e = ValueError
            /\ forall w, known versions w ->
                         ~ eligible (Some (ceiling_of cv index)) w
        end)
  /\ _determine_latest_version "2.5.3" "minor" ["2.5.4"; "2.6.0"; "3.0.0"]
     = Ok "2.6.0"
  /\ _determine_latest_version "2.5.3" "patch" ["2.5.4"; "2.5.10"; "2.6.0"]
     = Ok "2.5.10".
Proof.
  split; [|split; vm_compute; reflexivity].
  intros current target versions cv index Hc Ht Hlen.
  unfold Version.__len__ in Hlen.
  split; [now apply firstn_length_le|].
  assert (Hi : dict_get SEMVER target = Ok index /\ index <> 0)
    by (destruct Ht as [[-> ->]|[-> ->]]; split; (reflexivity || discriminate)).
  destruct Hi as [Hi Hn].
  apply (resolve_spec current target versions cv index _ Hc Hi).
  destruct (firstn index _) eqn:E; [|reflexivity].
  apply (f_equal (@List.length N)) in E.
  rewrite firstn_length_le in E by exact Hlen. simpl in E. congruence.
Qed.

Lemma C1_resolve_below_ceiling_witness :
  Version.__len__ (Version.Build (release_only [2; 5; 3]%N) "2.5.3") = 3
  /\ is_maximum
       (eligible (Some (ceiling_of
                          (Version.Build (release_only [2; 5; 3]%N) "2.5.3") 1)))
       ["2.5.4"; "2.6.0"; "3.0.0"] "2.6.0".
Proof.
  split; [reflexivity|].
  destruct C1_resolve_below_ceiling as [H _].
  destruct (H "2.5.3" "minor" ["2.5.4"; "2.6.0"; "3.0.0"]
              (Version.Build (release_only [2; 5; 3]%N) "2.5.3") 1)
    as [_ Hmax].
  - vm_compute. reflexivity.
  - left. split; reflexivity.
  - vm_compute. lia.
  - assert (E : _determine_latest_version "2.5.3" "minor"
                  ["2.5.4"; "2.6.0"; "3.0.0"] = Ok "2.6.0")
      by (vm_compute; reflexivity).
    rewrite E in Hmax. exact Hmax.
Defined.

(** C1 as stated fails: a pre-release below the ceiling can exceed what
    the resolver returns. *)
Lemma C1_counterexample :
  exists cv v w,
    Version.__init__ "2.5.3" = Ok cv
    /\ _determine_latest_version "2.5.3" "minor" ["2.6.0"; "2.7.0rc1"]
       = Ok (Version.raw_version v)
    /\ known ["2.6.0"; "2.7.0rc1"] v
    /\ known ["2.6.0"; "2.7.0rc1"] w
    /\ below (ceiling_of cv 1) w
    /\ ltb v w = true.
Proof.
  exists (Version.Build (release_only [2; 5; 3]%N) "2.5.3").
  exists (Version.Build (release_only [2; 6; 0]%N) "2.6.0").
  exists (Version.Build
            (Packaging.Build_Version 0 [2; 7; 0]%N None (Some ("rc", 1%N))
               None None) "2.7.0rc1").
  repeat split; try (vm_compute; reflexivity); vm_compute; auto.
Qed.

(** C2 (as amended): when the only known version is the current one,
    the resolver returns it if it is a final release and either the
    target is major or the version has no epoch; otherwise the current
    version is itself filtered out and the resolver raises. *)
Theorem C2_only_current_known :
  forall current target cv index,
    Version.__init__ current = Ok cv ->
    dict_get SEMVER target = Ok index ->
    _determine_latest_version current target [current]
    = if final cv
         && (Nat.eqb index 0
             || N.eqb (Packaging.epoch (Version._version cv)) 0)
      then Ok current
      else Raise (Exn ValueError "max() arg is an empty sequence").
Proof.
  intros current target cv index Hc Hi.
  rewrite (resolve_unfold _ _ _ _ _ Hc Hi).
  unfold candidates. rewrite (parse_one _ _ Hc). cbn [filter].
  unfold eligibleb at 1.
  destruct (final cv) eqn:Hf; cbn [andb]; [|reflexivity].
  destruct index as [|i].
  - cbn [firstn Nat.eqb orb rbind Builtins.sorted Builtins.max fold_left
         Builtins.insert].
    now rewrite (init_raw _ _ Hc).
  - cbn [Nat.eqb orb].
    assert (Hr : Packaging.release (Version._version cv) <> [])
      by (eapply release_nonnil, init_version; eauto).
    destruct (firstn (S i) (Packaging.release (Version._version cv)))
      as [|x t] eqn:E;
      [exfalso; revert E; apply firstn_nonnil; [discriminate | exact Hr]|].
    unfold ceiling_of. rewrite ltb_ceiling by (discriminate || exact Hr).
    destruct (N.eqb _ 0); [|reflexivity].
    cbn [rbind Builtins.sorted Builtins.max fold_left Builtins.insert].
    now rewrite (init_raw _ _ Hc).
Qed.

Lemma C2_only_current_known_witness :
  _determine_latest_version "2.5.3" "patch" ["2.5.3"] = Ok "2.5.3".
Proof.
  apply (C2_only_current_known "2.5.3" "patch"
           (Version.Build (release_only [2; 5; 3]%N) "2.5.3") 2);
    vm_compute; reflexivity.
Defined.

(** C2 as stated fails: for each target field the resolver returns the
    current version instead of raising. *)
Lemma C2_counterexample :
  _determine_latest_version "2.5.3" "major" ["2.5.3"] = Ok "2.5.3"
  /\ _determine_latest_version "2.5.3" "minor" ["2.5.3"] = Ok "2.5.3"
  /\ _determine_latest_version "2.5.3" "patch" ["2.5.3"] = Ok "2.5.3".
Proof. repeat split; vm_compute; reflexivity. Qed.

(** C6 (as amended): with target major there is no upper bound: every
    known version that parses and is not a pre-release is eligible,
    whatever its major component, and the resolver returns the largest
    of them; it raises only when there is none. *)
Theorem C6_major_no_ceiling :
  forall current versions cv,
    Version.__init__ current = Ok cv ->
    match _determine_latest_version current "major" versions with
    | Ok r => is_maximum (fun v => final v = true) versions r
    | Raise e =>
        exn_cls e = ValueError
        /\ forall w, known versions w -> final w = false
    end.
Proof.
  intros current versions cv Hc.
  pose proof (resolve_spec current "major" versions cv 0 None Hc
                eq_refl eq_refl) as H.
  destruct (_determine_latest_version current "major" versions) as [r|e].
  - eapply is_maximum_ext; [|exact H]. intros v. unfold eligible. tauto.
  - destruct H as [Hcls Hno]. split; [exact Hcls|].
    intros w Hw. destruct (final w) eqn:Hf; [|reflexivity].
    exfalso. apply (Hno w Hw). unfold eligible. auto.
Qed.

Lemma C6_major_no_ceiling_witness :
  is_maximum (fun v => final v = true) ["2.5.4"; "31.0"; "4.1"] "31.0".
Proof.
  pose proof (C6_major_no_ceiling "2.5.3" ["2.5.4"; "31.0"; "4.1"]
                (Version.Build (release_only [2; 5; 3]%N) "2.5.3")) as H.
  assert (E : _determine_latest_version "2.5.3" "major"
                ["2.5.4"; "31.0"; "4.1"] = Ok "31.0")
    by (vm_compute; reflexivity).
  rewrite E in H. apply H. vm_compute. reflexivity.
Defined.

(** C6 as stated fails: a known version that parses and has a strictly
    greater major component can exceed what the resolver returns. *)
Lemma C6_counterexample :
  exists cv v w,
    Version.__init__ "1.0" = Ok cv
    /\ _determine_latest_version "1.0" "major" ["2.0"; "3.0rc1"]
       = Ok (Version.raw_version v)
    /\ known ["2.0"; "3.0rc1"] v
    /\ known ["2.0"; "3.0rc1"] w
    /\ (major_of cv < major_of w)%N
    /\ ltb v w = true.
Proof.
  exists (Version.Build (release_only [1; 0]%N) "1.0").
  exists (Version.Build (release_only [2; 0]%N) "2.0").
  exists (Version.Build
            (Packaging.Build_Version 0 [3; 0]%N None (Some ("rc", 1%N))
               None None) "3.0rc1").
  repeat split; try (vm_compute; reflexivity); vm_compute; auto.
Qed.

(** C7: strings that do not parse as versions are dropped: what the
    resolver returns is one of the known strings and parses, and the
    resolver gives the same result, or raises the same exception, with
    the unparsable strings removed. *)
Theorem C7_unparsable_dropped :
  forall current target versions,
    (forall r, _determine_latest_version current target versions = Ok r ->
               In r versions /\ parses r = true)
    /\ _determine_latest_version current target versions
       = _determine_latest_version current target (filter parses versions)
    /\ parses "not-a-version" = false.
Proof.
  intros current target versions. split; [|split].
  - intros r E. apply resolve_known in E.
    destruct E as (v & [Hin Hv] & <-). split; [exact Hin|].
    eapply init_parses; eauto.
  - unfold _determine_latest_version. now rewrite parse_filter_parses.
  - vm_compute. reflexivity.
Qed.

Lemma C7_unparsable_dropped_witness :
  In "2.6.0" ["2.5.4"; "not-a-version"; "2.6.0"] /\ parses "2.6.0" = true.
Proof.
  apply (proj1 (C7_unparsable_dropped "2.5.3" "minor"
                  ["2.5.4"; "not-a-version"; "2.6.0"])).
  vm_compute. reflexivity.
Defined.

(** C8 (as amended): versions are ordered by the full key: first the
    epoch, then the release vectors, component by component with missing
    trailing components read as 0, then the key of the pre, post, dev
    and local segments.  So with equal epochs the release decides
    wherever the padded vectors differ, whatever the other segments are;
    where they are equal the segments decide; and versions that agree in
    epoch and segments compare as their release vectors do, whatever the
    raw text, so the version of 1.2 equals that of 1.2.0 in the
    ordering. *)
Theorem C8_order_by_padded_release :
  (forall a b va vb,
     Packaging.Version a = Some va ->
     Packaging.Version b = Some vb ->
     cmp va vb
     = lex (cmp (Packaging.epoch va) (Packaging.epoch vb))
         (lex (padded_cmp (Packaging.release va) (Packaging.release vb))
            (cmp (segments_key va) (segments_key vb)))
     /\ (ltb va vb = true
         <-> (Packaging.epoch va < Packaging.epoch vb)%N
             \/ (Packaging.epoch va = Packaging.epoch vb
                 /\ padded_cmp (Packaging.release va) (Packaging.release vb)
                    = Lt)
             \/ (Packaging.epoch va = Packaging.epoch vb
                 /\ padded_cmp (Packaging.release va) (Packaging.release vb)
                    = Eq
                 /\ ltb (segments_key va) (segments_key vb) = true))
     /\ (Packaging.epoch va = Packaging.epoch vb ->
         padded_cmp (Packaging.release va) (Packaging.release vb) <> Eq ->
         cmp va vb = padded_cmp (Packaging.release va) (Packaging.release vb))
     /\ (Packaging.epoch va = Packaging.epoch vb ->
         Packaging.pre va = Packaging.pre vb ->
         Packaging.post va = Packaging.post vb ->
         Packaging.dev va = Packaging.dev vb ->
         Packaging.local va = Packaging.local vb ->
         cmp va vb = padded_cmp (Packaging.release va) (Packaging.release vb)
         /\ (ltb va vb = true
             <-> padded_cmp (Packaging.release va) (Packaging.release vb)
                 = Lt)))
  /\ (exists va vb,
        Packaging.Version "1.2" = Some va
        /\ Packaging.Version "1.2.0" = Some vb
        /\ cmp va vb = Eq).
Proof.
  split.
  - intros a b va vb _ _.
    assert (K : cmp va vb
                = lex (cmp (Packaging.epoch va) (Packaging.epoch vb))
                    (lex (padded_cmp (Packaging.release va)
                            (Packaging.release vb))
                       (cmp (segments_key va) (segments_key vb)))).
    { rewrite cmp_version, (key_unfold va), (key_unfold vb).
      unfold Packaging.CmpKey. rewrite !cmp_pair.
      now rewrite strip_padded. }
    split; [exact K|]. split; [|split].
    + unfold ltb at 1. rewrite K. unfold ltb.
      unfold cmp at 1, N_Cmp.
      destruct (N.compare_spec (Packaging.epoch va) (Packaging.epoch vb))
        as [E|L|G]; cbn [lex].
      * destruct (padded_cmp _ _); cbn [lex].
        -- destruct (cmp (segments_key va) (segments_key vb));
             split; try tauto; try discriminate;
             intros [H|[[_ H]|(_ & _ & H)]]; try discriminate; lia.
        -- split; [tauto|reflexivity].
        -- split; [discriminate|].
           intros [H|[[_ H]|(_ & H & _)]]; try discriminate; lia.
      * split; [tauto | reflexivity].
      * split; [discriminate|].
        intros [H|[[H _]|(H & _)]]; lia.
    + intros He Hr. rewrite K, He, cmp_refl. cbn [lex].
      destruct (padded_cmp _ _); [congruence | reflexivity | reflexivity].
    + intros He Hp Hpo Hd Hl.
      pose proof (cmp_same_segments va vb He Hp Hpo Hd Hl) as E.
      split; [exact E|]. unfold ltb. rewrite E.
      destruct (padded_cmp _ _); split; congruence.
  - exists (release_only [1; 2]%N), (release_only [1; 2; 0]%N).
    repeat split; vm_compute; reflexivity.
Qed.

Lemma C8_order_by_padded_release_witness :
  cmp (Packaging.Build_Version 0 [1; 0]%N None (Some ("a", 1%N)) None None)
      (Packaging.Build_Version 0 [1; 1]%N None None (Some ("post", 2%N)) None)
  = padded_cmp [1; 0]%N [1; 1]%N.
Proof.
  destruct (proj1 C8_order_by_padded_release "1.0a1" "1.1.post2"
              (Packaging.Build_Version 0 [1; 0]%N None (Some ("a", 1%N))
                 None None)
              (Packaging.Build_Version 0 [1; 1]%N None None
                 (Some ("post", 2%N)) None))
    as (_ & _ & H & _).
  - vm_compute. reflexivity.
  - vm_compute. reflexivity.
  - apply H.
    + reflexivity.
    + vm_compute. discriminate.
Defined.

(** C8 as stated fails: a pre-release sorts before the final release
    with the same release vector. *)
Lemma C8_counterexample :
  exists va vb,
    Packaging.Version "1.0a1" = Some va
    /\ Packaging.Version "1.0" = Some vb
    /\ ltb va vb = true
    /\ padded_cmp (Packaging.release va) (Packaging.release vb) = Eq.
Proof.
  exists (Packaging.Build_Version 0 [1; 0]%N None (Some ("a", 1%N)) None None).
  exists (release_only [1; 0]%N).
  repeat split; vm_compute; reflexivity.
Qed.

Module ExtractFacts.

Section Run.
Context {R : Type}.
Implicit Types (k : string -> captures -> option R).

Lemma run_lit_inv l s c k x :
  run (Lit l) s c k = Some x -> exists s', s = l ++ s' /\ k s' c = Some x.
Proof.
  rewrite run_lit. destruct (strip_prefix l s) as [s'|] eqn:E; [|discriminate].
  apply strip_prefix_spec in E. eauto.
Qed.

Lemma run_star_chr_inv p : forall s c k x,
  run (Star (Chr p)) s c k = Some x ->
  exists ws s', s = ws ++ s' /\ Py.string_forallb p ws = true
                /\ k s' c = Some x.
Proof.
  induction s as [|a s IH]; intros c k x; rewrite run_star.
  - rewrite run_chr_outside by exact I. intros E. exists "", "". auto.
  - rewrite run_chr_cons. destruct (p a) eqn:Ha.
    + change (String.length (String a s)) with (S (String.length s)).
      destruct (Nat.ltb_spec (String.length s) (S (String.length s))); [|lia].
      destruct (run (Star (Chr p)) s c k) as [y|] eqn:E.
      * intros [= <-]. apply IH in E. destruct E as (ws & s' & -> & Hws & Hk).
        exists (String a ws), s'. cbn [append Py.string_forallb].
        rewrite Ha, Hws. auto.
      * intros Hk. exists "", (String a s). auto.
    + intros Hk. exists "", (String a s). auto.
Qed.

Lemma run_plus_chr_inv p s c k x :
  run (Plus (Chr p)) s c k = Some x ->
  exists ws s', s = ws ++ s' /\ ws <> "" /\ Py.string_forallb p ws = true
                /\ k s' c = Some x.
Proof.
  unfold Plus. rewrite run_cat. destruct s as [|a s]; [discriminate|].
  rewrite run_chr_cons. destruct (p a) eqn:Ha; [|discriminate].
  intros E. apply run_star_chr_inv in E. destruct E as (ws & s' & -> & Hws & Hk).
  exists (String a ws), s'. cbn [append Py.string_forallb]. rewrite Ha, Hws.
  repeat split; auto. discriminate.
Qed.

End Run.

(** Every match found by the scan starts somewhere in the text. *)
Lemma scan_In r c : forall s skip,
  In c (scan r s skip) ->
  exists before found rest,
    s = before ++ found /\ re_match r found = Some (rest, c).
Proof.
  assert (shift : forall a s,
            (exists before found rest,
               s = before ++ found /\ re_match r found = Some (rest, c)) ->
            exists before found rest,
              String a s = before ++ found
              /\ re_match r found = Some (rest, c)).
  { intros a s (b & f & rest & -> & E). exists (String a b), f, rest. auto. }
  induction s as [|a s IH]; intros skip.
  - destruct skip as [|k]; cbn [scan]; [|intros []].
    destruct (re_match r "") as [[rest c']|] eqn:E; [|intros []].
    intros [<-|[]]. exists "", "", rest. auto.
  - destruct skip as [|k]; cbn [scan].
    + destruct (re_match r (String a s)) as [[rest c']|] eqn:E.
      * intros [<-|H]; [exists "", (String a s), rest; auto|].
        apply shift. eapply IH; eauto.
      * intros H. apply shift. eapply IH; eauto.
    + intros H. apply shift. eapply IH; eauto.
Qed.

(** What a match of the attribute pattern looks like. *)
Lemma attribute_match attribute found rest c :
  re_match (attribute_regex attribute) found = Some (rest, c) ->
  exists ws1 ws2 tail,
    found = attribute ++ ws1 ++ "=" ++ ws2 ++ dquote ++ tail
    /\ blank ws1 /\ blank ws2.
Proof.
  unfold re_match, attribute_regex. rewrite run_cat. intros E.
  apply run_lit_inv in E. destruct E as (s1 & -> & E).
  rewrite run_cat in E. apply run_plus_chr_inv in E.
  destruct E as (ws1 & s2 & -> & N1 & B1 & E).
  rewrite run_cat in E. apply run_lit_inv in E. destruct E as (s3 & -> & E).
  rewrite run_cat in E. apply run_plus_chr_inv in E.
  destruct E as (ws2 & s4 & -> & N2 & B2 & E).
  rewrite run_cat in E. apply run_lit_inv in E. destruct E as (s5 & -> & E).
  exists ws1, ws2, s5. unfold blank. auto.
Qed.

Lemma get_values_In attribute text value :
  In value (_get_values attribute text) ->
  exists before ws1 ws2 tail,
    text = before ++ attribute ++ ws1 ++ "=" ++ ws2 ++ dquote ++ tail
    /\ blank ws1 /\ blank ws2.
Proof.
  unfold _get_values, findall. rewrite in_map_iff.
  intros (c & _ & Hc). apply scan_In in Hc.
  destruct Hc as (before & found & rest & -> & E).
  apply attribute_match in E. destruct E as (ws1 & ws2 & tail & -> & B1 & B2).
  exists before, ws1, ws2, tail. auto.
Qed.

Lemma unique_too_many attribute text :
  1 < List.length (_get_values attribute text) ->
  _get_unique_value attribute text
  = Raise (Exn ValueError ("found too many values for " ++ attribute)).
Proof.
  intros H. unfold _get_unique_value.
  destruct (Nat.ltb_spec 1 (List.length (_get_values attribute text)));
    [reflexivity | lia].
Qed.

Lemma unique_none attribute text :
  List.length (_get_values attribute text) = 0 ->
  _get_unique_value attribute text
  = Raise (Exn ValueError ("no value found for " ++ attribute)).
Proof. intros H. unfold _get_unique_value. now rewrite H. Qed.

End ExtractFacts.
Import ExtractFacts.

(** C10: a declaration is matched only where white space stands between
    the attribute name and the equals sign and between the equals sign and
    the opening quote; a text without those blanks has no match and the
    extraction raises for a missing attribute. *)
Theorem C10_whitespace_required :
  (forall attribute text value,
     plain_name attribute = true ->
     In value (_get_values attribute text) ->
     exists before ws1 ws2 tail,
       text = before ++ attribute ++ ws1 ++ "=" ++ ws2 ++ dquote ++ tail
       /\ blank ws1 /\ blank ws2)
  /\ _get_values "pname" ("pname=" ++ dquote ++ "x" ++ dquote ++ ";") = []
  /\ _get_unique_value "pname" ("pname=" ++ dquote ++ "x" ++ dquote ++ ";")
     = Raise (Exn ValueError "no value found for pname").
Proof.
  split; [|split; vm_compute; reflexivity].
  intros attribute text value _. apply get_values_In.
Qed.

Lemma C10_whitespace_required_witness :
  exists before ws1 ws2 tail,
    declaration "pname" "foo"
    = before ++ "pname" ++ ws1 ++ "=" ++ ws2 ++ dquote ++ tail
    /\ blank ws1 /\ blank ws2.
Proof.
  apply (proj1 C10_whitespace_required "pname" (declaration "pname" "foo")
           "foo").
  - vm_compute. reflexivity.
  - vm_compute. auto.
Defined.

(** C4 (code at the failing input): two declarations of the attribute on
    one line are one greedy match, so the extraction returns a value
    instead of raising; on two lines it raises.  The count rule itself
    holds: more than one match raises, no match raises. *)
Theorem C4_duplicate_on_one_line :
  _get_unique_value "pname"
    (declaration "pname" "foo" ++ " " ++ declaration "pname" "bar")
  = Ok ("foo" ++ dquote ++ "; pname = " ++ dquote ++ "bar")
  /\ _get_unique_value "pname"
       (declaration "pname" "foo" ++ newline ++ declaration "pname" "bar")
     = Raise (Exn ValueError "found too many values for pname")
  /\ _get_unique_value "pname" (declaration "other" "x")
     = Raise (Exn ValueError "no value found for pname")
  /\ (forall attribute text,
        (1 < List.length (_get_values attribute text) ->
         _get_unique_value attribute text
         = Raise (Exn ValueError ("found too many values for " ++ attribute)))
        /\ (List.length (_get_values attribute text) = 0 ->
            _get_unique_value attribute text
            = Raise (Exn ValueError ("no value found for " ++ attribute)))).
Proof.
  split; [vm_compute; reflexivity|].
  split; [vm_compute; reflexivity|].
  split; [vm_compute; reflexivity|].
  intros attribute text. split; [apply unique_too_many | apply unique_none].
Qed.

Lemma C4_duplicate_on_one_line_witness :
  _get_unique_value "pname"
    (declaration "pname" "foo" ++ newline ++ declaration "pname" "bar")
  = Raise (Exn ValueError "found too many values for pname").
Proof.
  apply (proj1 (proj2 (proj2 (proj2 C4_duplicate_on_one_line)) "pname"
           (declaration "pname" "foo" ++ newline ++ declaration "pname" "bar"))).
  vm_compute. lia.
Defined.

Module PipelineFacts.

Lemma bind_ok_inv {A B} (m : M A) (f : A -> M B) w b t :
  bind m f w = (Ok b, t) ->
  exists a t1 t2, m w = (Ok a, t1) /\ f a w = (Ok b, t2) /\ t = (t1 ++ t2)%list.
Proof.
  unfold bind. destruct (m w) as [[a|e] t1]; [|discriminate].
  destruct (f a w) as [r t2] eqn:E. intros [= -> <-]. eauto 6.
Qed.

Lemma safe_bind {A B} (m : M A) (f : A -> M B) w :
  safe m w -> (forall a t, m w = (Ok a, t) -> safe (f a) w) ->
  safe (bind m f) w.
Proof.
  intros Hm Hf e t. unfold bind. destruct (m w) as [[a|e'] t1] eqn:E.
  - destruct (f a w) as [r t2] eqn:E2. intros [= -> <-].
    eapply Hf; eauto.
  - intros [= <- <-]. eapply Hm; eauto.
Qed.

Lemma safe_ret {A} (a : A) w : safe (ret a) w.
Proof. intros e t. discriminate. Qed.

Lemma safe_emit ev w : safe (emit ev) w.
Proof. intros e t. discriminate. Qed.

Lemma safe_lift {A} (r : result A) w :
  (forall e, r = Raise e -> isinstance_ValueError e = true) -> safe (lift r) w.
Proof. intros H e t [= -> _]. now apply H. Qed.

Lemma safe_ask {A} (f : world -> result A) w :
  (forall e, f w = Raise e -> isinstance_ValueError e = true) -> safe (ask f) w.
Proof. intros H e t. unfold ask. intros [= E _]. now apply H. Qed.

Lemma safe_raise {A} e w :
  isinstance_ValueError e = true -> safe (@raise A e) w.
Proof. intros H e' t [= <- _]. exact H. Qed.

Lemma lift_ok_inv {A} (r : result A) w a t :
  lift r w = (Ok a, t) -> r = Ok a.
Proof. now intros [= -> _]. Qed.

Lemma unique_raise attribute text e :
  _get_unique_value attribute text = Raise e -> isinstance_ValueError e = true.
Proof.
  unfold _get_unique_value.
  destruct (Nat.ltb _ _); [now intros [= <-]|].
  destruct (Nat.eqb _ _); [discriminate | now intros [= <-]].
Qed.

Lemma init_raise s e :
  Version.__init__ s = Raise e -> isinstance_ValueError e = true.
Proof.
  unfold Version.__init__. destruct (Packaging.Version s); [discriminate|].
  now intros [= <-].
Qed.

(** With a valid target the resolver raises nothing but [ValueError]s. *)
Lemma resolve_raise current target versions index e :
  dict_get SEMVER target = Ok index ->
  _determine_latest_version current target versions = Raise e ->
  isinstance_ValueError e = true.
Proof.
  intros Ht. destruct (Version.__init__ current) as [cv|e'] eqn:Hc.
  - pose proof (resolve_spec current target versions cv index _ Hc Ht eq_refl)
      as H.
    intros E. rewrite E in H. destruct H as [Hcls _].
    unfold isinstance_ValueError. now rewrite Hcls.
  - rewrite (resolve_raise_init _ _ _ _ Hc). intros [= <-].
    eapply init_raise; eauto.
Qed.

Lemma resolve_parses_current current target versions r :
  _determine_latest_version current target versions = Ok r ->
  exists cv, Version.__init__ current = Ok cv.
Proof.
  destruct (Version.__init__ current) as [cv|e] eqn:Hc; [eauto|].
  now rewrite (resolve_raise_init _ _ _ _ Hc).
Qed.

Lemma dict_get_In {A} (d : list (string * A)) key :
  In key (map fst d) -> exists v, dict_get d key = Ok v.
Proof.
  induction d as [|[k v] d IH]; cbn [map fst In dict_get]; [intros []|].
  destruct (String.eqb_spec k key) as [->|N]; [eauto|].
  intros [E|H]; [congruence | auto].
Qed.

(** What [_check_pypi] returns was resolved from the declared version. *)
Lemma check_pypi_ok package current target w r t :
  _check_pypi package current target w = (Ok r, t) ->
  exists versions, _determine_latest_version current target versions = Ok r.
Proof.
  unfold _check_pypi. intros E.
  apply bind_ok_inv in E. destruct E as (j & t1 & t2 & _ & E & _).
  apply bind_ok_inv in E. destruct E as (rel & t3 & t4 & _ & E & _).
  apply bind_ok_inv in E. destruct E as (vs & t5 & t6 & _ & E & _).
  apply bind_ok_inv in E. destruct E as (v & t7 & t8 & Hv & E & _).
  apply lift_ok_inv in Hv. exists vs.
  destruct (json_getitem rel v) as [x|e].
  - injection E as <- _. exact Hv.
  - destruct (exn_cls e); discriminate.
Qed.

Lemma safe_fetch_page url w : only_value_errors w -> safe (_fetch_page url) w.
Proof.
  intros (_ & Hget & Hjson & _). unfold _fetch_page.
  apply safe_bind; [apply safe_emit|]. intros _ _ _.
  apply safe_bind; [apply safe_ask; intros e; apply Hget|].
  intros r t Hr. unfold ask in Hr. injection Hr as Hr _.
  destruct (Nat.eqb (status_code r) 200).
  - apply safe_lift. intros e. now apply (Hjson url).
  - now apply safe_raise.
Qed.

Lemma fetch_page_ok url w j t :
  only_value_errors w -> _fetch_page url w = (Ok j, t) ->
  exists members rel,
    j = JObject members /\ dict_get members "releases" = Ok (JObject rel).
Proof.
  intros (_ & _ & _ & Hshape & _) E. unfold _fetch_page in E.
  apply bind_ok_inv in E. destruct E as (u & t1 & t2 & _ & E & _).
  apply bind_ok_inv in E. destruct E as (r & t3 & t4 & Hr & E & _).
  unfold ask in Hr. injection Hr as Hr _.
  destruct (Nat.eqb_spec (status_code r) 200) as [Hs|_]; [|discriminate].
  apply lift_ok_inv in E. eapply Hshape; eauto.
Qed.

Lemma safe_check_pypi package current target index w :
  only_value_errors w -> dict_get SEMVER target = Ok index ->
  safe (_check_pypi package current target) w.
Proof.
  intros Hw Ht. unfold _check_pypi.
  apply safe_bind; [now apply safe_fetch_page|]. intros j t Hj.
  destruct (fetch_page_ok _ _ _ _ Hw Hj) as (members & rel & -> & Hrel).
  cbn [json_getitem]. rewrite Hrel.
  apply safe_bind; [apply safe_lift; discriminate|]. intros rel' t1 E1.
  apply lift_ok_inv in E1. injection E1 as <-.
  cbn [json_keys].
  apply safe_bind; [apply safe_lift; discriminate|]. intros vs t2 E2.
  apply lift_ok_inv in E2. injection E2 as <-.
  apply safe_bind.
  { apply safe_lift. intros e. now apply (resolve_raise _ _ _ _ _ Ht). }
  intros v t3 E3. apply lift_ok_inv in E3.
  apply resolve_known in E3. destruct E3 as (x & [Hin _] & Hx).
  rewrite Hx in Hin. destruct (dict_get_In rel v Hin) as [y Hy].
  cbn [json_getitem]. rewrite Hy. apply safe_ret.
Qed.

(** Processing one package raises nothing but [ValueError]s. *)
Lemma safe_print_new_version path target drv index w :
  only_value_errors w -> dict_get SEMVER target = Ok index ->
  safe (_print_new_version path target drv) w.
Proof.
  intros Hw Ht. pose proof Hw as (Hread & _ & _ & _ & Hsh).
  unfold _print_new_version.
  apply safe_bind; [apply safe_ask; intros e; apply Hread|]. intros text _ _.
  apply safe_bind; [apply safe_lift; intros e; apply unique_raise|].
  intros pname _ _.
  apply safe_bind; [apply safe_lift; intros e; apply unique_raise|].
  intros version _ _.
  apply safe_bind; [eapply safe_check_pypi; eauto|]. intros nv _ _.
  destruct (String.eqb nv version).
  - apply safe_bind; [apply safe_emit|]. intros. apply safe_ret.
  - apply safe_bind; [apply safe_lift; intros e; apply init_raise|].
    intros new _ _.
    apply safe_bind; [apply safe_lift; intros e; apply init_raise|].
    intros old _ _.
    destruct (leb new old); [now apply safe_raise|].
    apply safe_bind; [apply safe_emit|]. intros _ _ _.
    apply safe_bind; [apply safe_ask; intros e; apply Hsh|]. intros out _ _.
    destruct (Nat.eqb _ 0); [apply safe_ret|].
    apply safe_bind; [apply safe_emit|]. intros. apply safe_ret.
Qed.

(** So [_update] returns. *)
Lemma update_returns path target drv index w :
  only_value_errors w -> dict_get SEMVER target = Ok index ->
  exists b t, _update path target drv w = (Ok b, t).
Proof.
  intros Hw Ht. unfold _update.
  set (p := if isdir w path then path_join path "default.nix" else path).
  destruct (negb (isfile w p)); [cbv; eauto|].
  destruct (negb (endswith p ".nix")); [cbn; eauto|].
  unfold try_except_ValueError.
  pose proof (safe_print_new_version p target drv index w Hw Ht) as Hs.
  unfold bind at 1.
  destruct (_print_new_version p target drv w) as [[r|e] t] eqn:E.
  - cbn. eauto.
  - rewrite (Hs e t E). cbn. eauto.
Qed.

Lemma pool_map_returns {A B} (f : A -> M B) w l :
  (forall x, exists b t, f x w = (Ok b, t)) ->
  exists results t,
    pool_map f l w = (Ok results, t)
    /\ List.length results = List.length l.
Proof.
  intros Hf. induction l as [|x l (rs & t & E & Hlen)]; cbn [pool_map].
  - exists [], []. auto.
  - destruct (Hf x) as (b & t1 & Hx). unfold bind at 1. rewrite Hx.
    unfold bind at 1. rewrite E. cbn.
    eexists (b :: rs), _. split; [reflexivity|]. cbn. now rewrite Hlen.
Qed.

End PipelineFacts.
Import PipelineFacts.

(** C3 (code at the failing input): a package that is already at the
    latest version emits no report line, yet the summary counts it as
    updated. *)
Theorem C3_noop_counted_as_updated :
  main ["/pkgs/foo.nix"] "major" "/cache/drv_names.txt"
    (one_file_world "/pkgs/foo.nix" (expression "foo" "1.0.0")
       (Ok (registry_reply ["0.9.0"; "1.0.0"])) "")
  = (Ok tt,
     [LogInfo "Updating packages...";
      HttpGet "https://pypi.io/pypi/foo/json";
      LogInfo "Path /pkgs/foo.nix: already at latest version for: foo.";
      LogInfo "Finished updating packages.";
      LogInfo "Checked 1 packages, 1 updated";
      LogInfo "########## END OF NIXPKGS_UPDATE_PYPI_RELEASES ##########"]).
Proof. vm_compute. reflexivity. Qed.

(** The steps of [_print_new_version] up to the resolved version. *)
Ltac run_prefix Hread Hp Hv Hcheck :=
  unfold _print_new_version;
  unfold bind at 1; unfold ask at 1; rewrite Hread;
  unfold bind at 1; unfold lift at 1; rewrite Hp;
  unfold bind at 1; unfold lift at 1; rewrite Hv;
  unfold bind at 1; rewrite Hcheck.

(** C5 (as amended): once the resolver has returned, the package is a
    no-op when the resolved text equals the declared text; it fails as a
    downgrade exactly when the texts differ and the resolved version is
    not greater than the declared one in the version ordering (equal in
    the ordering included); otherwise processing goes on to the
    inventory lookup. *)
Theorem C5_version_gate :
  forall w path target drv text pname version new_version t0,
    read_text w path = Ok text ->
    _get_unique_value "pname" text = Ok pname ->
    _get_unique_value "version" text = Ok version ->
    _check_pypi pname version target w = (Ok new_version, t0) ->
    exists new old,
      Version.__init__ new_version = Ok new
      /\ Version.__init__ version = Ok old
      /\ if String.eqb new_version version then
           _print_new_version path target drv w
           = (Ok (Some false),
              (t0 ++ [LogInfo ("Path " ++ path
                               ++ ": already at latest version for: "
                               ++ pname ++ ".")])%list)
         else if leb new old then
           _print_new_version path target drv w
           = (Raise (Exn ValueError ("downgrade for " ++ pname ++ ".")), t0)
         else
           exists r t1,
             _print_new_version path target drv w
             = (r, (t0 ++ Exec (inventory_command drv pname version) :: t1)%list).
Proof.
  intros w path target drv text pname version nv t0 Hread Hp Hv Hcheck.
  destruct (check_pypi_ok _ _ _ _ _ _ Hcheck) as (versions & Hres).
  destruct (resolve_known _ _ _ _ Hres) as (new & [_ Hnew] & Hraw).
  rewrite Hraw in Hnew.
  destruct (resolve_parses_current _ _ _ _ Hres) as (old & Hold).
  exists new, old. split; [exact Hnew|]. split; [exact Hold|].
  destruct (String.eqb nv version) eqn:Eeq.
  - run_prefix Hread Hp Hv Hcheck. rewrite Eeq. reflexivity.
  - destruct (leb new old) eqn:Ele.
    + run_prefix Hread Hp Hv Hcheck. rewrite Eeq.
      unfold bind at 1. unfold lift at 1. rewrite Hnew.
      unfold bind at 1. unfold lift at 1. rewrite Hold.
      rewrite Ele. cbn. now rewrite app_nil_r.
    + run_prefix Hread Hp Hv Hcheck. rewrite Eeq.
      unfold bind at 1. unfold lift at 1. rewrite Hnew.
      unfold bind at 1. unfold lift at 1. rewrite Hold.
      rewrite Ele. unfold bind at 1. cbn [emit].
      match goal with
      | |- context [bind (ask ?f) ?k w] =>
          destruct (bind (ask f) k w) as [r t1]
      end.
      exists r, t1. reflexivity.
Qed.

Lemma C5_version_gate_witness :
  _print_new_version "/pkgs/foo.nix" "minor" "/cache/drv_names.txt"
    (one_file_world "/pkgs/foo.nix" (expression "foo" "1.0.0")
       (Ok (registry_reply ["1.0.0"; "0.9.0"])) "")
  = (Ok (Some false),
     [HttpGet "https://pypi.io/pypi/foo/json";
      LogInfo "Path /pkgs/foo.nix: already at latest version for: foo."]).
Proof.
  destruct (C5_version_gate
              (one_file_world "/pkgs/foo.nix" (expression "foo" "1.0.0")
                 (Ok (registry_reply ["1.0.0"; "0.9.0"])) "")
              "/pkgs/foo.nix" "minor" "/cache/drv_names.txt"
              (expression "foo" "1.0.0") "foo" "1.0.0" "1.0.0"
              [HttpGet "https://pypi.io/pypi/foo/json"])
    as (new & old & _ & _ & H).
  - vm_compute. reflexivity.
  - vm_compute. reflexivity.
  - vm_compute. reflexivity.
  - vm_compute. reflexivity.
  - exact H.
Defined.

(** C5 as stated fails: a resolved version equal to the declared one in
    the ordering, but written differently, is a downgrade failure and not
    a no-op. *)
Lemma C5_counterexample :
  exists new old,
    Version.__init__ "1.2.0" = Ok new
    /\ Version.__init__ "1.2" = Ok old
    /\ cmp new old = Eq
    /\ _determine_latest_version "1.2" "major" ["1.2.0"] = Ok "1.2.0"
    /\ _print_new_version "/pkgs/foo.nix" "major" "/cache/drv_names.txt"
         (one_file_world "/pkgs/foo.nix" (expression "foo" "1.2")
            (Ok (registry_reply ["1.2.0"])) "")
       = (Raise (Exn ValueError "downgrade for foo."),
          [HttpGet "https://pypi.io/pypi/foo/json"]).
Proof.
  exists (Version.Build (release_only [1; 2; 0]%N) "1.2.0").
  exists (Version.Build (release_only [1; 2]%N) "1.2").
  repeat split; vm_compute; reflexivity.
Qed.

(** C9 (as amended): when the collaborators raise nothing but
    [ValueError]s (extraction errors, a fetch that is refused, an invalid
    or missing version and a downgrade are raised as such by the program
    itself), every package of the batch is processed and yields a result,
    and the run ends with success, however many packages failed. *)
Theorem C9_value_errors_isolated :
  forall w packages target drv index,
    only_value_errors w ->
    dict_get SEMVER target = Ok index ->
    exists results t,
      pool_map (fun pkg => _update pkg target drv) packages w = (Ok results, t)
      /\ List.length results = List.length packages
      /\ fst (main packages target drv w) = Ok tt.
Proof.
  intros w packages target drv index Hw Ht.
  destruct (pool_map_returns (fun pkg => _update pkg target drv) w packages)
    as (results & t & E & Hlen).
  { intros x. eapply update_returns; eauto. }
  exists results, t. split; [exact E|]. split; [exact Hlen|].
  unfold main. unfold bind at 1. cbn [emit].
  unfold bind at 1. rewrite E. reflexivity.
Qed.

Lemma C9_value_errors_isolated_witness :
  fst (main ["/pkgs/foo.nix"; "/pkgs/missing.nix"; "/pkgs/foo.nix"] "minor"
         "/cache/drv_names.txt"
         (one_file_world "/pkgs/foo.nix" (expression "foo" "1.0.0")
            (Ok (Response 404 (Raise (Exn JSONDecodeError "no JSON")))) ""))
  = Ok tt.
Proof.
  destruct (C9_value_errors_isolated
              (one_file_world "/pkgs/foo.nix" (expression "foo" "1.0.0")
                 (Ok (Response 404 (Raise (Exn JSONDecodeError "no JSON")))) "")
              ["/pkgs/foo.nix"; "/pkgs/missing.nix"; "/pkgs/foo.nix"] "minor"
              "/cache/drv_names.txt" 1)
    as (results & t & _ & _ & H).
  - unfold only_value_errors, one_file_world.
    cbn [read_text requests_get check_output].
    split; [discriminate|]. split; [discriminate|].
    split; [intros u r e [= <-] [= <-]; reflexivity|].
    split; [intros u r j [= <-]; discriminate | discriminate].
  - reflexivity.
  - exact H.
Defined.

(** C9 as stated fails: an error that is not a [ValueError] (here the
    registry cannot be reached for the first package) leaves [_update]
    and the batch: the run ends with a failure and without its summary,
    although the second package on its own is processed and reported. *)
Lemma C9_counterexample :
  _update "/pkgs/foo.nix" "minor" "/cache/drv_names.txt" unreachable_world
  = (Raise (Exn ConnectionError "Max retries exceeded"),
     [HttpGet "https://pypi.io/pypi/foo/json"])
  /\ fst (main ["/pkgs/foo.nix"; "/pkgs/bar.nix"] "minor"
            "/cache/drv_names.txt" unreachable_world)
     = Raise (Exn ConnectionError "Max retries exceeded")
  /\ ~ In (LogInfo "Finished updating packages.")
          (snd (main ["/pkgs/foo.nix"; "/pkgs/bar.nix"] "minor"
                  "/cache/drv_names.txt" unreachable_world))
  /\ main ["/pkgs/bar.nix"] "minor" "/cache/drv_names.txt" unreachable_world
     = (Ok tt,
        [LogInfo "Updating packages...";
         HttpGet "https://pypi.io/pypi/bar/json";
         Exec "cat -- /cache/drv_names.txt | grep bar-1.0.0 | grep -v python2 | head -1";
         Print "bar 1.0.0 1.1.0 https://pypi.org/project/bar/";
         LogInfo "Finished updating packages.";
         LogInfo "Checked 1 packages, 1 updated";
         LogInfo "########## END OF NIXPKGS_UPDATE_PYPI_RELEASES ##########"]).
Proof.
  split; [vm_compute; reflexivity|].
  split; [vm_compute; reflexivity|].
  split; [|vm_compute; reflexivity].
  vm_compute. intros [H|[H|[]]]; discriminate H.
Qed.

(** * Further properties *)

Module ResolverFacts3.

Lemma version_leb_antisym (x y : Version.t) :
  leb x y = true -> leb y x = true -> cmp x y = Eq.
Proof.
  unfold leb.
  change (cmp y x) with (cmp (Packaging._key (Version._version y))
                             (Packaging._key (Version._version x))).
  change (cmp x y) with (cmp (Packaging._key (Version._version x))
                             (Packaging._key (Version._version y))).
  rewrite (cmp_antisym (Packaging._key (Version._version x))).
  destruct (cmp (Packaging._key (Version._version x)) _); simpl; congruence.
Qed.

Lemma version_ltb_leb_trans (x y z : Packaging._Version) :
  ltb x y = true -> leb y z = true -> ltb x z = true.
Proof.
  unfold ltb, leb.
  change (cmp x y) with (cmp (Packaging._key x) (Packaging._key y)).
  change (cmp y z) with (cmp (Packaging._key y) (Packaging._key z)).
  change (cmp x z) with (cmp (Packaging._key x) (Packaging._key z)).
  destruct (cmp (Packaging._key x) (Packaging._key y)) eqn:Exy;
    try discriminate. intros _.
  destruct (cmp (Packaging._key y) (Packaging._key z)) eqn:Eyz;
    try discriminate; intros _.
  - apply cmp_eq in Eyz. rewrite <- Eyz. now rewrite Exy.
  - now rewrite (cmp_trans _ _ _ Exy Eyz).
Qed.

Lemma max_raise_exact {A} `{Cmp A} (l : list A) e :
  Builtins.max l = Raise e ->
  e = Exn ValueError "max() arg is an empty sequence".
Proof. destruct l; simpl; [now intros [= <-] | discriminate]. Qed.

Lemma dict_get_raise {A} (d : list (string * A)) key e :
  dict_get d key = Raise e -> e = Exn KeyError key.
Proof.
  induction d as [|[k v] d IH]; cbn [dict_get]; [now intros [= <-]|].
  destruct (String.eqb k key); [discriminate | exact IH].
Qed.

Lemma init_raise_class s e :
  Version.__init__ s = Raise e -> exn_cls e = InvalidVersion.
Proof.
  unfold Version.__init__. destruct (Packaging.Version s); [discriminate|].
  now intros [= <-].
Qed.

(** The resolver's own failure is that of [max]. *)
Lemma resolve_raise_exact current target versions cv index e :
  Version.__init__ current = Ok cv ->
  dict_get SEMVER target = Ok index ->
  _determine_latest_version current target versions = Raise e ->
  e = Exn ValueError "max() arg is an empty sequence".
Proof.
  intros Hc Hi. rewrite (resolve_unfold _ _ _ _ _ Hc Hi).
  destruct (Builtins.max _) as [m|e'] eqn:E; cbn [rbind]; [discriminate|].
  intros [= <-]. eapply max_raise_exact; eauto.
Qed.

Lemma known_members versions versions' v :
  (forall s, In s versions <-> In s versions') ->
  known versions v -> known versions' v.
Proof. intros H [Hin Hv]. split; [now apply H | exact Hv]. Qed.

Lemma resolve_init r v : Version.__init__ r = Ok v ->
  Version.__init__ (Version.raw_version v) = Ok v.
Proof. intros H. now rewrite (init_raw _ _ H). Qed.

(** The patch ceiling is not above the minor ceiling. *)
Lemma ceiling_patch_minor cv s :
  Packaging.Version s = Some (Version._version cv) ->
  leb (ceiling_of cv 2) (ceiling_of cv 1) = true.
Proof.
  intros Hs. apply release_nonnil in Hs. unfold ceiling_of.
  destruct (Packaging.release (Version._version cv)) as [|a [|b l]];
    [congruence| |].
  - cbn [firstn incr_last]. apply (leb_refl (A := Packaging.CmpKey)).
  - cbn [firstn incr_last]. unfold leb.
    rewrite (cmp_same_segments (release_only [a; (b + 1)%N])
               (release_only [(a + 1)%N])) by reflexivity.
    rewrite padded_pcmp. cbn [release_only Packaging.release pcmp].
    assert (L : cmp a (a + 1)%N = Lt)
      by (unfold cmp, N_Cmp; apply N.compare_lt_iff; lia).
    now rewrite L.
Qed.

End ResolverFacts3.
Import ResolverFacts3.

(** X1: The resolver fails in exactly three ways, checked in this order: the
    current version does not parse ([InvalidVersion]), the target is no
    key of [SEMVER] ([KeyError]), or no known version is eligible (the
    [ValueError] of [max] on an empty sequence).  In every other case it
    returns the text of a largest eligible known version. *)
Theorem X1_resolve_outcome :
  forall current target versions,
    match _determine_latest_version current target versions with
    | Ok r =>
        exists cv index,
          Version.__init__ current = Ok cv
          /\ dict_get SEMVER target = Ok index
          /\ is_maximum (eligible (ceiling_for cv index)) versions r
    | Raise e =>
        (Version.__init__ current = Raise e /\ exn_cls e = InvalidVersion)
        \/ (exists cv,
              Version.__init__ current = Ok cv
              /\ dict_get SEMVER target = Raise e
              /\ e = Exn KeyError target)
        \/ (exists cv index,
              Version.__init__ current = Ok cv
              /\ dict_get SEMVER target = Ok index
              /\ e = Exn ValueError "max() arg is an empty sequence"
              /\ forall w, known versions w ->
                           ~ eligible (ceiling_for cv index) w)
    end.
Proof.
  intros current target versions.
  destruct (Version.__init__ current) as [cv|e] eqn:Hc.
  - destruct (dict_get SEMVER target) as [index|e] eqn:Ht.
    + pose proof (resolve_spec current target versions cv index _ Hc Ht
                    eq_refl) as H.
      destruct (_determine_latest_version current target versions)
        as [r|e] eqn:E.
      * exists cv, index. auto.
      * right. right. exists cv, index.
        split; [reflexivity|]. split; [reflexivity|].
        split; [eapply resolve_raise_exact; eauto | apply H].
    + rewrite (resolve_raise_target _ _ _ _ _ Hc Ht).
      right. left. exists cv. split; [reflexivity|]. split; [reflexivity|].
      eapply dict_get_raise; eauto.
  - rewrite (resolve_raise_init _ _ _ _ Hc). left.
    split; [reflexivity|]. eapply init_raise_class; eauto.
Qed.

(** X2: The resolver looks at the current version only through its release
    prefix of the target's length: two current versions that agree there
    give the same result; with target major every current version that
    parses gives the same result. *)
Theorem X2_resolve_prefix_only :
  forall current current' target versions cv cv' index,
    Version.__init__ current = Ok cv ->
    Version.__init__ current' = Ok cv' ->
    dict_get SEMVER target = Ok index ->
    firstn index (Packaging.release (Version._version cv))
    = firstn index (Packaging.release (Version._version cv')) ->
    _determine_latest_version current target versions
    = _determine_latest_version current' target versions.
Proof.
  intros current current' target versions cv cv' index Hc Hc' Hi E.
  rewrite (resolve_unfold _ _ _ _ _ Hc Hi), (resolve_unfold _ _ _ _ _ Hc' Hi).
  unfold candidates, ceiling_of. now rewrite E.
Qed.

Lemma X2_resolve_prefix_only_witness :
  _determine_latest_version "2.5.3" "minor" ["2.5.4"; "2.9.1"; "3.0"]
  = _determine_latest_version "2.9" "minor" ["2.5.4"; "2.9.1"; "3.0"].
Proof.
  apply (X2_resolve_prefix_only "2.5.3" "2.9" "minor" ["2.5.4"; "2.9.1"; "3.0"]
           (Version.Build (release_only [2; 5; 3]%N) "2.5.3")
           (Version.Build (release_only [2; 9]%N) "2.9") 1);
    vm_compute; reflexivity.
Defined.

(** X3: The result does not depend on the order or on repetitions of the
    known versions, up to equality in the version ordering: two lists with
    the same members give results whose versions compare equal, or the
    same exception.  The text can differ, as for 1.2 and 1.2.0. *)
Theorem X3_resolve_same_members :
  (forall current target versions versions',
     (forall s, In s versions <-> In s versions') ->
     match _determine_latest_version current target versions,
           _determine_latest_version current target versions' with
     | Ok r, Ok r' => version_eq r r'
     | Raise e, Raise e' => e = e'
     | _, _ => False
     end)
  /\ _determine_latest_version "1.0" "major" ["1.2"; "1.2.0"] = Ok "1.2"
  /\ _determine_latest_version "1.0" "major" ["1.2.0"; "1.2"] = Ok "1.2.0".
Proof.
  split; [|split; vm_compute; reflexivity].
  intros current target versions versions' Hm.
  assert (Hm' : forall s, In s versions' <-> In s versions)
    by (intros s; symmetry; apply Hm).
  destruct (Version.__init__ current) as [cv|e] eqn:Hc;
    [|now rewrite !(resolve_raise_init _ _ _ _ Hc)].
  destruct (dict_get SEMVER target) as [index|e] eqn:Ht;
    [|now rewrite !(resolve_raise_target _ _ _ _ _ Hc Ht)].
  pose proof (resolve_spec current target versions cv index _ Hc Ht eq_refl)
    as H.
  pose proof (resolve_spec current target versions' cv index _ Hc Ht eq_refl)
    as H'.
  destruct (_determine_latest_version current target versions)
    as [r|e] eqn:E;
    destruct (_determine_latest_version current target versions')
      as [r'|e'] eqn:E'.
  - destruct H as (v & Hk & Hr & Hp & Hmax).
    destruct H' as (v' & Hk' & Hr' & Hp' & Hmax').
    exists v, v'. destruct Hk as [Hin Hv], Hk' as [Hin' Hv'].
    rewrite Hr in Hv. rewrite Hr' in Hv'.
    split; [exact Hv|]. split; [exact Hv'|].
    apply version_leb_antisym.
    + apply Hmax'; [|exact Hp]. split; [apply Hm|]; congruence.
    + apply Hmax; [|exact Hp']. split; [apply Hm'|]; congruence.
  - destruct H as (v & Hk & Hr & Hp & Hmax). destruct H' as [_ Hno].
    apply (Hno v); [eapply known_members; eauto | exact Hp].
  - destruct H' as (v & Hk & Hr & Hp & Hmax). destruct H as [_ Hno].
    apply (Hno v); [eapply known_members; eauto | exact Hp].
  - rewrite (resolve_raise_exact _ _ _ _ _ _ Hc Ht E).
    now rewrite (resolve_raise_exact _ _ _ _ _ _ Hc Ht E').
Qed.

Lemma X3_resolve_same_members_witness :
  version_eq "2.6.0" "2.6.0".
Proof.
  pose proof (proj1 X3_resolve_same_members "2.5.3" "minor"
                ["2.5.4"; "2.6.0"; "3.0.0"] ["3.0.0"; "2.6.0"; "2.5.4"; "2.6.0"])
    as H.
  assert (E : _determine_latest_version "2.5.3" "minor"
                ["2.5.4"; "2.6.0"; "3.0.0"] = Ok "2.6.0")
    by (vm_compute; reflexivity).
  assert (E' : _determine_latest_version "2.5.3" "minor"
                 ["3.0.0"; "2.6.0"; "2.5.4"; "2.6.0"] = Ok "2.6.0")
    by (vm_compute; reflexivity).
  rewrite E, E' in H. apply H.
  intros s. cbn [In]. tauto.
Defined.

(** X4: A wider target never gives an older version: where the resolver
    succeeds for patch it succeeds for minor, and where it succeeds for
    minor it succeeds for major, each time with a version that is not
    smaller. *)
Theorem X4_resolve_target_monotone :
  forall current versions,
    (forall r, _determine_latest_version current "patch" versions = Ok r ->
               exists r', _determine_latest_version current "minor" versions
                          = Ok r' /\ version_le r r')
    /\ (forall r, _determine_latest_version current "minor" versions = Ok r ->
                  exists r', _determine_latest_version current "major" versions
                             = Ok r' /\ version_le r r').
Proof.
  intros current versions.
  assert (step : forall t t' i i' cv r,
            Version.__init__ current = Ok cv ->
            dict_get SEMVER t = Ok i -> dict_get SEMVER t' = Ok i' ->
            (forall v, eligible (ceiling_for cv i) v ->
                       eligible (ceiling_for cv i') v) ->
            _determine_latest_version current t versions = Ok r ->
            exists r', _determine_latest_version current t' versions = Ok r'
                       /\ version_le r r').
  { intros t t' i i' cv r Hc Hi Hi' Hsub E.
    pose proof (resolve_spec current t versions cv i _ Hc Hi eq_refl) as H.
    rewrite E in H. destruct H as (v & Hk & Hr & Hp & _).
    pose proof (resolve_spec current t' versions cv i' _ Hc Hi' eq_refl) as H'.
    destruct (_determine_latest_version current t' versions) as [r'|e].
    - exists r'. split; [reflexivity|].
      destruct H' as (v' & Hk' & Hr' & Hp' & Hmax').
      exists v, v'. pose proof Hk as [_ Hv]. destruct Hk' as [_ Hv'].
      rewrite Hr in Hv. rewrite Hr' in Hv'.
      split; [exact Hv|]. split; [exact Hv'|].
      apply Hmax'; [exact Hk | apply Hsub, Hp].
    - destruct H' as [_ Hno]. exfalso.
      apply (Hno v); [exact Hk | apply Hsub, Hp]. }
  split; intros r E;
    destruct (resolve_parses_current _ _ _ _ E) as (cv & Hc).
  - apply (step "patch" "minor" 2 1 cv r Hc eq_refl eq_refl); [|exact E].
    intros v [Hf Hb]. split; [exact Hf|].
    pose proof (init_version _ _ Hc) as Hs.
    pose proof (release_nonnil _ _ Hs) as Hn.
    unfold ceiling_for in *.
    destruct (Packaging.release (Version._version cv)) as [|a l] eqn:Er;
      [congruence|].
    cbn [firstn] in *.
    eapply version_ltb_leb_trans; [exact Hb|].
    eapply ceiling_patch_minor; eauto.
  - apply (step "minor" "major" 1 0 cv r Hc eq_refl eq_refl); [|exact E].
    intros v [Hf _]. split; [exact Hf | exact I].
Qed.

Lemma X4_resolve_target_monotone_witness :
  exists r', _determine_latest_version "2.5.3" "minor"
               ["2.5.4"; "2.6.0"; "3.0.0"] = Ok r'
             /\ version_le "2.5.4" r'.
Proof.
  apply (proj1 (X4_resolve_target_monotone "2.5.3" ["2.5.4"; "2.6.0"; "3.0.0"])).
  vm_compute. reflexivity.
Defined.

(** X5: No step back from a listed version: when the current version is
    itself among the known ones, is a final release and (for minor and
    patch) has no epoch, the resolver succeeds and what it returns is not
    smaller than the current version. *)
Theorem X5_resolve_not_below_current :
  forall current target versions cv index,
    Version.__init__ current = Ok cv ->
    dict_get SEMVER target = Ok index ->
    In current versions ->
    final cv = true ->
    index = 0 \/ Packaging.epoch (Version._version cv) = 0%N ->
    exists r, _determine_latest_version current target versions = Ok r
              /\ version_le current r.
Proof.
  intros current target versions cv index Hc Hi Hin Hf He.
  assert (Hk : known versions cv).
  { split; rewrite (init_raw _ _ Hc); assumption. }
  assert (Hel : eligible (ceiling_for cv index) cv).
  { split; [exact Hf|]. unfold ceiling_for.
    destruct (firstn index _) as [|x t] eqn:E; [exact I|].
    unfold ceiling_of.
    assert (Hn : index <> 0) by (intros ->; discriminate).
    rewrite ltb_ceiling;
      [|exact Hn | eapply release_nonnil, init_version; eauto].
    destruct He as [He | He]; [congruence | now rewrite He]. }
  pose proof (resolve_spec current target versions cv index _ Hc Hi eq_refl)
    as H.
  destruct (_determine_latest_version current target versions) as [r|e].
  - exists r. split; [reflexivity|].
    destruct H as (v & [_ Hv] & Hr & _ & Hmax).
    exists cv, v. rewrite Hr in Hv. auto.
  - destruct H as [_ Hno]. exfalso. apply (Hno cv); assumption.
Qed.

Lemma X5_resolve_not_below_current_witness :
  exists r, _determine_latest_version "2.5.3" "patch" ["2.5.1"; "2.5.3"]
            = Ok r
            /\ version_le "2.5.3" r.
Proof.
  apply (X5_resolve_not_below_current "2.5.3" "patch" ["2.5.1"; "2.5.3"]
           (Version.Build (release_only [2; 5; 3]%N) "2.5.3") 2).
  - vm_compute. reflexivity.
  - reflexivity.
  - cbn [In]. auto.
  - reflexivity.
  - right. reflexivity.
Defined.

Module PipelineFacts2.

Lemma check_pypi_trace package current target w :
  snd (_check_pypi package current target w) = [HttpGet (json_url package)].
Proof.
  unfold _check_pypi, _fetch_page, json_url, bind, emit, ask, lift, ret, raise.
  destruct (requests_get w _) as [r|e]; [|reflexivity].
  destruct (Nat.eqb (status_code r) 200); [|reflexivity].
  destruct (response_json r) as [j|e]; [|reflexivity].
  destruct (json_getitem j "releases") as [rel|e]; [|reflexivity].
  destruct (json_keys rel) as [vs|e]; [|reflexivity].
  destruct (_determine_latest_version current target vs) as [v|e];
    [|reflexivity].
  destruct (json_getitem rel v) as [x|e]; [reflexivity|].
  destruct (exn_cls e); reflexivity.
Qed.

End PipelineFacts2.
Import PipelineFacts2.

(** X6: [_check_pypi] makes exactly one request, whatever happens.  On an
    answer with another status than 200 it raises the [ValueError] of
    [_fetch_page] without decoding the body.  On a status 200 answer that
    is an object with a [releases] object it is the resolver applied to
    the keys of that object: same result, same exception; the lookup of
    the resolved version never fails, so the [KeyError] written for it
    is never raised. *)
Theorem X6_check_pypi_resolves :
  (forall w package current target,
     snd (_check_pypi package current target w)
     = [HttpGet (json_url package)])
  /\ (forall w package current target resp,
        requests_get w (json_url package) = Ok resp ->
        status_code resp <> 200 ->
        fst (_check_pypi package current target w)
        = Raise (Exn ValueError
                   ("request for " ++ json_url package ++ " failed")))
  /\ (forall w package current target resp members rel,
        requests_get w (json_url package) = Ok resp ->
        status_code resp = 200 ->
        response_json resp = Ok (JObject members) ->
        dict_get members "releases" = Ok (JObject rel) ->
        fst (_check_pypi package current target w)
        = _determine_latest_version current target (map fst rel)).
Proof.
  split; [intros; apply check_pypi_trace|]. split.
  - intros w package current target resp Hget Hs.
    unfold _check_pypi, _fetch_page, bind, emit, ask, lift, ret, raise.
    fold (json_url package). rewrite Hget.
    destruct (Nat.eqb_spec (status_code resp) 200); [congruence|reflexivity].
  - intros w package current target resp members rel Hget Hs Hj Hrel.
    unfold _check_pypi, _fetch_page, bind, emit, ask, lift, ret, raise.
    fold (json_url package). rewrite Hget, Hs, Hj. cbn [Nat.eqb json_getitem].
    rewrite Hrel. cbn [json_keys].
    destruct (_determine_latest_version current target (map fst rel))
      as [v|e] eqn:E; [|reflexivity].
    apply resolve_known in E. destruct E as (x & [Hin _] & Hx).
    rewrite Hx in Hin. destruct (dict_get_In rel v Hin) as [y Hy].
    cbn [json_getitem]. now rewrite Hy.
Qed.

Lemma X6_check_pypi_resolves_witness :
  fst (_check_pypi "foo" "1.0.0" "minor"
         (one_file_world "/pkgs/foo.nix" (expression "foo" "1.0.0")
            (Ok (registry_reply ["1.0.0"; "1.1.0"; "2.0"])) ""))
  = _determine_latest_version "1.0.0" "minor"
      (map fst [("1.0.0", JArray []); ("1.1.0", JArray []); ("2.0", JArray [])]).
Proof.
  apply (proj2 (proj2 X6_check_pypi_resolves)
           (one_file_world "/pkgs/foo.nix" (expression "foo" "1.0.0")
              (Ok (registry_reply ["1.0.0"; "1.1.0"; "2.0"])) "")
           "foo" "1.0.0" "minor"
           (registry_reply ["1.0.0"; "1.1.0"; "2.0"])
           [("releases",
             JObject [("1.0.0", JArray []); ("1.1.0", JArray []);
                      ("2.0", JArray [])])]);
    reflexivity.
Defined.

Module PipelineFacts3.

Lemma version_not_leb_ltb (x y : Version.t) :
  leb x y = false -> ltb y x = true.
Proof.
  unfold leb, ltb.
  change (cmp y x) with (cmp (Packaging._key (Version._version y))
                             (Packaging._key (Version._version x))).
  change (cmp x y) with (cmp (Packaging._key (Version._version x))
                             (Packaging._key (Version._version y))).
  rewrite (cmp_antisym (Packaging._key (Version._version x))).
  destruct (cmp (Packaging._key (Version._version x)) _); simpl; congruence.
Qed.

Lemma length_zero_iff s : Nat.eqb (String.length s) 0 = true <-> s = "".
Proof. destruct s; simpl; split; congruence. Qed.

Lemma no_reports t :
  Forall (fun ev => is_report ev = false) t -> reports t = 0.
Proof.
  unfold reports. induction 1 as [|ev t Hev _ IH]; [reflexivity|].
  cbn [filter]. now rewrite Hev.
Qed.

(** The ways through [_print_new_version]: it stops early, with a trace
    that holds no report line, or it goes to its end and its trace is
    the request, the inventory command and the report line. *)
Lemma print_new_version_inv w path target drv r t :
  _print_new_version path target drv w = (r, t) ->
  (r <> Ok None /\ Forall (fun ev => is_report ev = false) t)
  \/ (r = Ok None
      /\ exists text pname version nv vnew vold drv_name,
           read_text w path = Ok text
           /\ _get_unique_value "pname" text = Ok pname
           /\ _get_unique_value "version" text = Ok version
           /\ fst (_check_pypi pname version target w) = Ok nv
           /\ Version.__init__ nv = Ok vnew
           /\ Version.__init__ version = Ok vold
           /\ leb vnew vold = false
           /\ drv_name <> ""
           /\ t = [HttpGet (json_url pname);
                   Exec (inventory_command drv pname version);
                   Print (drv_name ++ " " ++ version ++ " " ++ nv ++ " "
                          ++ PYPI_PACKAGE_URL ++ "/" ++ pname ++ "/")]).
Proof.
  unfold _print_new_version.
  unfold bind at 1, ask at 1.
  destruct (read_text w path) as [text|e] eqn:Hread;
    [|intros [= <- <-]; left; split; [discriminate | constructor]].
  unfold bind at 1, lift at 1.
  destruct (_get_unique_value "pname" text) as [pname|e] eqn:Hp;
    [|intros [= <- <-]; left; split; [discriminate | constructor]].
  unfold bind at 1, lift at 1.
  destruct (_get_unique_value "version" text) as [version|e] eqn:Hv;
    [|intros [= <- <-]; left; split; [discriminate | constructor]].
  unfold bind at 1.
  pose proof (check_pypi_trace pname version target w) as Ht.
  destruct (_check_pypi pname version target w) as [[nv|e] t0] eqn:Hcheck;
    cbn [snd] in Ht; subst t0;
    [|intros [= <- <-]; left; split; [discriminate | repeat constructor]].
  destruct (String.eqb nv version) eqn:Eeq.
  { cbn. intros [= <- <-]. left. split; [discriminate | repeat constructor]. }
  unfold bind at 1, lift at 1.
  destruct (Version.__init__ nv) as [vnew|e] eqn:Hnew;
    [|cbn; intros [= <- <-]; left; split;
      [discriminate | repeat constructor]].
  unfold bind at 1, lift at 1.
  destruct (Version.__init__ version) as [vold|e] eqn:Hold;
    [|cbn; intros [= <- <-]; left; split;
      [discriminate | repeat constructor]].
  destruct (leb vnew vold) eqn:Ele.
  { cbn. intros [= <- <-]. left. split; [discriminate | repeat constructor]. }
  unfold bind at 1. cbn [emit]. unfold bind at 1, ask at 1.
  fold (inventory_command drv pname version).
  destruct (check_output w _) as [out|e];
    [|cbn; intros [= <- <-]; left; split;
      [discriminate | repeat constructor]].
  set (drv_name := Py.join "-" (removelast (Py.split "-" (rstrip out)))).
  destruct (Nat.eqb (String.length drv_name) 0) eqn:El.
  { cbn. intros [= <- <-]. left. split; [discriminate | repeat constructor]. }
  cbn. intros [= <- <-]. right. split; [reflexivity|].
  exists text, pname, version, nv, vnew, vold, drv_name.
  split; [reflexivity|]. split; [exact Hp|]. split; [exact Hv|].
  split; [now rewrite Hcheck|]. split; [exact Hnew|]. split; [exact Hold|].
  split; [exact Ele|]. split; [|reflexivity].
  intros E. apply length_zero_iff in E. congruence.
Qed.

End PipelineFacts3.
Import PipelineFacts3.

(** X7: A report line is printed exactly when [_print_new_version] falls off
    its end, and then only for a strictly newer version: the line names a
    non-empty derivation name, the declared version, the resolved version
    and the project page, and the resolved version is greater than the
    declared one in the version ordering.  No-ops, skips and failures
    print nothing. *)
Theorem X7_report_only_newer :
  forall w path target drv r t,
    _print_new_version path target drv w = (r, t) ->
    reports t = (match r with Ok None => 1 | _ => 0 end)
    /\ forall line,
         In (Print line) t ->
         exists text pname version new_version vnew vold drv_name,
           read_text w path = Ok text
           /\ _get_unique_value "pname" text = Ok pname
           /\ _get_unique_value "version" text = Ok version
           /\ fst (_check_pypi pname version target w) = Ok new_version
           /\ Version.__init__ new_version = Ok vnew
           /\ Version.__init__ version = Ok vold
           /\ ltb vold vnew = true
           /\ drv_name <> ""
           /\ line = drv_name ++ " " ++ version ++ " " ++ new_version ++ " "
                     ++ PYPI_PACKAGE_URL ++ "/" ++ pname ++ "/".
Proof.
  intros w path target drv r t E.
  destruct (print_new_version_inv _ _ _ _ _ _ E) as [[Hr Ht]|[-> H]].
  - split.
    + rewrite (no_reports t Ht). destruct r as [[[|]|]|]; congruence.
    + intros line Hin. rewrite Forall_forall in Ht.
      apply Ht in Hin. discriminate Hin.
  - destruct H as (text & pname & version & nv & vnew & vold & drv_name
                   & Hread & Hp & Hv & Hc & Hnew & Hold & Hle & Hne & ->).
    split; [reflexivity|].
    intros line [H|[H|[H|[]]]]; try discriminate H. injection H as <-.
    exists text, pname, version, nv, vnew, vold, drv_name.
    repeat (split; [assumption|]).
    split; [now apply version_not_leb_ltb|]. split; [exact Hne | reflexivity].
Qed.

Lemma X7_report_only_newer_witness :
  reports
    [HttpGet "https://pypi.io/pypi/bar/json";
     Exec "cat -- /cache/drv_names.txt | grep bar-1.0.0 | grep -v python2 | head -1";
     Print "bar 1.0.0 1.1.0 https://pypi.org/project/bar/"] = 1.
Proof.
  apply (X7_report_only_newer unreachable_world "/pkgs/bar.nix" "minor"
           "/cache/drv_names.txt" (Ok None)).
  vm_compute. reflexivity.
Defined.

Module BatchFacts.

Lemma reports_app t t' : reports (t ++ t') = reports t + reports t'.
Proof. unfold reports. now rewrite filter_app, length_app. Qed.

Lemma sum_ones l : forall acc,
  fold_left Nat.add (map Nat.b2n (filter (fun b : bool => b) l)) acc
  = acc + updated l.
Proof.
  unfold updated. induction l as [|b l IH]; intros acc; simpl; [lia|].
  destruct b; simpl; rewrite IH; lia.
Qed.

Lemma updated_le l : updated l <= List.length l.
Proof. unfold updated. apply filter_length_le. Qed.

Lemma updated_cons b l : updated (b :: l) = Nat.b2n b + updated l.
Proof. unfold updated. now destruct b. Qed.

(** The results of a batch that completes, one per task and in order. *)
Lemma pool_map_ok {A B} (f : A -> M B) w : forall l results t,
  pool_map f l w = (Ok results, t) ->
  exists ts,
    Forall2 (fun x bt => f x w = (Ok (fst bt), snd bt)) l (combine results ts)
    /\ List.length ts = List.length results
    /\ List.length results = List.length l
    /\ t = List.concat ts.
Proof.
  induction l as [|x l IH]; intros results t; cbn [pool_map].
  - intros [= <- <-]. exists []. repeat split; constructor.
  - unfold bind at 1. destruct (f x w) as [[b|e] t1] eqn:Hx; [|discriminate].
    unfold bind at 1.
    destruct (pool_map f l w) as [[rs|e] t2] eqn:Hl; [|discriminate].
    cbn. rewrite app_nil_r. intros [= <- <-].
    destruct (IH rs t2 eq_refl) as (ts & HF & Hlen & Hlen' & ->).
    exists (t1 :: ts). cbn. repeat split; try congruence.
    constructor; [exact Hx | exact HF].
Qed.

(** An exception that leaves a batch left one of its tasks. *)
Lemma pool_map_raise {A B} (f : A -> M B) w : forall l e t,
  pool_map f l w = (Raise e, t) ->
  exists x t', In x l /\ f x w = (Raise e, t').
Proof.
  induction l as [|x l IH]; intros e t; cbn [pool_map]; [discriminate|].
  unfold bind at 1. destruct (f x w) as [[b|e'] t1] eqn:Hx.
  - unfold bind at 1.
    destruct (pool_map f l w) as [[rs|e''] t2] eqn:Hl; [discriminate|].
    intros [= <- <-]. destruct (IH e'' t2 eq_refl) as (y & t' & Hin & Hy).
    exists y, t'. split; [now right | exact Hy].
  - intros [= <- <-]. exists x, t1. split; [now left | exact Hx].
Qed.

Lemma pool_map_reports {A} (f : A -> M bool) w :
  (forall x b t, f x w = (Ok b, t) -> reports t <= Nat.b2n b) ->
  forall l results t,
    pool_map f l w = (Ok results, t) -> reports t <= updated results.
Proof.
  intros Hf. induction l as [|x l IH]; intros results t; cbn [pool_map].
  - intros [= <- <-]. auto.
  - unfold bind at 1. destruct (f x w) as [[b|e] t1] eqn:Hx; [|discriminate].
    unfold bind at 1.
    destruct (pool_map f l w) as [[rs|e] t2] eqn:Hl; [|discriminate].
    cbn. rewrite app_nil_r. intros [= <- <-].
    rewrite reports_app, updated_cons.
    pose proof (Hf x b t1 Hx). pose proof (IH rs t2 eq_refl). lia.
Qed.

(** A task prints a report line only where it returns [True]. *)
Lemma update_reports w path target drv b t :
  _update path target drv w = (Ok b, t) -> reports t <= Nat.b2n b.
Proof.
  unfold _update.
  destruct (negb (isfile w _)); [cbn; intros [= <- <-]; cbn; lia|].
  destruct (negb (endswith _ ".nix")); [cbn; intros [= <- <-]; cbn; lia|].
  unfold try_except_ValueError. unfold bind at 1.
  destruct (_print_new_version _ target drv w) as [[r|e] t0] eqn:E.
  - cbn. rewrite app_nil_r. intros [= <- <-].
    destruct (print_new_version_inv _ _ _ _ _ _ E) as [[_ Ht]|[_ H]].
    + rewrite (no_reports t0 Ht). lia.
    + destruct H as (? & ? & ? & ? & ? & ? & ? & _ & _ & _ & _ & _ & _ & _
                     & _ & ->). cbn. lia.
  - destruct (isinstance_ValueError e); [|discriminate].
    cbn. intros [= <- <-]. rewrite reports_app.
    destruct (print_new_version_inv _ _ _ _ _ _ E) as [[_ Ht]|[Hr _]];
      [|discriminate Hr].
    rewrite (no_reports t0 Ht). cbn. lia.
Qed.

(** What leaves a task is no [ValueError]. *)
Lemma update_raise w path target drv e t :
  _update path target drv w = (Raise e, t) ->
  isinstance_ValueError e = false.
Proof.
  unfold _update.
  destruct (negb (isfile w _)); [discriminate|].
  destruct (negb (endswith _ ".nix")); [discriminate|].
  unfold try_except_ValueError. unfold bind at 1.
  destruct (_print_new_version _ target drv w) as [[r|e'] t0];
    [discriminate|].
  destruct (isinstance_ValueError e') eqn:Hv; [discriminate|].
  now intros [= <- _].
Qed.

End BatchFacts.
Import BatchFacts.

(** X8: [_update] never lets a [ValueError] out.  It returns [True] exactly
    when the file exists, is a Nix expression and processing it raised
    nothing, whatever [_print_new_version] returned; it returns [False]
    with one log record for a missing file or another extension, and with
    the trace of the processing and a warning that names the path and the
    message when processing raised a [ValueError].  Any other exception
    leaves the function.  A report line is printed only where the result
    is [True]. *)
Theorem X8_update_outcome :
  forall w path target drv,
    let p := expression_path w path in
    match _update path target drv w with
    | (Ok true, t) =>
        isfile w p = true /\ endswith p ".nix" = true
        /\ exists r, _print_new_version p target drv w = (Ok r, t)
    | (Ok false, t) =>
        reports t = 0
        /\ ((isfile w p = false
             /\ t = [LogInfo ("Path " ++ p ++ ": does not exist.")])
            \/ (isfile w p = true /\ endswith p ".nix" = false
                /\ t = [LogInfo ("Path " ++ p
                                 ++ ": does not end with `.nix`.")])
            \/ (exists e t0,
                  isfile w p = true /\ endswith p ".nix" = true
                  /\ _print_new_version p target drv w = (Raise e, t0)
                  /\ isinstance_ValueError e = true
                  /\ t = (t0 ++ [LogWarning ("Path " ++ p ++ ": "
                                             ++ exn_msg e)])%list))
    | (Raise e, t) =>
        isinstance_ValueError e = false
        /\ isfile w p = true /\ endswith p ".nix" = true
        /\ _print_new_version p target drv w = (Raise e, t)
    end.
Proof.
  intros w path target drv p. unfold _update. fold (expression_path w path).
  fold p. destruct (isfile w p) eqn:Hf; cbn [negb].
  2:{ cbn. split; [reflexivity|]. left. auto. }
  destruct (endswith p ".nix") eqn:He; cbn [negb].
  2:{ cbn. split; [reflexivity|]. right. left. auto. }
  unfold try_except_ValueError. unfold bind at 1.
  destruct (_print_new_version p target drv w) as [[r|e] t] eqn:E.
  - cbn. split; [reflexivity|]. split; [reflexivity|].
    exists r. now rewrite app_nil_r.
  - destruct (isinstance_ValueError e) eqn:Hv.
    + cbn. split.
      * rewrite reports_app.
        destruct (print_new_version_inv _ _ _ _ _ _ E) as [[_ Ht]|[Hr _]];
          [|discriminate Hr].
        now rewrite (no_reports t Ht).
      * right. right. exists e, t. auto.
    + auto.
Qed.

(** X9: A run that ends with success logs the number of packages given and
    the number of [True] results; every task gave a result, in the order
    of the packages.  The number of report lines is at most the number
    logged as updated, which is at most the number of packages.  A run
    never ends with a [ValueError]. *)
Theorem X9_main_summary :
  forall w packages target drv,
    match main packages target drv w with
    | (Ok _, trace) =>
        exists results t,
          pool_map (fun pkg => _update pkg target drv) packages w
          = (Ok results, t)
          /\ List.length results = List.length packages
          /\ trace
             = (LogInfo "Updating packages..." :: t
                ++ [LogInfo "Finished updating packages.";
                    LogInfo ("Checked "
                             ++ Py.str (N.of_nat (List.length packages))
                             ++ " packages, "
                             ++ Py.str (N.of_nat (updated results))
                             ++ " updated");
                    LogInfo
                      "########## END OF NIXPKGS_UPDATE_PYPI_RELEASES ##########"])%list
          /\ reports trace <= updated results
          /\ updated results <= List.length packages
    | (Raise e, _) =>
        isinstance_ValueError e = false
        /\ exists pkg t, In pkg packages
                         /\ _update pkg target drv w = (Raise e, t)
    end.
Proof.
  intros w packages target drv. unfold main.
  unfold bind at 1. cbn [emit]. unfold bind at 1.
  destruct (pool_map (fun pkg => _update pkg target drv) packages w)
    as [[results|e] t] eqn:E.
  - destruct (pool_map_ok _ _ _ _ _ E) as (ts & _ & _ & Hlen & _).
    cbn. rewrite sum_ones, Hlen. cbn [Nat.add].
    exists results, t. split; [reflexivity|]. split; [exact Hlen|].
    split; [reflexivity|]. split.
    + rewrite filter_app, length_app. cbn [filter is_report List.length].
      rewrite Nat.add_0_r. fold (reports t).
      eapply pool_map_reports; [|exact E].
      intros x b t' Hx. exact (update_reports _ _ _ _ _ _ Hx).
    + rewrite <- Hlen. apply updated_le.
  - cbn. apply pool_map_raise in E. destruct E as (x & t' & Hin & Hx).
    split; [exact (update_raise _ _ _ _ _ _ Hx)|]. eauto.
Qed.

Module TextFacts.

Lemma list_ascii_app s t :
  list_ascii_of_string (s ++ t)
  = (list_ascii_of_string s ++ list_ascii_of_string t)%list.
Proof. induction s as [|a s IH]; simpl; [reflexivity | now rewrite IH]. Qed.

Lemma string_of_list_app l l' :
  string_of_list_ascii (l ++ l')
  = string_of_list_ascii l ++ string_of_list_ascii l'.
Proof. induction l as [|a l IH]; simpl; [reflexivity | now rewrite IH]. Qed.

Lemma forallb_list_ascii p s :
  forallb p (list_ascii_of_string s) = Py.string_forallb p s.
Proof. induction s as [|a s IH]; simpl; [reflexivity | now rewrite IH]. Qed.

Section Dropwhile.
Context {A : Type} (p : A -> bool).

Lemma forallb_rev l : forallb p (rev l) = forallb p l.
Proof.
  induction l as [|x l IH]; simpl; [reflexivity|].
  rewrite forallb_app, IH. simpl. rewrite andb_true_r. apply andb_comm.
Qed.

Lemma dropwhile_all l : forallb p l = true -> Py.dropwhile p l = [].
Proof.
  induction l as [|x l IH]; simpl; [reflexivity|].
  destruct (p x); [exact IH | discriminate].
Qed.

Lemma dropwhile_app_all l t :
  forallb p l = true -> Py.dropwhile p (l ++ t) = Py.dropwhile p t.
Proof.
  induction l as [|x l IH]; simpl; [reflexivity|].
  destruct (p x); [exact IH | discriminate].
Qed.

Lemma dropwhile_stop x l : p x = false -> Py.dropwhile p (x :: l) = x :: l.
Proof. simpl. now intros ->. Qed.

End Dropwhile.

(** [rstrip] on the characters of a text. *)
Lemma rstrip_list s :
  rstrip s
  = string_of_list_ascii
      (rev (Py.dropwhile is_space (rev (list_ascii_of_string s)))).
Proof. reflexivity. Qed.

(** White space behind a character that is none is all [rstrip] takes. *)
Lemma rstrip_trailing pre a trailing :
  is_space a = false -> Py.string_forallb is_space trailing = true ->
  rstrip (pre ++ String a trailing) = pre ++ String a "".
Proof.
  intros Ha Ht. rewrite rstrip_list, list_ascii_app. cbn [list_ascii_of_string].
  rewrite rev_app_distr. cbn [rev]. rewrite <- app_assoc.
  rewrite dropwhile_app_all
    by (rewrite forallb_rev, forallb_list_ascii; exact Ht).
  cbn [app]. rewrite dropwhile_stop by exact Ha.
  change (a :: rev (list_ascii_of_string pre))
    with ([a] ++ rev (list_ascii_of_string pre))%list.
  rewrite rev_app_distr, rev_involutive. cbn [rev app].
  rewrite string_of_list_app, string_of_list_ascii_of_string. reflexivity.
Qed.

Lemma rstrip_blank trailing :
  Py.string_forallb is_space trailing = true -> rstrip trailing = "".
Proof.
  intros Ht. rewrite rstrip_list.
  rewrite dropwhile_all by (rewrite forallb_rev, forallb_list_ascii; exact Ht).
  reflexivity.
Qed.

(** [rstrip] keeps a property that all characters have. *)
Lemma rstrip_forallb q s :
  Py.string_forallb q s = true -> Py.string_forallb q (rstrip s) = true.
Proof.
  intros H. rewrite rstrip_list, <- forallb_list_ascii.
  rewrite list_ascii_of_string_of_list_ascii, forallb_rev.
  rewrite <- forallb_list_ascii, <- forallb_rev in H.
  revert H. generalize (rev (list_ascii_of_string s)) as l.
  induction l as [|x l IH]; simpl; [auto|].
  rewrite andb_true_iff. intros [Hx Hl].
  destruct (is_space x); [auto|]. simpl. now rewrite Hx, Hl.
Qed.

(** A text without separator is one piece. *)
Lemma split_on_none p v :
  Py.string_forallb (fun a => negb (p a)) v = true -> Py.split_on p v = [v].
Proof.
  induction v as [|a v IH]; simpl; [reflexivity|].
  rewrite andb_true_iff. intros [Ha Hv].
  destruct (p a); [discriminate|]. now rewrite (IH Hv).
Qed.

(** What stands behind the last separator is the last piece. *)
Lemma split_on_last p u d v :
  p d = true -> Py.string_forallb (fun a => negb (p a)) v = true ->
  Py.split_on p (u ++ String d v) = (Py.split_on p u ++ [v])%list.
Proof.
  intros Hd Hv. induction u as [|a u IH].
  - cbn [append Py.split_on]. rewrite Hd. now rewrite (split_on_none p v Hv).
  - change (String a u ++ String d v) with (String a (u ++ String d v)).
    cbn [Py.split_on]. rewrite IH.
    destruct (p a); [reflexivity|].
    destruct (split_on_cons p u) as (x & xs & ->). reflexivity.
Qed.

Lemma join_cons sep x y l :
  Py.join sep (x :: y :: l) = x ++ sep ++ Py.join sep (y :: l).
Proof. reflexivity. Qed.

(** Joining the pieces with the separator gives the text back. *)
Lemma join_split d u : Py.join (String d "") (Py.split d u) = u.
Proof.
  unfold Py.split. induction u as [|a u IH]; [reflexivity|].
  cbn [Py.split_on].
  destruct (split_on_cons (Ascii.eqb d) u) as (x & xs & E).
  rewrite E in IH |- *.
  destruct (Ascii.eqb_spec d a) as [->|N].
  - rewrite join_cons, IH. reflexivity.
  - rewrite <- IH. destruct xs; reflexivity.
Qed.

(** The derivation name: the text before the last dash, nothing for a
    text without dash. *)
Lemma drv_name_last name ver :
  Py.string_forallb (fun a => negb (Ascii.eqb "-" a)) ver = true ->
  Py.join "-" (removelast (Py.split "-" (name ++ "-" ++ ver))) = name.
Proof.
  intros Hv. unfold Py.split. change ("-" ++ ver) with (String "-" ver).
  rewrite (split_on_last (Ascii.eqb "-") name "-"%char ver eq_refl Hv).
  rewrite removelast_last. apply (join_split "-"%char).
Qed.

Lemma drv_name_none s :
  Py.string_forallb (fun a => negb (Ascii.eqb "-" a)) s = true ->
  Py.join "-" (removelast (Py.split "-" s)) = "".
Proof.
  intros Hs. unfold Py.split. now rewrite (split_on_none _ s Hs).
Qed.

Lemma version_char_forallb ver :
  Py.string_forallb version_char ver = true ->
  Py.string_forallb (fun a => negb (Ascii.eqb "-" a)) ver = true.
Proof.
  apply forallb_impl. intros a. unfold version_char.
  rewrite andb_true_iff. tauto.
Qed.

(** The dashed name with its version, white space behind it removed. *)
Lemma rstrip_entry name ver trailing :
  Py.string_forallb version_char ver = true ->
  Py.string_forallb is_space trailing = true ->
  rstrip (name ++ "-" ++ ver ++ trailing) = name ++ "-" ++ ver.
Proof.
  intros Hv Ht.
  assert (G : forall pre a, is_space a = false ->
            rstrip (pre ++ String a (ver ++ trailing))
            = pre ++ String a ver).
  { revert Hv. induction ver as [|b ver IH]; intros Hv pre a Ha.
    - now apply rstrip_trailing.
    - cbn [Py.string_forallb] in Hv. apply andb_true_iff in Hv.
      destruct Hv as [Hb Hv]. unfold version_char in Hb.
      apply andb_true_iff in Hb. destruct Hb as [Hb _].
      apply negb_true_iff in Hb.
      change (pre ++ String a (String b ver ++ trailing))
        with (pre ++ String a ("" ++ String b (ver ++ trailing))).
      replace (pre ++ String a ("" ++ String b (ver ++ trailing)))
        with ((pre ++ String a "") ++ String b (ver ++ trailing))
        by (now rewrite append_assoc).
      rewrite (IH Hv (pre ++ String a "") b Hb).
      now rewrite append_assoc. }
  apply (G name "-"%char). reflexivity.
Qed.

End TextFacts.
Import TextFacts.

(** X10: For a strictly newer version the derivation name is read off the
    inventory line: for a line made of a name, a dash, a version without
    dash or white space and trailing white space, the report line names
    that name (and the package is skipped when the name is empty); for
    an output without any dash, such as the empty output of a search
    that found nothing, the package is skipped without a report. *)
Theorem X10_report_names_inventory_entry :
  forall w path target drv text pname version new_version t0 vnew vold,
    read_text w path = Ok text ->
    _get_unique_value "pname" text = Ok pname ->
    _get_unique_value "version" text = Ok version ->
    _check_pypi pname version target w = (Ok new_version, t0) ->
    Version.__init__ new_version = Ok vnew ->
    Version.__init__ version = Ok vold ->
    ltb vold vnew = true ->
    (forall name ver trailing,
       check_output w (inventory_command drv pname version)
       = Ok (name ++ "-" ++ ver ++ trailing) ->
       Py.string_forallb version_char ver = true ->
       Py.string_forallb is_space trailing = true ->
       _print_new_version path target drv w
       = if String.eqb name "" then
           (Ok (Some false),
            (t0 ++ [Exec (inventory_command drv pname version)])%list)
         else
           (Ok None,
            (t0 ++ [Exec (inventory_command drv pname version);
                    Print (name ++ " " ++ version ++ " " ++ new_version
                           ++ " " ++ package_url pname)])%list))
    /\ (forall out,
          check_output w (inventory_command drv pname version) = Ok out ->
          Py.string_forallb (fun a => negb (Ascii.eqb "-" a)) out = true ->
          _print_new_version path target drv w
          = (Ok (Some false),
             (t0 ++ [Exec (inventory_command drv pname version)])%list)).
Proof.
  intros w path target drv text pname version nv t0 vnew vold
    Hread Hp Hv Hcheck Hnew Hold Hlt.
  assert (Hle : leb vnew vold = false).
  { revert Hlt. unfold ltb, leb.
    change (cmp vold vnew) with (cmp (Packaging._key (Version._version vold))
                                     (Packaging._key (Version._version vnew))).
    change (cmp vnew vold) with (cmp (Packaging._key (Version._version vnew))
                                     (Packaging._key (Version._version vold))).
    rewrite (cmp_antisym (Packaging._key (Version._version vold))).
    destruct (cmp (Packaging._key (Version._version vold)) _);
      simpl; congruence. }
  assert (Hne : String.eqb nv version = false).
  { destruct (String.eqb_spec nv version) as [->|]; [|reflexivity].
    rewrite Hnew in Hold. injection Hold as ->.
    rewrite version_leb_refl in Hle. discriminate. }
  assert (prefix : forall out,
            check_output w (inventory_command drv pname version) = Ok out ->
            _print_new_version path target drv w
            = let drv_name :=
                Py.join "-" (removelast (Py.split "-" (rstrip out))) in
              if Nat.eqb (String.length drv_name) 0 then
                (Ok (Some false),
                 (t0 ++ [Exec (inventory_command drv pname version)])%list)
              else
                (Ok None,
                 (t0 ++ [Exec (inventory_command drv pname version);
                         Print (drv_name ++ " " ++ version ++ " " ++ nv
                                ++ " " ++ package_url pname)])%list)).
  { intros out Hout. unfold _print_new_version.
    unfold bind at 1, ask at 1. rewrite Hread.
    unfold bind at 1, lift at 1. rewrite Hp.
    unfold bind at 1, lift at 1. rewrite Hv.
    unfold bind at 1. rewrite Hcheck. rewrite Hne.
    unfold bind at 1, lift at 1. rewrite Hnew.
    unfold bind at 1, lift at 1. rewrite Hold.
    rewrite Hle. unfold bind at 1. cbn [emit].
    unfold bind at 1, ask at 1. fold (inventory_command drv pname version).
    rewrite Hout. cbv zeta.
    destruct (Nat.eqb _ 0); cbn; rewrite ?app_nil_r; reflexivity. }
  split.
  - intros name ver trailing Hout Hver Htr. rewrite (prefix _ Hout). cbv zeta.
    rewrite (rstrip_entry name ver trailing Hver Htr).
    rewrite (drv_name_last name ver (version_char_forallb ver Hver)).
    destruct name; reflexivity.
  - intros out Hout Hnd. rewrite (prefix _ Hout). cbv zeta.
    rewrite (drv_name_none (rstrip out))
      by (apply rstrip_forallb; exact Hnd).
    reflexivity.
Qed.

Lemma X10_report_names_inventory_entry_witness :
  _print_new_version "/pkgs/bar.nix" "minor" "/cache/drv_names.txt"
    unreachable_world
  = (Ok None,
     [HttpGet "https://pypi.io/pypi/bar/json";
      Exec (inventory_command "/cache/drv_names.txt" "bar" "1.0.0");
      Print ("bar 1.0.0 1.1.0 " ++ package_url "bar")]).
Proof.
  apply (proj1 (X10_report_names_inventory_entry unreachable_world "/pkgs/bar.nix"
                  "minor" "/cache/drv_names.txt" (expression "bar" "1.0.0")
                  "bar" "1.0.0" "1.1.0" [HttpGet "https://pypi.io/pypi/bar/json"]
                  (Version.Build (release_only [1; 1; 0]%N) "1.1.0")
                  (Version.Build (release_only [1; 0; 0]%N) "1.0.0")
                  eq_refl eq_refl eq_refl eq_refl eq_refl eq_refl eq_refl)
           "bar" "1.0.0" newline);
    reflexivity.
Defined.

Module ExtractFacts2.

(** What a match of the attribute pattern is, with the value. *)
Lemma attribute_match_value attribute found rest c :
  re_match (attribute_regex attribute) found = Some (rest, c) ->
  exists ws1 ws2 v,
    found = attribute ++ ws1 ++ "=" ++ ws2 ++ dquote ++ v ++ dquote ++ ";"
            ++ rest
    /\ blank ws1 /\ blank ws2
    /\ Py.string_forallb not_newline v = true
    /\ c = [("1", v)].
Proof.
  unfold re_match, attribute_regex. rewrite run_cat. intros E.
  apply run_lit_inv in E. destruct E as (s1 & -> & E).
  rewrite run_cat in E. apply run_plus_chr_inv in E.
  destruct E as (ws1 & s2 & -> & N1 & B1 & E).
  rewrite run_cat in E. apply run_lit_inv in E. destruct E as (s3 & -> & E).
  rewrite run_cat in E. apply run_plus_chr_inv in E.
  destruct E as (ws2 & s4 & -> & N2 & B2 & E).
  rewrite run_cat in E. apply run_lit_inv in E. destruct E as (s5 & -> & E).
  rewrite run_cat, run_group in E. apply run_star_chr_inv in E.
  destruct E as (v & s6 & -> & Hv & E). cbv beta in E.
  apply run_lit_inv in E. destruct E as (s7 & -> & E).
  rewrite taken_append in E. injection E as <- <-.
  exists ws1, ws2, v. unfold blank.
  repeat split; auto; now rewrite !append_assoc.
Qed.

Lemma strip_prefix_app l s : strip_prefix l (l ++ s) = Some s.
Proof. now apply strip_prefix_spec. Qed.

Lemma ltb_succ n : Nat.ltb n (S n) = true.
Proof. apply Nat.ltb_lt. lia. Qed.

Section Run.
Context {R : Type}.
Implicit Types (k : string -> captures -> option R).

(** A success of [p*] stays one when more of the class stands in front:
    the longer run is tried first and comes back to it. *)
Lemma run_star_chr_front p u : forall w c k x,
  Py.string_forallb p u = true ->
  run (Star (Chr p)) w c k = Some x ->
  run (Star (Chr p)) (u ++ w) c k = Some x.
Proof.
  induction u as [|a u IH]; intros w c k x Hu Hw; [exact Hw|].
  cbn [Py.string_forallb] in Hu. apply andb_true_iff in Hu.
  destruct Hu as [Ha Hu].
  change (String a u ++ w) with (String a (u ++ w)).
  rewrite run_star, run_chr_cons, Ha.
  change (String.length (String a (u ++ w)))
    with (S (String.length (u ++ w))).
  rewrite ltb_succ. now rewrite (IH w c k x Hu Hw).
Qed.

End Run.

(** The pattern on a declaration that ends its line. *)
Lemma match_declaration attribute v rest :
  Py.string_forallb not_newline v = true ->
  re_match (attribute_regex attribute)
    (attribute ++ " = " ++ dquote ++ v ++ dquote ++ ";" ++ newline ++ rest)
  = Some (newline ++ rest, [("1", v)]).
Proof.
  intros Hv. unfold re_match, attribute_regex.
  rewrite run_cat, run_lit, strip_prefix_app.
  rewrite run_cat.
  change (" = " ++ dquote ++ v ++ dquote ++ ";" ++ newline ++ rest)
    with (String " " "" ++ String "=" (String " " "" ++
            (dquote ++ v ++ dquote ++ ";" ++ newline ++ rest))).
  apply run_plus_chr_greedy; [reflexivity | reflexivity | reflexivity|].
  rewrite run_cat, run_lit. cbn [strip_prefix Ascii.eqb Bool.eqb].
  rewrite run_cat.
  apply run_plus_chr_greedy; [reflexivity | reflexivity | reflexivity|].
  rewrite run_cat, run_lit.
  change (dquote ++ v ++ dquote ++ ";" ++ newline ++ rest)
    with (dquote ++ (v ++ dquote ++ ";" ++ newline ++ rest)).
  rewrite strip_prefix_app.
  rewrite run_cat, run_group.
  set (w := dquote ++ ";" ++ newline ++ rest).
  set (k := fun (s' : string) (c' : captures) => _).
  assert (Hw : run (Star (Chr not_newline)) w [] k
               = Some (newline ++ rest, [("1", v)])).
  { unfold w, dquote.
    change (String (ascii_of_nat 34) "" ++ ";" ++ newline ++ rest)
      with (String (ascii_of_nat 34) (String ";" (newline ++ rest))).
    rewrite run_star, run_chr_cons.
    change (not_newline (ascii_of_nat 34)) with true. cbv iota.
    change (String.length
              (String (ascii_of_nat 34) (String ";" (newline ++ rest))))
      with (S (String.length (String ";" (newline ++ rest)))).
    rewrite ltb_succ.
    rewrite run_star, run_chr_cons.
    change (not_newline ";") with true. cbv iota.
    change (String.length (String ";" (newline ++ rest)))
      with (S (String.length (newline ++ rest))).
    rewrite ltb_succ.
    rewrite run_star_chr_outside by reflexivity.
    unfold k at 1. rewrite run_lit.
    change (strip_prefix (dquote ++ ";") (newline ++ rest)) with (@None string).
    cbv iota.
    unfold k at 1. rewrite run_lit.
    change (strip_prefix (dquote ++ ";") (String ";" (newline ++ rest)))
      with (@None string).
    cbv iota.
    unfold k. rewrite run_lit.
    change (strip_prefix (dquote ++ ";")
              (String (ascii_of_nat 34) (String ";" (newline ++ rest))))
      with (Some (newline ++ rest)).
    cbv iota.
    change (String (ascii_of_nat 34) (String ";" (newline ++ rest)))
      with (dquote ++ ";" ++ newline ++ rest).
    fold w. now rewrite taken_append. }
  now apply run_star_chr_front.
Qed.

(** No match starts on white space. *)
Lemma no_match_space attribute a s :
  attribute_name attribute -> is_space a = true ->
  re_match (attribute_regex attribute) (String a s) = None.
Proof.
  intros [Hn Hns] Ha. unfold re_match, attribute_regex.
  rewrite run_cat, run_lit.
  destruct attribute as [|b attribute]; [congruence|].
  cbn [Py.string_forallb] in Hns. apply andb_true_iff in Hns.
  destruct Hns as [Hb _]. unfold no_space in Hb. apply negb_true_iff in Hb.
  cbn [strip_prefix].
  destruct (Ascii.eqb_spec b a) as [->|_]; [congruence | reflexivity].
Qed.

Lemma no_match_empty attribute :
  attribute_name attribute -> re_match (attribute_regex attribute) "" = None.
Proof.
  intros [Hn _]. unfold re_match, attribute_regex.
  rewrite run_cat, run_lit. destruct attribute; [congruence | reflexivity].
Qed.

(** A text that goes on without white space for longer than the attribute
    is long does not begin like a match. *)
Lemma no_space_clash : forall attribute u r d y,
  Py.string_forallb no_space u = true ->
  String.length attribute < String.length u ->
  u ++ r = attribute ++ String d y -> is_space d = false.
Proof.
  induction attribute as [|x attribute IH]; intros u r d y Hu Hlen E.
  - destruct u as [|c u]; [simpl in Hlen; lia|].
    cbn in E. injection E as -> _.
    cbn [Py.string_forallb] in Hu. apply andb_true_iff in Hu.
    destruct Hu as [Hd _]. now apply negb_true_iff in Hd.
  - destruct u as [|c u]; [simpl in Hlen; lia|].
    cbn in E. injection E as _ E.
    cbn [Py.string_forallb] in Hu. apply andb_true_iff in Hu.
    destruct Hu as [_ Hu]. simpl in Hlen.
    apply (IH u r d y Hu); [lia | exact E].
Qed.

(** No match starts inside a longer name. *)
Lemma no_match_qualifier attribute c q s :
  attribute_name attribute ->
  Py.string_forallb no_space (String c q) = true ->
  re_match (attribute_regex attribute) (String c q ++ attribute ++ s) = None.
Proof.
  intros [_ Hns] Hq.
  destruct (re_match _ _) as [[rest m]|] eqn:E; [|reflexivity].
  apply attribute_match in E.
  destruct E as (ws1 & ws2 & tail & E & [N1 B1] & _).
  destruct ws1 as [|d ws1]; [congruence|].
  cbn [Py.string_forallb] in B1. apply andb_true_iff in B1.
  destruct B1 as [Hd _].
  rewrite <- append_assoc in E.
  change (attribute ++ String d ws1 ++ "=" ++ ws2 ++ dquote ++ tail)
    with (attribute ++ String d (ws1 ++ "=" ++ ws2 ++ dquote ++ tail)) in E.
  apply no_space_clash in E.
  - congruence.
  - now rewrite forallb_append, Hq, Hns.
  - rewrite length_append. simpl. lia.
Qed.

Lemma scan_equation_cons_none r c s :
  re_match r (String c s) = None -> scan r (String c s) 0 = scan r s 0.
Proof. intros E. cbn [scan]. now rewrite E. Qed.

(** The scan steps over the characters of a match. *)
Lemma scan_skip r u : forall t, scan r (u ++ t) (String.length u) = scan r t 0.
Proof.
  induction u as [|a u IH]; intros t; [reflexivity|].
  cbn [append String.length scan]. apply IH.
Qed.

Lemma scan_indent attribute ind s :
  attribute_name attribute ->
  Py.string_forallb is_space ind = true ->
  scan (attribute_regex attribute) (ind ++ s) 0
  = scan (attribute_regex attribute) s 0.
Proof.
  intros Ha. induction ind as [|a ind IH]; [reflexivity|].
  cbn [Py.string_forallb]. rewrite andb_true_iff. intros [Hs Hind].
  change (String a ind ++ s) with (String a (ind ++ s)).
  cbn [scan]. rewrite (no_match_space attribute a (ind ++ s) Ha Hs).
  now apply IH.
Qed.

Lemma scan_qualifier attribute q s :
  attribute_name attribute ->
  Py.string_forallb no_space q = true ->
  scan (attribute_regex attribute) (q ++ attribute ++ s) 0
  = scan (attribute_regex attribute) (attribute ++ s) 0.
Proof.
  intros Ha. induction q as [|c q IH]; [reflexivity|]. intros Hq.
  change (String c q ++ attribute ++ s) with (String c (q ++ attribute ++ s)).
  rewrite (scan_equation_cons_none _ c (q ++ attribute ++ s))
    by (apply (no_match_qualifier attribute c q s Ha Hq)).
  apply IH. cbn [Py.string_forallb] in Hq. apply andb_true_iff in Hq. tauto.
Qed.

Lemma scan_equation_cons_some r c s rest m :
  re_match r (String c s) = Some (rest, m) ->
  scan r (String c s) 0
  = m :: scan r s (pred (String.length (String c s) - String.length rest)).
Proof. intros E. cbn [scan]. now rewrite E. Qed.

(** One line gives one match, and the scan goes on behind the line. *)
Lemma scan_line attribute l rest :
  attribute_name attribute -> well_formed l ->
  scan (attribute_regex attribute) (line_text attribute l ++ rest) 0
  = [("1", line_value l)] :: scan (attribute_regex attribute) rest 0.
Proof.
  intros Ha (Hi & Hq & Hv). unfold line_text, declaration.
  rewrite !append_assoc.
  rewrite (scan_indent _ _ _ Ha Hi), (scan_qualifier _ _ _ Ha Hq).
  pose proof (match_declaration attribute (line_value l) rest Hv) as Hm.
  destruct attribute as [|a0 a'] eqn:Ea; [destruct Ha; congruence|].
  rewrite <- Ea in Ha.
  change (String a0 a' ++ " = " ++ dquote ++ line_value l ++ dquote ++ ";"
          ++ newline ++ rest)
    with (String a0 (a' ++ " = " ++ dquote ++ line_value l ++ dquote ++ ";"
                     ++ newline ++ rest)) in Hm |- *.
  rewrite (scan_equation_cons_some _ _ _ _ _ Hm).
  set (u := a' ++ " = " ++ dquote ++ line_value l ++ dquote ++ ";").
  replace (a' ++ " = " ++ dquote ++ line_value l ++ dquote ++ ";" ++ newline
           ++ rest)
    with (u ++ newline ++ rest)
    by (unfold u; now rewrite !append_assoc).
  replace (pred (String.length (String a0 (u ++ newline ++ rest))
                 - String.length (newline ++ rest)))
    with (String.length u)
    by (cbn [String.length]; rewrite length_append; lia).
  rewrite scan_skip. rewrite <- Ea.
  now rewrite (scan_indent attribute newline rest Ha eq_refl).
Qed.

Lemma scan_lines attribute ls :
  attribute_name attribute -> Forall well_formed ls ->
  scan (attribute_regex attribute) (lines_text attribute ls) 0
  = map (fun l => [("1", line_value l)]) ls.
Proof.
  intros Ha. induction 1 as [|l ls Hl Hls IH].
  - cbn [lines_text map scan]. now rewrite no_match_empty.
  - cbn [lines_text map]. rewrite (scan_line _ _ _ Ha Hl). now rewrite IH.
Qed.

Lemma get_values_lines attribute ls :
  attribute_name attribute -> Forall well_formed ls ->
  _get_values attribute (lines_text attribute ls) = map line_value ls.
Proof.
  intros Ha Hls. unfold _get_values, findall.
  rewrite (scan_lines _ _ Ha Hls), map_map. apply map_ext.
  intros l. reflexivity.
Qed.

End ExtractFacts2.
Import ExtractFacts2.

(** X11: Every value the extraction finds stands quoted in the text, behind
    the attribute name, an equals sign with white space on both sides
    and before a semicolon, and holds no line break. *)
Theorem X11_extracted_value_quoted :
  forall attribute text v,
    plain_name attribute = true ->
    In v (_get_values attribute text) ->
    exists before ws1 ws2 after,
      text = before ++ attribute ++ ws1 ++ "=" ++ ws2 ++ dquote ++ v
             ++ dquote ++ ";" ++ after
      /\ blank ws1 /\ blank ws2
      /\ Py.string_forallb not_newline v = true.
Proof.
  intros attribute text v _. unfold _get_values, findall.
  rewrite in_map_iff. intros (c & Hc & Hin). apply scan_In in Hin.
  destruct Hin as (before & found & rest & -> & E).
  apply attribute_match_value in E.
  destruct E as (ws1 & ws2 & v' & -> & B1 & B2 & Hv & ->).
  cbn in Hc. subst v'. exists before, ws1, ws2, rest. auto.
Qed.

Lemma X11_extracted_value_quoted_witness :
  exists before ws1 ws2 after,
    expression "foo" "1.0.0"
    = before ++ "version" ++ ws1 ++ "=" ++ ws2 ++ dquote ++ "1.0.0"
      ++ dquote ++ ";" ++ after
    /\ blank ws1 /\ blank ws2
    /\ Py.string_forallb not_newline "1.0.0" = true.
Proof.
  apply (X11_extracted_value_quoted "version" (expression "foo" "1.0.0") "1.0.0").
  - reflexivity.
  - vm_compute. auto.
Defined.

(** X12: In a text of lines that each declare the attribute (behind white
    space, or as the end of a longer name) the extraction finds the value
    of every line, in order: the pattern has no word boundary and stops
    at the end of the line.  So the unique value is that of the one line,
    and a text of several such lines, or of none, is an error. *)
Theorem X12_extraction_by_lines :
  forall attribute ls,
    plain_name attribute = true ->
    attribute_name attribute ->
    Forall well_formed ls ->
    _get_values attribute (lines_text attribute ls) = map line_value ls
    /\ _get_unique_value attribute (lines_text attribute ls)
       = match ls with
         | [] => Raise (Exn ValueError ("no value found for " ++ attribute))
         | [l] => Ok (line_value l)
         | _ =>
             Raise (Exn ValueError ("found too many values for " ++ attribute))
         end.
Proof.
  intros attribute ls _ Ha Hls.
  pose proof (get_values_lines attribute ls Ha Hls) as E.
  split; [exact E|]. unfold _get_unique_value. rewrite E.
  destruct ls as [|l [|l' ls]]; reflexivity.
Qed.

Lemma X12_extraction_by_lines_witness :
  _get_values "version"
    (lines_text "version"
       [Line "  " "" "1.0.0"; Line "  " "python_" "3.11"])
  = ["1.0.0"; "3.11"].
Proof.
  apply (X12_extraction_by_lines "version"
           [Line "  " "" "1.0.0"; Line "  " "python_" "3.11"]).
  - reflexivity.
  - split; [discriminate | reflexivity].
  - repeat constructor.
Defined.

Module VersionFacts2.

Lemma uint_of_digits s :
  Py.string_forallb is_digit s = true ->
  exists u, NilEmpty.uint_of_string s = Some u.
Proof.
  induction s as [|a s IH]; [simpl; eauto|].
  cbn [Py.string_forallb]. rewrite andb_true_iff. intros [Ha Hs].
  destruct (IH Hs) as [u Hu]. cbn [NilEmpty.uint_of_string]. rewrite Hu.
  destruct a as [[|] [|] [|] [|] [|] [|] [|] [|]];
    vm_compute in Ha; try discriminate; simpl; eauto.
Qed.

(** [int] accepts every non-empty run of digits. *)
Lemma int_digits d : digit_string d -> exists n, Py.int d = Some n.
Proof.
  intros [Hd Hne]. destruct (uint_of_digits d Hd) as [u Hu].
  unfold Py.int, NilZero.uint_of_string.
  destruct d as [|a d]; [congruence|]. rewrite Hu. simpl. eauto.
Qed.

Lemma traverse_int_digits ds :
  Forall digit_string ds -> exists l, Py.traverse Py.int ds = Some l.
Proof.
  induction 1 as [|d ds Hd _ [l IH]]; [simpl; eauto|].
  destruct (int_digits d Hd) as [n Hn]. simpl. rewrite Hn, IH. eauto.
Qed.

(** [Version] of dotted runs of digits is the release of their values. *)
Lemma Version_digits d ds l :
  Forall digit_string (d :: ds) ->
  Py.traverse Py.int (d :: ds) = Some l ->
  Packaging.Version (Py.join "." (d :: ds)) = Some (release_only l).
Proof.
  intros H Hl. rewrite join_dots. unfold Packaging.Version.
  rewrite re_match_dotted by exact H.
  cbn [group String.eqb Ascii.eqb Bool.eqb Packaging.truthy].
  simpl group. rewrite split_dots by exact H. rewrite Hl. reflexivity.
Qed.

End VersionFacts2.
Import VersionFacts2.

(** X13: A [Version] keeps the text it was made from, while its release holds
    the values of the numbers: for a dotted run of decimal numbers,
    leading zeros allowed, the object has the text as [raw_version], the
    values as release, as many items as there are numbers, and is a final
    release; [str] of it is the dotted run of the values without leading
    zeros, so it gives the text back only when the text was written that
    way. *)
Theorem X13_version_keeps_text :
  (forall ds,
     ds <> [] -> Forall digit_string ds ->
     exists l,
       Py.traverse Py.int ds = Some l
       /\ Version.__init__ (Py.join "." ds)
          = Ok (Version.Build (release_only l) (Py.join "." ds))
       /\ Version.__len__
            (Version.Build (release_only l) (Py.join "." ds))
          = List.length ds
       /\ Packaging.__str__ (release_only l) = Py.join "." (map Py.str l))
  /\ (forall l,
        l <> [] ->
        Version.__init__ (Py.join "." (map Py.str l))
        = Ok (Version.Build (release_only l) (Py.join "." (map Py.str l))))
  /\ Version.__init__ "0.04.21"
     = Ok (Version.Build (release_only [0; 4; 21]%N) "0.04.21")
  /\ Packaging.__str__ (release_only [0; 4; 21]%N) = "0.4.21".
Proof.
  split; [|split; [|split; vm_compute; reflexivity]].
  - intros ds Hne H. destruct ds as [|d ds]; [congruence|].
    destruct (traverse_int_digits _ H) as [l Hl]. exists l.
    split; [exact Hl|]. split; [|split].
    + unfold Version.__init__. now rewrite (Version_digits d ds l H Hl).
    + unfold Version.__len__. cbn [Version._version release_only
                                     Packaging.release].
      eapply traverse_length; eauto.
    + apply str_release_only.
  - intros l Hne. unfold Version.__init__.
    now rewrite (Version_release_only l Hne).
Qed.

Lemma X13_version_keeps_text_witness :
  exists l,
    Py.traverse Py.int ["2"; "05"; "3"] = Some l
    /\ Version.__init__ (Py.join "." ["2"; "05"; "3"])
       = Ok (Version.Build (release_only l) (Py.join "." ["2"; "05"; "3"]))
    /\ Version.__len__
         (Version.Build (release_only l) (Py.join "." ["2"; "05"; "3"]))
       = List.length ["2"; "05"; "3"]
    /\ Packaging.__str__ (release_only l) = Py.join "." (map Py.str l).
Proof.
  apply (proj1 X13_version_keeps_text ["2"; "05"; "3"]).
  - discriminate.
  - repeat constructor; discriminate.
Defined.

(** X14: The phases of a release are ordered: for one epoch and release, a
    development release comes before a pre-release, a pre-release before
    the final release, the final release before a post-release and
    before the same release with a local label. *)
Theorem X14_release_phases_ordered :
  forall e r d p po l,
    let dev_release := Packaging.Build_Version e r (Some d) None None None in
    let pre_release := Packaging.Build_Version e r None (Some p) None None in
    let final_release := Packaging.Build_Version e r None None None None in
    let post_release := Packaging.Build_Version e r None None (Some po) None in
    let local_release := Packaging.Build_Version e r None None None (Some l) in
    ltb dev_release pre_release = true
    /\ ltb pre_release final_release = true
    /\ ltb final_release post_release = true
    /\ ltb final_release local_release = true.
Proof.
  intros e r d p po l. cbv zeta. unfold ltb.
  rewrite !cmp_version.
  unfold Packaging._key, Packaging._cmpkey. cbn [Packaging.epoch
    Packaging.release Packaging.pre Packaging.post Packaging.dev
    Packaging.local].
  unfold Packaging.CmpKey. rewrite !cmp_pair, !cmp_refl. cbn [lex].
  repeat split; reflexivity.
Qed.

Module LineFacts.

Section Run.
Context {R : Type}.
Implicit Types (k : string -> captures -> option R).

(** Renaming the groups changes the names in the captures and nothing
    else. *)
Lemma run_rename f (r : regex) : forall s c k,
  run (rename f r) s (rename_captures f c) k
  = run r s c (fun s' c' => k s' (rename_captures f c')).
Proof.
  induction r as [|p|l|r1 IH1 r2 IH2|r1 IH1 r2 IH2|r IH|name r IH|];
    intros s c k; cbn [rename].
  - reflexivity.
  - destruct s as [|a s]; [reflexivity|]. rewrite !run_chr_cons. reflexivity.
  - rewrite !run_lit. reflexivity.
  - rewrite !run_cat, IH1. apply run_ext. intros s' c'. apply IH2.
  - rewrite !run_alt, IH1, IH2. reflexivity.
  - remember (String.length s) as n eqn:En.
    assert (Hn : String.length s <= n) by lia. clear En.
    revert s c Hn. induction n as [|n IHn]; intros s c Hn;
      rewrite (run_star (rename f r)), (run_star r), IH;
      (erewrite (run_ext r s c); [reflexivity|]); intros s' c'; cbv beta;
      (destruct (Nat.ltb_spec (String.length s') (String.length s));
       [|reflexivity]);
      [exfalso; lia | apply IHn; lia].
  - rewrite !run_group.
    change ((f name, taken s ?s') :: rename_captures f ?c')
      with (rename_captures f ((name, taken s s') :: c')).
    rewrite IH. reflexivity.
  - reflexivity.
Qed.

End Run.

(** What the continuation makes of a success does not change which
    success is found. *)
Lemma run_option_map {R R'} (h : R -> R') (r : regex) :
  forall s c (k : string -> captures -> option R),
    run r s c (fun s' c' => option_map h (k s' c'))
    = option_map h (run r s c k).
Proof.
  induction r as [|p|l|r1 IH1 r2 IH2|r1 IH1 r2 IH2|r IH|name r IH|];
    intros s c k.
  - reflexivity.
  - destruct s as [|a s]; [reflexivity|]. rewrite !run_chr_cons.
    now destruct (p a).
  - rewrite !run_lit. now destruct (strip_prefix l s).
  - rewrite !run_cat, <- IH1. apply run_ext. intros s' c'. apply IH2.
  - rewrite !run_alt, IH1, IH2. now destruct (run r1 s c k).
  - remember (String.length s) as n eqn:En.
    assert (Hn : String.length s <= n) by lia. clear En.
    revert s c Hn. induction n as [|n IHn]; intros s c Hn;
      rewrite (run_star r s c k), (run_star r s c);
      (rewrite (run_ext r s c _
                  (fun s' c' =>
                     option_map h
                       (if Nat.ltb (String.length s') (String.length s)
                        then run (Star r) s' c' k else None)));
       [rewrite IH; now destruct (run r s c _)|]);
      intros s' c';
      (destruct (Nat.ltb_spec (String.length s') (String.length s));
       [|reflexivity]);
      [exfalso; lia | apply IHn; lia].
  - rewrite !run_group. apply IH.
  - destruct s as [|a [|b s]]; try reflexivity.
    cbn. now destruct (Ascii.eqb a "010").
Qed.

Lemma line_regex_rename attribute :
  line_regex attribute
  = Group "1" (rename second_group (attribute_regex attribute)).
Proof. reflexivity. Qed.

(** The two patterns match at the same places and leave the same rest;
    the line pattern adds the text of the whole match. *)
Lemma re_match_line attribute s :
  re_match (line_regex attribute) s
  = option_map
      (fun x => (fst x, ("1", taken s (fst x))
                        :: rename_captures second_group (snd x)))
      (re_match (attribute_regex attribute) s).
Proof.
  rewrite line_regex_rename. unfold re_match. rewrite run_group.
  change (@nil (string * string)) with (rename_captures second_group []) at 1.
  rewrite run_rename.
  rewrite <- (run_option_map
                (fun x => (fst x, ("1", taken s (fst x))
                                  :: rename_captures second_group (snd x)))).
  apply run_ext. reflexivity.
Qed.

(** So the scans run in step. *)
Lemma scan_line_regex attribute : forall s skip,
  Forall2
    (fun cl c =>
       exists found rest,
         re_match (attribute_regex attribute) found = Some (rest, c)
         /\ cl = ("1", taken found rest) :: rename_captures second_group c)
    (scan (line_regex attribute) s skip)
    (scan (attribute_regex attribute) s skip).
Proof.
  induction s as [|a s IH]; intros skip.
  - destruct skip as [|k]; cbn [scan]; [|constructor].
    rewrite re_match_line.
    destruct (re_match (attribute_regex attribute) "") as [[rest c]|] eqn:E;
      cbn [option_map fst snd]; [|constructor].
    constructor; [|constructor]. exists "", rest. auto.
  - destruct skip as [|k]; cbn [scan]; [|apply IH].
    rewrite re_match_line.
    destruct (re_match (attribute_regex attribute) (String a s))
      as [[rest c]|] eqn:E; cbn [option_map fst snd]; [|apply IH].
    constructor; [|apply IH]. exists (String a s), rest. auto.
Qed.

End LineFacts.
Import LineFacts.

(** X15: [_get_line_and_value] succeeds and fails exactly as
    [_get_unique_value] does, with the same exception; where it succeeds,
    its value is that of [_get_unique_value] and its line is the
    declaration as it stands in the text: the attribute name, the equals
    sign between white space, the quoted value and the semicolon. *)
Theorem X15_line_and_value_agree :
  forall attribute text,
    plain_name attribute = true ->
    match _get_line_and_value attribute text with
    | Ok (line, v) =>
        _get_unique_value attribute text = Ok v
        /\ exists ws1 ws2,
             blank ws1 /\ blank ws2
             /\ line = attribute ++ ws1 ++ "=" ++ ws2 ++ dquote ++ v
                       ++ dquote ++ ";"
    | Raise e => _get_unique_value attribute text = Raise e
    end.
Proof.
  intros attribute text _.
  unfold _get_line_and_value, _get_unique_value, _get_values, findall2,
    findall.
  pose proof (scan_line_regex attribute text 0) as H.
  rewrite !length_map. rewrite <- (Forall2_length H).
  destruct H as [|cl c ls l (found & rest & E & ->) Hl]; [reflexivity|].
  destruct Hl; [|reflexivity].
  cbn [List.length Nat.ltb Nat.leb Nat.eqb map hd].
  apply attribute_match_value in E.
  destruct E as (ws1 & ws2 & v & -> & B1 & B2 & _ & ->).
  cbn [rename_captures map fst snd second_group String.eqb Ascii.eqb
       Bool.eqb group].
  split; [reflexivity|]. exists ws1, ws2.
  split; [exact B1|]. split; [exact B2|].
  replace (attribute ++ ws1 ++ "=" ++ ws2 ++ dquote ++ v ++ dquote ++ ";"
           ++ rest)
    with ((attribute ++ ws1 ++ "=" ++ ws2 ++ dquote ++ v ++ dquote ++ ";")
          ++ rest)
    by (now rewrite !append_assoc).
  now rewrite taken_append.
Qed.

Lemma X15_line_and_value_agree_witness :
  _get_unique_value "version" (expression "foo" "1.0.0") = Ok "1.0.0"
  /\ exists ws1 ws2,
       blank ws1 /\ blank ws2
       /\ declaration "version" "1.0.0"
          = "version" ++ ws1 ++ "=" ++ ws2 ++ dquote ++ "1.0.0" ++ dquote
            ++ ";".
Proof.
  pose proof (X15_line_and_value_agree "version" (expression "foo" "1.0.0")
                eq_refl) as H.
  assert (E : _get_line_and_value "version" (expression "foo" "1.0.0")
              = Ok (declaration "version" "1.0.0", "1.0.0"))
    by (vm_compute; reflexivity).
  rewrite E in H. exact H.
Defined.

Module PathFacts.
Import Posixpath.

Lemma split_sep_free p s :
  Forall (fun c => Py.string_forallb (fun a => negb (p a)) c = true)
         (Py.split_on p s).
Proof.
  induction s as [|a s IH]; cbn [Py.split_on]; [repeat constructor|].
  destruct (p a) eqn:Ha; [constructor; [reflexivity | exact IH]|].
  destruct (Py.split_on p s) as [|x xs]; [repeat constructor; cbn; now rewrite Ha|].
  inversion IH; subst. constructor; [|assumption].
  cbn. now rewrite Ha.
Qed.

(** What stands before the first separator is the first piece. *)
Lemma split_on_first p c d rest :
  Py.string_forallb (fun a => negb (p a)) c = true -> p d = true ->
  Py.split_on p (c ++ String d rest) = c :: Py.split_on p rest.
Proof.
  intros Hc Hd. induction c as [|a c IH].
  - cbn [append Py.split_on]. now rewrite Hd.
  - cbn [Py.string_forallb] in Hc. apply andb_true_iff in Hc.
    destruct Hc as [Ha Hc]. apply negb_true_iff in Ha.
    change (String a c ++ String d rest) with (String a (c ++ String d rest)).
    cbn [Py.split_on]. now rewrite Ha, (IH Hc).
Qed.

(** Splitting what was joined gives the pieces back. *)
Lemma split_join d c comps :
  Forall (fun c => Py.string_forallb (fun a => negb (Ascii.eqb d a)) c = true)
         (c :: comps) ->
  Py.split d (Py.join (String d "") (c :: comps)) = c :: comps.
Proof.
  unfold Py.split. revert c. induction comps as [|e comps IH]; intros c H.
  - inversion H; subst. cbn [Py.join concat]. now apply split_on_none.
  - inversion H as [|? ? Hc H']; subst. rewrite join_cons.
    change (String d "" ++ Py.join (String d "") (e :: comps))
      with (String d (Py.join (String d "") (e :: comps))).
    rewrite split_on_first by (exact Hc || apply Ascii.eqb_refl).
    now rewrite (IH e H').
Qed.

Lemma plain_step slashes acc c :
  plain_component c -> normpath_step slashes acc c = (acc ++ [c])%list.
Proof.
  intros (H1 & H2 & H3 & _). unfold normpath_step.
  destruct (String.eqb_spec c ""); [congruence|].
  destruct (String.eqb_spec c "."); [congruence|].
  destruct (String.eqb_spec c ".."); [congruence|]. reflexivity.
Qed.

Lemma plain_fold slashes comps : forall acc,
  Forall plain_component comps ->
  fold_left (normpath_step slashes) comps acc = (acc ++ comps)%list.
Proof.
  induction comps as [|c comps IH]; intros acc H; cbn [fold_left].
  - now rewrite app_nil_r.
  - inversion H; subst. rewrite plain_step by assumption.
    rewrite IH by assumption. now rewrite <- app_assoc.
Qed.

Lemma Forall_removelast {A} (P : A -> Prop) l :
  Forall P l -> Forall P (removelast l).
Proof.
  induction 1 as [|x l Hx Hl IH]; [constructor|].
  cbn [removelast]. destruct l; [constructor|]. now constructor.
Qed.

(** Behind an initial slash the loop keeps plain components only. *)
Lemma step_plain slashes acc c :
  slashes <> 0 -> sep_free c ->
  Forall plain_component acc ->
  Forall plain_component (normpath_step slashes acc c).
Proof.
  intros Hs Hc Hacc. unfold normpath_step.
  destruct (String.eqb_spec c ""); [exact Hacc|].
  destruct (String.eqb_spec c "."); [exact Hacc|]. cbn [orb].
  destruct (String.eqb_spec c "..") as [->|N]; cbn [negb orb].
  - destruct (Nat.eqb_spec slashes 0); [congruence|]. cbn [andb orb].
    destruct acc as [|x acc]; [exact Hacc|]. cbn [is_empty negb andb].
    destruct (String.eqb_spec (last (x :: acc) "") "..") as [E|_];
      [|now apply Forall_removelast].
    exfalso.
    assert (Hin : In (last (x :: acc) "") (x :: acc)).
    { destruct (exists_last (l := x :: acc)) as (l' & y & ->);
        [discriminate|].
      rewrite last_last. apply in_or_app. right. now left. }
    rewrite Forall_forall in Hacc. destruct (Hacc _ Hin) as (_ & _ & H & _).
    congruence.
  - apply Forall_app. split; [exact Hacc|]. repeat constructor; assumption.
Qed.

Lemma fold_plain slashes comps : forall acc,
  slashes <> 0 -> Forall sep_free comps ->
  Forall plain_component acc ->
  Forall plain_component (fold_left (normpath_step slashes) comps acc).
Proof.
  induction comps as [|c comps IH]; intros acc Hs Hc Hacc; [exact Hacc|].
  inversion Hc; subst. cbn [fold_left]. apply IH; [assumption..|].
  now apply step_plain.
Qed.

Lemma prefix_cons a p b s :
  String.prefix (String a p) (String b s) = Ascii.eqb a b && String.prefix p s.
Proof.
  cbn [String.prefix]. destruct (ascii_dec a b) as [->|N].
  - now rewrite Ascii.eqb_refl.
  - apply Ascii.eqb_neq in N. now rewrite N.
Qed.

Lemma prefix_empty s : String.prefix "" s = true.
Proof. now destruct s. Qed.

Lemma initial_slashes_absolute path :
  isabs path = true ->
  initial_slashes path = 1 \/ initial_slashes path = 2.
Proof.
  unfold isabs, initial_slashes. intros ->.
  destruct (_ && _); auto.
Qed.

Lemma join_plain_head comps :
  Forall plain_component comps ->
  String.prefix "/" (Py.join "/" comps) = false.
Proof.
  intros H. destruct H as [|c comps (Hne & _ & _ & Hc) _]; [reflexivity|].
  destruct c as [|a c]; [congruence|].
  cbn [Py.string_forallb] in Hc. apply andb_true_iff in Hc.
  destruct Hc as [Ha _]. apply negb_true_iff in Ha.
  destruct comps; cbn [Py.join concat append]; rewrite prefix_cons;
    now rewrite Ha.
Qed.

(** [normpath] of an absolute path. *)
Lemma normpath_absolute path :
  isabs path = true ->
  normpath path
  = times (initial_slashes path) "/"
    ++ Py.join "/" (fold_left (normpath_step (initial_slashes path))
                      (Py.split "/" path) []).
Proof.
  intros Ha. unfold normpath.
  destruct path as [|a path]; [discriminate|]. cbn [String.eqb].
  cbv zeta.
  destruct (initial_slashes_absolute _ Ha) as [-> | ->]; reflexivity.
Qed.

Lemma normpath_normal path :
  isabs path = true -> normal_absolute (normpath path).
Proof.
  intros Ha. rewrite (normpath_absolute path Ha).
  exists (initial_slashes path).
  eexists.
  split; [now apply initial_slashes_absolute|]. split; [|reflexivity].
  apply fold_plain.
  - destruct (initial_slashes_absolute _ Ha) as [-> | ->]; discriminate.
  - apply (split_sep_free (Ascii.eqb "/")).
  - constructor.
Qed.

Lemma isabs_times k j :
  k = 1 \/ k = 2 -> isabs (times k "/" ++ j) = true.
Proof.
  unfold isabs. intros [-> | ->]; cbn [times append];
    now rewrite prefix_cons, prefix_empty.
Qed.

(** A path in normal form is what [normpath] makes of it. *)
Lemma normal_fixed path : normal_absolute path -> normpath path = path.
Proof.
  intros (slashes & comps & Hs & Hc & ->).
  pose proof (join_plain_head comps Hc) as Hh.
  assert (Hfold : forall k,
            fold_left (normpath_step k) (Py.split "/" (Py.join "/" comps)) []
            = comps).
  { intros k. destruct comps as [|c comps]; [reflexivity|].
    rewrite (split_join "/"%char c comps).
    - now rewrite plain_fold.
    - eapply Forall_impl; [|exact Hc]. intros x (_ & _ & _ & Hx). exact Hx. }
  destruct Hs as [-> | ->].
  - rewrite normpath_absolute by (apply isabs_times; auto).
    assert (Hk : initial_slashes (times 1 "/" ++ Py.join "/" comps) = 1).
    { unfold initial_slashes. cbn [times append].
      destruct (Py.join "/" comps) as [|a j]; [reflexivity|].
      rewrite prefix_cons in Hh. rewrite !prefix_cons, Hh. reflexivity. }
    rewrite Hk. cbn [times append]. unfold Py.split. cbn [Py.split_on
      Ascii.eqb Bool.eqb]. cbn [fold_left]. unfold normpath_step at 2.
    cbn [String.eqb orb]. fold (Py.split "/" (Py.join "/" comps)).
    now rewrite Hfold.
  - rewrite normpath_absolute by (apply isabs_times; auto).
    assert (Hk : initial_slashes (times 2 "/" ++ Py.join "/" comps) = 2).
    { unfold initial_slashes. cbn [times append].
      destruct (Py.join "/" comps) as [|a j]; [reflexivity|].
      rewrite prefix_cons in Hh. rewrite !prefix_cons, Hh. reflexivity. }
    rewrite Hk. cbn [times append]. unfold Py.split. cbn [Py.split_on
      Ascii.eqb Bool.eqb]. cbn [fold_left]. unfold normpath_step at 2.
    cbn [String.eqb orb]. unfold normpath_step at 2. cbn [String.eqb orb].
    fold (Py.split "/" (Py.join "/" comps)).
    now rewrite Hfold.
Qed.

Lemma normal_isabs path : normal_absolute path -> isabs path = true.
Proof.
  intros (slashes & comps & Hs & _ & ->). now apply isabs_times.
Qed.

Lemma join_isabs cwd path :
  isabs cwd = true -> isabs (path_join cwd path) = true.
Proof.
  unfold isabs, path_join. destruct cwd as [|a cwd]; [discriminate|].
  rewrite prefix_cons, prefix_empty. intros H.
  destruct (_ || _); cbn [append]; now rewrite prefix_cons, prefix_empty.
Qed.

Lemma abspath_normal cwd path :
  isabs cwd = true -> normal_absolute (abspath cwd path).
Proof.
  intros Hc. unfold abspath. apply normpath_normal.
  destruct (isabs path) eqn:Hp; [exact Hp | now apply join_isabs].
Qed.

(** No words exactly in a text of white space. *)
Lemma split_whitespace_nil s :
  split_whitespace s = [] <-> Py.string_forallb is_space s = true.
Proof.
  unfold split_whitespace. induction s as [|a s IH]; [cbn; tauto|].
  cbn [Py.split_on Py.string_forallb].
  destruct (is_space a); cbn [filter String.eqb negb andb]; [exact IH|].
  destruct (split_on_cons is_space s) as (x & xs & ->).
  cbn [filter String.eqb negb]. split; discriminate.
Qed.

(** Words are not empty and hold no white space. *)
Lemma split_whitespace_words s :
  Forall (fun x => x <> "" /\ Py.string_forallb no_space x = true)
         (split_whitespace s).
Proof.
  unfold split_whitespace. apply Forall_forall. intros x Hx.
  apply filter_In in Hx. destruct Hx as [Hin Hne].
  split; [destruct x; [discriminate | discriminate]|].
  pose proof (split_sep_free is_space s) as H.
  rewrite Forall_forall in H. exact (H x Hin).
Qed.

End PathFacts.
Import PathFacts.

(** X16: With an absolute working directory, [abspath] gives an absolute path
    in normal form (one or two slashes, then components that are not
    empty, [.] or [..], one slash between them), and leaves such a path
    as it is: applying it twice is applying it once. *)
Theorem X16_abspath_normal_form :
  forall cwd path,
    Posixpath.isabs cwd = true ->
    normal_absolute (Posixpath.abspath cwd path)
    /\ Posixpath.isabs (Posixpath.abspath cwd path) = true
    /\ Posixpath.abspath cwd (Posixpath.abspath cwd path)
       = Posixpath.abspath cwd path.
Proof.
  intros cwd path Hc. pose proof (abspath_normal cwd path Hc) as Hn.
  split; [exact Hn|]. split; [now apply normal_isabs|].
  unfold Posixpath.abspath at 1. rewrite (normal_isabs _ Hn).
  now apply normal_fixed.
Qed.

Lemma X16_abspath_normal_form_witness :
  normal_absolute (Posixpath.abspath "/home/user" "pkgs/./foo/../bar//default.nix")
  /\ Posixpath.isabs
       (Posixpath.abspath "/home/user" "pkgs/./foo/../bar//default.nix") = true
  /\ Posixpath.abspath "/home/user"
       (Posixpath.abspath "/home/user" "pkgs/./foo/../bar//default.nix")
     = Posixpath.abspath "/home/user" "pkgs/./foo/../bar//default.nix".
Proof.
  apply (X16_abspath_normal_form "/home/user" "pkgs/./foo/../bar//default.nix").
  reflexivity.
Defined.

(** X17: The package list is the arguments followed by the words read from
    standard input (when that is no terminal), in order, each made
    absolute.  The assertion fails exactly when there are no arguments
    and standard input is a terminal or holds nothing but white space;
    otherwise the list is not empty, and with an absolute working
    directory every path in it is absolute and in normal form. *)
Theorem X17_create_package_list_outcome :
  forall t initial_packages,
    match fst (create_package_list t initial_packages) with
    | None =>
        initial_packages = []
        /\ (isatty t = true
            \/ Py.string_forallb is_space (stdin_read t) = true)
    | Some packages =>
        packages
        = map (Posixpath.abspath (getcwd t))
            (initial_packages ++ stdin_words t)
        /\ packages <> []
        /\ (initial_packages <> []
            \/ (isatty t = false
                /\ Py.string_forallb is_space (stdin_read t) = false))
        /\ (Posixpath.isabs (getcwd t) = true ->
            Forall normal_absolute packages)
    end
    /\ Forall (fun x => x <> "" /\ Py.string_forallb no_space x = true)
         (stdin_words t).
Proof.
  intros t initial. split.
  2:{ unfold stdin_words. destruct (isatty t); [constructor|].
      apply split_whitespace_words. }
  unfold create_package_list, stdin_words.
  destruct (isatty t); cbn [negb].
  - rewrite app_nil_r. destruct initial as [|p l]; cbn [List.length Nat.ltb
      Nat.leb fst]; [auto|].
    split; [reflexivity|]. split; [discriminate|].
    split; [left; discriminate|].
    intros Hc. apply Forall_forall. intros x Hx. apply in_map_iff in Hx.
    destruct Hx as (y & <- & _). now apply abspath_normal.
  - destruct (initial ++ split_whitespace (stdin_read t))%list
      as [|p l] eqn:E; cbn [List.length Nat.ltb Nat.leb fst].
    + apply app_eq_nil in E. destruct E as [-> E]. split; [reflexivity|].
      right. now apply split_whitespace_nil.
    + split; [reflexivity|]. split; [discriminate|]. split.
      * destruct initial as [|q i]; [|left; discriminate]. right.
        split; [reflexivity|]. cbn [app] in E.
        destruct (Py.string_forallb is_space (stdin_read t)) eqn:Hs;
          [|reflexivity].
        apply split_whitespace_nil in Hs. congruence.
      * intros Hc. apply Forall_forall. intros x Hx. apply in_map_iff in Hx.
        destruct Hx as (y & <- & _). now apply abspath_normal.
Qed.
